(** * Sky Fruit Catcher: the game engine of [gameEngine.js]

    A shallow embedding of the [GameEngine] class (the variant with Shield,
    Magnet and Time items) together with the small part of the browser it
    talks to: the timer table behind [setTimeout] / [setInterval] /
    [clearTimeout] / [clearInterval], the animation-frame queue behind
    [requestAnimationFrame] / [cancelAnimationFrame], and [Math.random].

    Conventions.
    - Positions and speeds are JavaScript numbers used as reals; they are
      binary64 floats here ([PrimFloat]), with the comparisons and the
      additions of the source written with the primitive operations.
    - [score], [level] and [timeLimit] only ever hold integers; they are [Z].
      A JavaScript number is such an integer exactly, and [+ 1], [- 1],
      [+ 100] and [+ 200] on it are exact, as long as it stays a safe
      integer (absolute value below 2^53); that is the range of the game (a
      clock of 60 seconds, a score that grows by at most 200 per catch), and
      a statement about a clock the caller is free to choose is made for
      that range.
    - A callback slot is either empty or holds a collaborator's function.
      The engine only tests a slot for presence and calls it; a slot is a
      [bool] here and a call appends the notification to a log.
    - Timer and frame handles are positive integers, hence always truthy:
      [if (this.magnetTimer)] is the test "is not null". *)

From Stdlib Require Import ZArith List String Bool Lia Floats Permutation.
Import ListNotations.

Local Open Scope Z_scope.

(* Decimal literals such as 0.15 denote the nearest binary64 value, as they
   do in JavaScript. *)
Set Warnings "-inexact-float".

(** ** Data *)

Inductive Lane : Type := Left | Center | Right.

Definition Lane_eqb (a b : Lane) : bool :=
  match a, b with
  | Left, Left | Center, Center | Right, Right => true
  | _, _ => false
  end.

Inductive ItemType : Type := Apple | Banana | Bomb | Shield | Magnet | Time.

Definition ItemType_eqb (a b : ItemType) : bool :=
  match a, b with
  | Apple, Apple | Banana, Banana | Bomb, Bomb
  | Shield, Shield | Magnet, Magnet | Time, Time => true
  | _, _ => false
  end.

(** An item as [spawnItem] builds it.  [id] is the counter value [n] of the
    source's string [item_n]. *)
Record Item : Type := mkItem {
  id : nat;
  type : ItemType;
  points : Z;
  lane : option Lane;            (* [None]: [undefined], an index outside [lanes] *)
  y : float;
  originalSpeed : float;
  speed : float
}.

Definition set_y (v : float) (it : Item) : Item :=
  mkItem (id it) (type it) (points it) (lane it) v (originalSpeed it) (speed it).

Definition set_lane (v : option Lane) (it : Item) : Item :=
  mkItem (id it) (type it) (points it) v (y it) (originalSpeed it) (speed it).

(** The eight callback slots of the engine. *)
Inductive Slot : Type :=
  | OnScoreChange | OnGameEnd | OnTimeUpdate | OnItemSpawn
  | OnItemRemove | OnBasketMove | OnEffectChange | OnRender.

Definition Slot_eqb (a b : Slot) : bool :=
  match a, b with
  | OnScoreChange, OnScoreChange | OnGameEnd, OnGameEnd
  | OnTimeUpdate, OnTimeUpdate | OnItemSpawn, OnItemSpawn
  | OnItemRemove, OnItemRemove | OnBasketMove, OnBasketMove
  | OnEffectChange, OnEffectChange | OnRender, OnRender => true
  | _, _ => false
  end.

(** What a callback is called with. *)
Inductive Notification : Type :=
  | ScoreChange (sc lv : Z)
  | GameEnd (sc lv : Z) (reason : string)
  | TimeUpdate (remaining : Z)
  | ItemSpawn (it : Item)
  | ItemRemove (item_id : nat)
  | BasketMove (l : Lane)
  | EffectChange (shield magnet timeSlow : bool)
  | Render (its : list Item).

(** ** The engine object *)

Record GameEngine : Type := mkGameEngine {
  score : Z;
  level : Z;
  timeLimit : Z;
  isGameActive : bool;
  gameTimer : option positive;
  spawnTimer : option positive;
  gameLoopId : option positive;
  callbacks : Slot -> bool;
  currentPose : Lane;
  items : list Item;
  itemCounter : nat;
  basketPosition : Lane;
  hasShield : bool;
  magnetTimer : option positive;
  timeSlowTimer : option positive;
  isMagnetActive : bool;
  isTimeSlowActive : bool;
  spawnRate : Z;
  baseSpeed : float
}.

Definition set_score (v : Z) (g : GameEngine) : GameEngine :=
  mkGameEngine v (level g) (timeLimit g) (isGameActive g) (gameTimer g)
    (spawnTimer g) (gameLoopId g) (callbacks g) (currentPose g) (items g)
    (itemCounter g) (basketPosition g) (hasShield g) (magnetTimer g)
    (timeSlowTimer g) (isMagnetActive g) (isTimeSlowActive g) (spawnRate g)
    (baseSpeed g).

Definition set_level (v : Z) (g : GameEngine) : GameEngine :=
  mkGameEngine (score g) v (timeLimit g) (isGameActive g) (gameTimer g)
    (spawnTimer g) (gameLoopId g) (callbacks g) (currentPose g) (items g)
    (itemCounter g) (basketPosition g) (hasShield g) (magnetTimer g)
    (timeSlowTimer g) (isMagnetActive g) (isTimeSlowActive g) (spawnRate g)
    (baseSpeed g).

Definition set_timeLimit (v : Z) (g : GameEngine) : GameEngine :=
  mkGameEngine (score g) (level g) v (isGameActive g) (gameTimer g)
    (spawnTimer g) (gameLoopId g) (callbacks g) (currentPose g) (items g)
    (itemCounter g) (basketPosition g) (hasShield g) (magnetTimer g)
    (timeSlowTimer g) (isMagnetActive g) (isTimeSlowActive g) (spawnRate g)
    (baseSpeed g).

Definition set_isGameActive (v : bool) (g : GameEngine) : GameEngine :=
  mkGameEngine (score g) (level g) (timeLimit g) v (gameTimer g) (spawnTimer
    g) (gameLoopId g) (callbacks g) (currentPose g) (items g) (itemCounter g)
    (basketPosition g) (hasShield g) (magnetTimer g) (timeSlowTimer g)
    (isMagnetActive g) (isTimeSlowActive g) (spawnRate g) (baseSpeed g).

Definition set_gameTimer (v : option positive) (g : GameEngine) : GameEngine :=
  mkGameEngine (score g) (level g) (timeLimit g) (isGameActive g) v
    (spawnTimer g) (gameLoopId g) (callbacks g) (currentPose g) (items g)
    (itemCounter g) (basketPosition g) (hasShield g) (magnetTimer g)
    (timeSlowTimer g) (isMagnetActive g) (isTimeSlowActive g) (spawnRate g)
    (baseSpeed g).

Definition set_spawnTimer (v : option positive) (g : GameEngine) : GameEngine :=
  mkGameEngine (score g) (level g) (timeLimit g) (isGameActive g) (gameTimer
    g) v (gameLoopId g) (callbacks g) (currentPose g) (items g) (itemCounter g)
    (basketPosition g) (hasShield g) (magnetTimer g) (timeSlowTimer g)
    (isMagnetActive g) (isTimeSlowActive g) (spawnRate g) (baseSpeed g).

Definition set_gameLoopId (v : option positive) (g : GameEngine) : GameEngine :=
  mkGameEngine (score g) (level g) (timeLimit g) (isGameActive g) (gameTimer
    g) (spawnTimer g) v (callbacks g) (currentPose g) (items g) (itemCounter g)
    (basketPosition g) (hasShield g) (magnetTimer g) (timeSlowTimer g)
    (isMagnetActive g) (isTimeSlowActive g) (spawnRate g) (baseSpeed g).

Definition set_callbacks (v : Slot -> bool) (g : GameEngine) : GameEngine :=
  mkGameEngine (score g) (level g) (timeLimit g) (isGameActive g) (gameTimer
    g) (spawnTimer g) (gameLoopId g) v (currentPose g) (items g) (itemCounter g)
    (basketPosition g) (hasShield g) (magnetTimer g) (timeSlowTimer g)
    (isMagnetActive g) (isTimeSlowActive g) (spawnRate g) (baseSpeed g).

Definition set_currentPose (v : Lane) (g : GameEngine) : GameEngine :=
  mkGameEngine (score g) (level g) (timeLimit g) (isGameActive g) (gameTimer
    g) (spawnTimer g) (gameLoopId g) (callbacks g) v (items g) (itemCounter g)
    (basketPosition g) (hasShield g) (magnetTimer g) (timeSlowTimer g)
    (isMagnetActive g) (isTimeSlowActive g) (spawnRate g) (baseSpeed g).

Definition set_items (v : list Item) (g : GameEngine) : GameEngine :=
  mkGameEngine (score g) (level g) (timeLimit g) (isGameActive g) (gameTimer
    g) (spawnTimer g) (gameLoopId g) (callbacks g) (currentPose g) v
    (itemCounter g) (basketPosition g) (hasShield g) (magnetTimer g)
    (timeSlowTimer g) (isMagnetActive g) (isTimeSlowActive g) (spawnRate g)
    (baseSpeed g).

Definition set_itemCounter (v : nat) (g : GameEngine) : GameEngine :=
  mkGameEngine (score g) (level g) (timeLimit g) (isGameActive g) (gameTimer
    g) (spawnTimer g) (gameLoopId g) (callbacks g) (currentPose g) (items g) v
    (basketPosition g) (hasShield g) (magnetTimer g) (timeSlowTimer g)
    (isMagnetActive g) (isTimeSlowActive g) (spawnRate g) (baseSpeed g).

Definition set_basketPosition (v : Lane) (g : GameEngine) : GameEngine :=
  mkGameEngine (score g) (level g) (timeLimit g) (isGameActive g) (gameTimer
    g) (spawnTimer g) (gameLoopId g) (callbacks g) (currentPose g) (items g)
    (itemCounter g) v (hasShield g) (magnetTimer g) (timeSlowTimer g)
    (isMagnetActive g) (isTimeSlowActive g) (spawnRate g) (baseSpeed g).

Definition set_hasShield (v : bool) (g : GameEngine) : GameEngine :=
  mkGameEngine (score g) (level g) (timeLimit g) (isGameActive g) (gameTimer
    g) (spawnTimer g) (gameLoopId g) (callbacks g) (currentPose g) (items g)
    (itemCounter g) (basketPosition g) v (magnetTimer g) (timeSlowTimer g)
    (isMagnetActive g) (isTimeSlowActive g) (spawnRate g) (baseSpeed g).

Definition set_magnetTimer (v : option positive) (g : GameEngine) : GameEngine :=
  mkGameEngine (score g) (level g) (timeLimit g) (isGameActive g) (gameTimer
    g) (spawnTimer g) (gameLoopId g) (callbacks g) (currentPose g) (items g)
    (itemCounter g) (basketPosition g) (hasShield g) v (timeSlowTimer g)
    (isMagnetActive g) (isTimeSlowActive g) (spawnRate g) (baseSpeed g).

Definition set_timeSlowTimer (v : option positive) (g : GameEngine) : GameEngine :=
  mkGameEngine (score g) (level g) (timeLimit g) (isGameActive g) (gameTimer
    g) (spawnTimer g) (gameLoopId g) (callbacks g) (currentPose g) (items g)
    (itemCounter g) (basketPosition g) (hasShield g) (magnetTimer g) v
    (isMagnetActive g) (isTimeSlowActive g) (spawnRate g) (baseSpeed g).

Definition set_isMagnetActive (v : bool) (g : GameEngine) : GameEngine :=
  mkGameEngine (score g) (level g) (timeLimit g) (isGameActive g) (gameTimer
    g) (spawnTimer g) (gameLoopId g) (callbacks g) (currentPose g) (items g)
    (itemCounter g) (basketPosition g) (hasShield g) (magnetTimer g)
    (timeSlowTimer g) v (isTimeSlowActive g) (spawnRate g) (baseSpeed g).

Definition set_isTimeSlowActive (v : bool) (g : GameEngine) : GameEngine :=
  mkGameEngine (score g) (level g) (timeLimit g) (isGameActive g) (gameTimer
    g) (spawnTimer g) (gameLoopId g) (callbacks g) (currentPose g) (items g)
    (itemCounter g) (basketPosition g) (hasShield g) (magnetTimer g)
    (timeSlowTimer g) (isMagnetActive g) v (spawnRate g) (baseSpeed g).

Definition set_baseSpeed (v : float) (g : GameEngine) : GameEngine :=
  mkGameEngine (score g) (level g) (timeLimit g) (isGameActive g) (gameTimer
    g) (spawnTimer g) (gameLoopId g) (callbacks g) (currentPose g) (items g)
    (itemCounter g) (basketPosition g) (hasShield g) (magnetTimer g)
    (timeSlowTimer g) (isMagnetActive g) (isTimeSlowActive g) (spawnRate g) v.

(** [new GameEngine()].  [onRender] is not assigned by the constructor, so
    that slot starts empty like the others. *)
Definition constructor : GameEngine :=
  {| score := 0; level := 1; timeLimit := 0; isGameActive := false;
     gameTimer := None; spawnTimer := None; gameLoopId := None;
     callbacks := fun _ => false;
     currentPose := Center; items := []; itemCounter := 0%nat;
     basketPosition := Center;
     hasShield := false; magnetTimer := None; timeSlowTimer := None;
     isMagnetActive := false; isTimeSlowActive := false;
     spawnRate := 2000; baseSpeed := 0.5%float |}.

(** ** The browser side *)

(** The functions the engine hands to the timer table. *)
Inductive Task : Type := CountdownTick | SpawnTick | MagnetExpiry | TimeSlowExpiry.

Definition Task_eqb (a b : Task) : bool :=
  match a, b with
  | CountdownTick, CountdownTick | SpawnTick, SpawnTick
  | MagnetExpiry, MagnetExpiry | TimeSlowExpiry, TimeSlowExpiry => true
  | _, _ => false
  end.

(** A pending timer: [period = Some p] for [setInterval], [None] for
    [setTimeout]; [due] is the clock value from which it may run. *)
Record Timer : Type := mkTimer {
  handle : positive;
  task : Task;
  due : Z;
  period : option Z
}.

Record Host : Type := mkHost {
  now : Z;                      (* clock, milliseconds *)
  timers : list Timer;          (* pending timeouts and intervals *)
  nextTimer : positive;         (* next timer handle *)
  frames : list positive;       (* pending animation-frame requests *)
  nextFrame : positive;         (* next frame handle *)
  entropy : nat -> float;       (* the values Math.random() will return *)
  draws : nat                   (* how many were taken *)
}.

(** Engine, browser, and the notifications delivered so far (oldest first). *)
Record World : Type := mkWorld {
  eng : GameEngine;
  host : Host;
  log : list Notification
}.

Definition upd (f : GameEngine -> GameEngine) (w : World) : World :=
  mkWorld (f (eng w)) (host w) (log w).

Definition set_timers (ts : list Timer) (h : Host) : Host :=
  mkHost (now h) ts (nextTimer h) (frames h) (nextFrame h) (entropy h) (draws h).

Definition set_frames (fs : list positive) (h : Host) : Host :=
  mkHost (now h) (timers h) (nextTimer h) fs (nextFrame h) (entropy h) (draws h).

Definition updHost (f : Host -> Host) (w : World) : World :=
  mkWorld (eng w) (f (host w)) (log w).

(** [if (this.onX) this.onX(...)]: what reaches the log. *)
Definition emit (g : GameEngine) (s : Slot) (n : Notification)
  : list Notification :=
  if callbacks g s then [n] else [].

Definition notify (s : Slot) (n : Notification) (w : World) : World :=
  mkWorld (eng w) (host w) (log w ++ emit (eng w) s n).

(** [setTimeout(f, delay)] and [setInterval(f, delay)]: a fresh handle. *)
Definition addTimer (t : Task) (delay : Z) (per : option Z) (w : World)
  : positive * World :=
  let h := host w in
  let k := nextTimer h in
  (k, mkWorld (eng w)
        (mkHost (now h) (timers h ++ [mkTimer k t (now h + delay) per])
                (Pos.succ k) (frames h) (nextFrame h) (entropy h) (draws h))
        (log w)).

Definition setTimeout (t : Task) (delay : Z) := addTimer t delay None.
Definition setInterval (t : Task) (delay : Z) := addTimer t delay (Some delay).

(** [clearTimeout(x)] and [clearInterval(x)] act on the same table; [null]
    or a handle that is not pending is ignored. *)
Definition without (x : option positive) (ts : list Timer) : list Timer :=
  match x with
  | None => ts
  | Some k => filter (fun t => negb (Pos.eqb (handle t) k)) ts
  end.

Definition clearTimer (x : option positive) (w : World) : World :=
  updHost (fun h => set_timers (without x (timers h)) h) w.

Definition requestAnimationFrame (w : World) : positive * World :=
  let h := host w in
  let k := nextFrame h in
  (k, mkWorld (eng w)
        (mkHost (now h) (timers h) (nextTimer h) (frames h ++ [k])
                (Pos.succ k) (entropy h) (draws h))
        (log w)).

Definition cancelAnimationFrame (x : option positive) (w : World) : World :=
  updHost (fun h =>
    set_frames
      match x with
      | None => frames h
      | Some k => filter (fun f => negb (Pos.eqb f k)) (frames h)
      end h) w.

(** [Math.random()] *)
Definition Math_random (w : World) : float * World :=
  let h := host w in
  (entropy h (draws h),
   mkWorld (eng w)
     (mkHost (now h) (timers h) (nextTimer h) (frames h) (nextFrame h)
             (entropy h) (S (draws h)))
     (log w)).

(** [Math.floor] on a finite number; [None] for NaN and the infinities. *)
Definition Math_floor (x : float) : option Z :=
  match Prim2SF x with
  | S754_zero _ => Some 0
  | S754_finite s m e => Some (Z.shiftl (if s then Z.neg m else Z.pos m) e)
  | _ => None
  end.

(** ** Methods of [GameEngine] *)

Definition notifyEffects (w : World) : World :=
  notify OnEffectChange
    (EffectChange (hasShield (eng w)) (isMagnetActive (eng w))
                  (isTimeSlowActive (eng w))) w.

Definition disableMagnet (w : World) : World :=
  let w := upd (set_isMagnetActive false) w in
  let w := notifyEffects w in
  clearTimer (magnetTimer (eng w)) w.

Definition activateMagnet (w : World) : World :=
  let w := upd (set_isMagnetActive true) w in
  let w := notifyEffects w in
  let w := clearTimer (magnetTimer (eng w)) w in
  let (k, w) := setTimeout MagnetExpiry 5000 w in
  upd (set_magnetTimer (Some k)) w.

Definition disableTimeSlow (w : World) : World :=
  let w := upd (set_isTimeSlowActive false) w in
  let w := notifyEffects w in
  clearTimer (timeSlowTimer (eng w)) w.

Definition activateTimeSlow (w : World) : World :=
  let w := upd (set_isTimeSlowActive true) w in
  let w := notifyEffects w in
  let w := clearTimer (timeSlowTimer (eng w)) w in
  let (k, w) := setTimeout TimeSlowExpiry 5000 w in
  upd (set_timeSlowTimer (Some k)) w.

Definition stop (reason : string) (w : World) : World :=
  let w := upd (set_isGameActive false) w in
  let w := clearTimer (gameTimer (eng w)) w in
  let w := clearTimer (spawnTimer (eng w)) w in
  let w := cancelAnimationFrame (gameLoopId (eng w)) w in
  let w := disableMagnet w in
  let w := disableTimeSlow w in
  notify OnGameEnd (GameEnd (score (eng w)) (level (eng w)) reason) w.

Definition addScore (pts : Z) (w : World) : World :=
  let w := upd (fun g => set_score (score g + pts) g) w in
  notify OnScoreChange (ScoreChange (score (eng w)) (level (eng w))) w.

(** The function given to [setInterval] by [startTimer]. *)
Definition countdownTick (w : World) : World :=
  let w := upd (fun g => set_timeLimit (timeLimit g - 1) g) w in
  let w := notify OnTimeUpdate (TimeUpdate (timeLimit (eng w))) w in
  let w :=
    if (timeLimit (eng w) =? 40) || (timeLimit (eng w) =? 20) then
      let w := upd (fun g => set_level (level g + 1) g) w in
      let w := upd (fun g => set_baseSpeed (baseSpeed g + 0.1)%float g) w in
      notify OnScoreChange (ScoreChange (score (eng w)) (level (eng w))) w
    else w in
  if timeLimit (eng w) <=? 0 then stop "Timeout" w else w.

Definition startTimer (w : World) : World :=
  let (k, w) := setInterval CountdownTick 1000 w in
  upd (set_gameTimer (Some k)) w.

Definition lanes : list Lane := [Left; Center; Right].

(** [lanes[Math.floor(r * lanes.length)]] *)
Definition pickLane (r : float) : option Lane :=
  match Math_floor (r * 3)%float with
  | Some i => if i <? 0 then None else nth_error lanes (Z.to_nat i)
  | None => None
  end.

(** The [if]/[else if] chain under "Item Probabilities": type and points. *)
Definition itemProbabilities (rand : float) : ItemType * Z :=
  if (rand <? 0.15)%float then (Bomb, 0)
  else if (rand <? 0.25)%float then (Banana, 200)
  else if (rand <? 0.30)%float then (Shield, 0)
  else if (rand <? 0.35)%float then (Magnet, 0)
  else if (rand <? 0.40)%float then (Time, 0)
  else (Apple, 100).

Definition spawnItem (w : World) : World :=
  let (r, w) := Math_random w in
  let ln := pickLane r in
  let (rand, w) := Math_random w in
  let (ty, pts) := itemProbabilities rand in
  let sp := baseSpeed (eng w) in
  let sp := if ItemType_eqb ty Banana then (sp + 0.2)%float else sp in
  let item := mkItem (itemCounter (eng w)) ty pts ln 0%float sp sp in
  let w := upd (fun g => set_itemCounter (S (itemCounter g)) g) w in
  let w := upd (fun g => set_items (items g ++ [item]) g) w in
  notify OnItemSpawn (ItemSpawn item) w.

(** The closure [spawn] of [startSpawning]. *)
Definition spawn (w : World) : World :=
  if negb (isGameActive (eng w)) then w
  else
    let w := spawnItem w in
    let nextSpawnTime := 2000 - level (eng w) * 200 in
    let nextSpawnTime := if nextSpawnTime <? 800 then 800 else nextSpawnTime in
    let (k, w) := setTimeout SpawnTick nextSpawnTime w in
    upd (set_spawnTimer (Some k)) w.

Definition startSpawning (w : World) : World := spawn w.

(** ** Physics and catch resolution *)

(** [["Apple", "Banana", "Shield", "Magnet", "Time"].includes(t)] *)
Definition collectible (t : ItemType) : bool :=
  existsb (ItemType_eqb t) [Apple; Banana; Shield; Magnet; Time].

(** [item.lane === this.basketPosition] *)
Definition inBasketLane (g : GameEngine) (it : Item) : bool :=
  match lane it with
  | Some l => Lane_eqb l (basketPosition g)
  | None => false
  end.

(** The callback of [this.items.forEach] in [updatePhysics]. *)
Definition moveItem (g : GameEngine) (it : Item) : Item :=
  let currentSpeed := originalSpeed it in
  let currentSpeed :=
    if isTimeSlowActive g then (currentSpeed * 0.5)%float else currentSpeed in
  let it := set_y (y it + currentSpeed)%float it in
  if isMagnetActive g && (50 <? y it)%float && collectible (type it) then
    if negb (inBasketLane g it) then set_lane (Some (basketPosition g)) it
    else it
  else it.

Definition handleCatch (it : Item) (w : World) : World :=
  match type it with
  | Bomb =>
      if hasShield (eng w) then
        let w := upd (set_hasShield false) w in
        notifyEffects w
      else stop "Bomb" w
  | Shield =>
      let w := upd (set_hasShield true) w in
      notifyEffects w
  | Magnet => activateMagnet w
  | Time => activateTimeSlow w
  | Banana => addScore 200 w
  | Apple => addScore 100 w
  end.

(** The callback of [this.items.filter]: [true] keeps the item. *)
Definition keepItem (it : Item) (w : World) : bool * World :=
  if (100 <? y it)%float then
    (false, notify OnItemRemove (ItemRemove (id it)) w)
  else if (80 <? y it)%float && (y it <? 95)%float then
    let caught := inBasketLane (eng w) it in
    let caught :=
      if isMagnetActive (eng w) && collectible (type it) then true
      else caught in
    if caught then
      let w := handleCatch it w in
      (false, notify OnItemRemove (ItemRemove (id it)) w)
    else (true, w)
  else (true, w).

(** [Array.prototype.filter] with a callback that changes the engine: the
    items are visited in order and each visit sees what the earlier ones
    did. *)
Fixpoint filterItems (its : list Item) (w : World) : list Item * World :=
  match its with
  | [] => ([], w)
  | it :: rest =>
      let (keep, w) := keepItem it w in
      let (kept, w) := filterItems rest w in
      (if keep then it :: kept else kept, w)
  end.

Definition updatePhysics (w : World) : World :=
  let w := upd (fun g => set_items (map (moveItem g) (items g)) g) w in
  let (kept, w) := filterItems (items (eng w)) w in
  let w := upd (set_items kept) w in
  notify OnRender (Render (items (eng w))) w.

(** The closure [loop] of [startGameLoop]. *)
Definition loop (w : World) : World :=
  if negb (isGameActive (eng w)) then w
  else
    let w := updatePhysics w in
    let (k, w) := requestAnimationFrame w in
    upd (set_gameLoopId (Some k)) w.

Definition startGameLoop (w : World) : World :=
  let (k, w) := requestAnimationFrame w in
  upd (set_gameLoopId (Some k)) w.

(** ** Session control and input *)

(** [start(config)]; [config.timeLimit] may be absent ([None]). *)
Definition start (config_timeLimit : option Z) (w : World) : World :=
  if isGameActive (eng w) then w
  else
    let w := upd (set_isGameActive true) w in
    let w := upd (set_score 0) w in
    let w := upd (set_level 1) w in
    let w := upd (set_timeLimit
                    match config_timeLimit with
                    | Some t => if t =? 0 then 60 else t
                    | None => 60
                    end) w in
    let w := upd (set_items []) w in
    let w := upd (set_currentPose Center) w in
    let w := upd (set_basketPosition Center) w in
    let w := upd (set_baseSpeed 0.3%float) w in
    let w := upd (set_hasShield false) w in
    let w := disableMagnet w in
    let w := disableTimeSlow w in
    let w := notifyEffects w in
    let w := startTimer w in
    let w := startSpawning w in
    startGameLoop w.

Definition Lane_of_string (s : string) : option Lane :=
  if String.eqb s "Left" then Some Left
  else if String.eqb s "Center" then Some Center
  else if String.eqb s "Right" then Some Right
  else None.

Definition onPoseDetected (detectedPose : string) (w : World) : World :=
  if negb (isGameActive (eng w)) then w
  else
    match Lane_of_string detectedPose with
    | Some l =>
        let w := upd (set_basketPosition l) w in
        notify OnBasketMove (BasketMove (basketPosition (eng w))) w
    | None => w
    end.

(** The eight setters: [present] tells whether [cb] is a function. *)
Definition setCallback (s : Slot) (present : bool) (w : World) : World :=
  upd (fun g =>
    set_callbacks (fun s' => if Slot_eqb s s' then present else callbacks g s') g) w.

(** ** The event loop *)

Definition runTask (t : Task) : World -> World :=
  match t with
  | CountdownTick => countdownTick
  | SpawnTick => spawn
  | MagnetExpiry => disableMagnet
  | TimeSlowExpiry => disableTimeSlow
  end.

(** A pending timer whose time has come runs.  A timeout leaves the table
    before its function runs; an interval is re-armed and stays until it is
    cleared. *)
Definition fireTimer (k : positive) (w : World) : World :=
  match find (fun t => Pos.eqb (handle t) k) (timers (host w)) with
  | None => w
  | Some t =>
      if due t <=? now (host w) then
        let w :=
          match period t with
          | None => clearTimer (Some k) w
          | Some p =>
              updHost (fun h =>
                set_timers
                  (map (fun t' =>
                          if Pos.eqb (handle t') k
                          then mkTimer k (task t') (now h + p) (period t')
                          else t') (timers h)) h) w
          end in
        runTask (task t) w
      else w
  end.

(** A pending animation frame runs [loop] once. *)
Definition fireFrame (k : positive) (w : World) : World :=
  if existsb (Pos.eqb k) (frames (host w)) then
    loop (cancelAnimationFrame (Some k) w)
  else w.

Definition elapse (dt : N) (w : World) : World :=
  updHost (fun h =>
    mkHost (now h + Z.of_N dt) (timers h) (nextTimer h) (frames h)
           (nextFrame h) (entropy h) (draws h)) w.

(** What can happen to an engine: a collaborator calls a method, or the
    browser runs one of the engine's pending functions, or time passes. *)
Inductive Action : Type :=
  | CallStart (config_timeLimit : option Z)
  | CallStop (reason : option string)
  | CallOnPoseDetected (detectedPose : string)
  | CallSetter (s : Slot) (present : bool)
  | TimerFires (k : positive)
  | FrameFires (k : positive)
  | Elapse (dt : N).

Definition step (a : Action) (w : World) : World :=
  match a with
  | CallStart c => start c w
  | CallStop r => stop match r with Some s => s | None => "Unknown"%string end w
  | CallOnPoseDetected p => onPoseDetected p w
  | CallSetter s b => setCallback s b w
  | TimerFires k => fireTimer k w
  | FrameFires k => fireFrame k w
  | Elapse dt => elapse dt w
  end.

Definition run (acts : list Action) (w : World) : World :=
  fold_left (fun w a => step a w) acts w.

(** A page that has just built its engine. *)
Definition boot (rnd : nat -> float) (t0 : Z) : World :=
  mkWorld constructor (mkHost t0 [] 1%positive [] 1%positive rnd 0%nat) [].

Inductive reachable : World -> Prop :=
  | reachable_boot (rnd : nat -> float) (t0 : Z) : reachable (boot rnd t0)
  | reachable_step (a : Action) (w : World) :
      reachable w -> reachable (step a w).

(** ** Vocabulary of the statements *)

Arguments collectible : simpl never.

(** How many times the game-end callback was called. *)
Fixpoint gameEnds (l : list Notification) : nat :=
  match l with
  | [] => 0%nat
  | GameEnd _ _ _ :: l' => S (gameEnds l')
  | _ :: l' => gameEnds l'
  end.


(** The engine field that remembers the handle of a task's timer. *)
Definition owner (t : Task) (g : GameEngine) : option positive :=
  match t with
  | CountdownTick => gameTimer g
  | SpawnTick => spawnTimer g
  | MagnetExpiry => magnetTimer g
  | TimeSlowExpiry => timeSlowTimer g
  end.

(** The pending timers that will run a given task. *)
Definition pending (t : Task) (w : World) : list Timer :=
  filter (fun x => Task_eqb (task x) t) (timers (host w)).

(** What the engine's bookkeeping guarantees of a pending timer: its handle
    was handed out already, the engine field of its task remembers it, and
    only the countdown is an interval. *)
Definition tidy (g : GameEngine) (next : positive) (t : Timer) : Prop :=
  (handle t < next)%positive
  /\ owner (task t) g = Some (handle t)
  /\ period t = match task t with CountdownTick => Some 1000 | _ => None end.

Definition absent (t : Task) (w : World) : Prop :=
  Forall (fun x => task x <> t) (timers (host w)).

Definition Inv0 (w : World) : Prop :=
  NoDup (map handle (timers (host w)))
  /\ Forall (tidy (eng w) (nextTimer (host w))) (timers (host w)).

(** A stopped engine has neither a countdown nor a spawn timer pending. *)
Definition Inv (w : World) : Prop :=
  Inv0 w
  /\ (isGameActive (eng w) = false ->
      absent CountdownTick w /\ absent SpawnTick w).

(** ** Sessions used as examples *)

Definition everyCallback : list Action :=
  map (fun s => CallSetter s true)
    [OnScoreChange; OnGameEnd; OnTimeUpdate; OnItemSpawn; OnItemRemove;
     OnBasketMove; OnEffectChange; OnRender].

(** [Math.random] returning the values of a list, then 0.5. *)
Definition drawsFrom (l : list float) (n : nat) : float := nth n l 0.5%float.

(** [n] animation frames in a row, the first with handle [k]. *)
Fixpoint frameTicks (n : nat) (k : positive) : list Action :=
  match n with
  | O => []
  | S n' => FrameFires k :: frameTicks n' (Pos.succ k)
  end.

(** A Magnet item spawns in the centre lane and falls to the basket: after
    267 frames it has just been caught. *)
Definition magnetSession : World :=
  run (everyCallback ++ [CallStart (Some 60)] ++ frameTicks 267 1)
      (boot (drawsFrom [0.5; 0.32]%float) 0).

(** The page is in the background for a while (timers run, frames do not):
    a Bomb, an Apple and a Shield spawn in the centre lane and then fall
    side by side; 266 frames later they are about to enter the catch band
    together. *)
Definition crowdedSession : World :=
  run (everyCallback
       ++ [CallStart (Some 60); Elapse 1800; TimerFires 2; Elapse 1800;
           TimerFires 3]
       ++ frameTicks 266 1)
      (boot (drawsFrom [0.5; 0.1; 0.5; 0.9; 0.5; 0.27]%float) 0).

(** The Magnet session after the player pressed Stop. *)
Definition stoppedSession : World := step (CallStop None) magnetSession.

(** A Magnet and a Time item inside the catch band, centre lane. *)
Definition magnetItem : Item :=
  mkItem 7 Magnet 0 (Some Center) 85%float 0.3%float 0.3%float.

Definition timeItem : Item :=
  mkItem 8 Time 0 (Some Center) 85%float 0.3%float 0.3%float.

(** The item that [spawnItem] pushes when called in [w]. *)
Definition spawned (w : World) : option Item :=
  nth_error (items (eng (spawnItem w))) (List.length (items (eng w))).

(** A Shield item spawns in the centre lane and has just been caught. *)
Definition shieldSession : World :=
  run (everyCallback ++ [CallStart (Some 60)] ++ frameTicks 267 1)
      (boot (drawsFrom [0.5; 0.27]%float) 0).

(** Items inside the catch band: a Bomb in the centre lane and an Apple in
    the left lane. *)
Definition bombItem : Item :=
  mkItem 9 Bomb 0 (Some Center) 85%float 0.3%float 0.3%float.

Definition appleItem : Item :=
  mkItem 10 Apple 100 (Some Left) 85%float 0.3%float 0.3%float.

(** One second passes and the countdown interval (handle 1) runs, [n] times. *)
Fixpoint seconds (n : nat) : list Action :=
  match n with
  | O => []
  | S n' => Elapse 1000 :: TimerFires 1 :: seconds n'
  end.

(** A session in which nothing is caught (no frame runs) for [n] seconds. *)
Definition idleSession (n : nat) : World :=
  run (everyCallback ++ [CallStart (Some 60)] ++ seconds n)
      (boot (drawsFrom []) 0).

(** An Apple spawns in the centre lane and falls for [n] frames. *)
Definition appleSession (n : nat) : World :=
  run (everyCallback ++ [CallStart (Some 60)] ++ frameTicks n 1)
      (boot (drawsFrom [0.5; 0.9]%float) 0).

(** The items of the crowded session after the advance of the next tick. *)
Definition fallen : list Item :=
  map (moveItem (eng crowdedSession)) (items (eng crowdedSession)).

(** ** Further vocabulary *)

(** The numbers of a session that only the countdown and [start] touch. *)
Definition sameSession (g g' : GameEngine) : Prop :=
  level g' = level g /\ timeLimit g' = timeLimit g
  /\ baseSpeed g' = baseSpeed g /\ basketPosition g' = basketPosition g
  /\ itemCounter g' = itemCounter g /\ callbacks g' = callbacks g.

(** Level, base speed and remaining time go together: level 1 at 0.3 (or at
    the constructor's 0.5 before the first [start]), level 2 at 0.4 from the
    tick that reads 40 (or 20), level 3 at 0.5 from the tick that reads 20. *)
Definition Tier (g : GameEngine) : Prop :=
  (level g = 1
   /\ (baseSpeed g = 0.3%float \/ (baseSpeed g = 0.5%float /\ timeLimit g <= 0)))
  \/ (level g = 2 /\ baseSpeed g = 0.4%float /\ timeLimit g <= 40)
  \/ (level g = 3 /\ baseSpeed g = 0.5%float /\ timeLimit g <= 20).

(** [n] countdown ticks in a row. *)
Definition countdownTicks (n : nat) (w : World) : World :=
  Nat.iter n countdownTick w.

(** The score is made of catches worth 100 or 200. *)
Definition Points (g : GameEngine) : Prop := 0 <= score g /\ (100 | score g).

(** An item as [spawnItem] makes them: points by kind, both speeds equal. *)
Definition wellFormed (it : Item) : Prop :=
  points it = match type it with Apple => 100 | Banana => 200 | _ => 0 end
  /\ speed it = originalSpeed it.

Definition ItemsInv (g : GameEngine) : Prop :=
  NoDup (map id (items g))
  /\ Forall (fun it => (id it < itemCounter g)%nat /\ wellFormed it) (items g).

(** The ids the item-removed callback was called with, oldest first. *)
Fixpoint removedIds (l : list Notification) : list nat :=
  match l with
  | [] => []
  | ItemRemove i :: l' => i :: removedIds l'
  | _ :: l' => removedIds l'
  end.

(** No engine field remembers the handle of a pending timer of another task,
    and every remembered handle has been handed out. *)
Definition Inv1 (w : World) : Prop :=
  Forall (fun x => forall k, owner k (eng w) = Some (handle x) -> k = task x)
         (timers (host w))
  /\ (forall k h, owner k (eng w) = Some h -> (h < nextTimer (host w))%positive).

(** Some pending timer will run the task. *)
Definition scheduled (t : Task) (w : World) : Prop :=
  Exists (fun x => task x = t) (timers (host w)).

(** The flag that goes with a task: the session flag for the countdown and
    the spawn timer, the effect flag for an expiry. *)
Definition flag (t : Task) (g : GameEngine) : bool :=
  match t with
  | CountdownTick | SpawnTick => isGameActive g
  | MagnetExpiry => isMagnetActive g
  | TimeSlowExpiry => isTimeSlowActive g
  end.

Definition synced (t : Task) (w : World) : Prop :=
  flag t (eng w) = true <-> scheduled t w.

Definition Sync (w : World) : Prop := forall t, synced t w.

(** An active session has an animation frame pending. *)
Definition Looping (w : World) : Prop :=
  isGameActive (eng w) = true -> frames (host w) <> [].

(** Nothing a step can rely on is lost between two states of a session that
    is still active. *)
Definition keepsLoop (w w' : World) : Prop :=
  isGameActive (eng w') = true ->
  isGameActive (eng w) = true /\ frames (host w') = frames (host w).

(** [Number.isSafeInteger]: the integers a JavaScript number holds exactly,
    and between which [+ 1] and [- 1] are exact. *)
Definition Number_isSafeInteger (z : Z) : bool := Z.abs z <=? 2 ^ 53 - 1.

(** The engine is as [new GameEngine()] left it, apart from the callbacks
    set since, and the browser holds nothing of it. *)
Definition unstarted (w : World) : Prop :=
  eng w = set_callbacks (callbacks (eng w)) constructor
  /\ timers (host w) = [] /\ frames (host w) = [].

(** Level 1 goes with the base speed [start] sets. *)
Definition Settled (g : GameEngine) : Prop :=
  level g = 1 -> baseSpeed g = 0.3%float.

(** What [handleCatch] adds to the score for an item of a kind. *)
Definition worth (t : ItemType) : Z :=
  match t with Apple => 100 | Banana => 200 | _ => 0 end.

Definition total (l : list Z) : Z := fold_right Z.add 0 l.

(** Whether an item, as the filter of a tick sees it, is among the items
    the track holds in [w']. *)
Definition onTrack (w' : World) (it : Item) : bool :=
  existsb (Nat.eqb (id it)) (map id (items (eng w'))).

(** The items a physics tick caught: on the track after the advance, not
    fallen past 100, and gone from the track when the tick is over. *)
Definition caughtIn (w : World) : list Item :=
  filter (fun it => negb (100 <? y it)%float && negb (onTrack (updatePhysics w) it))
         (map (moveItem (eng w)) (items (eng w))).
(** * Properties *)

(** ** Comparisons of binary64 numbers *)

Lemma SFltb_pos_cases (m1 m2 : positive) (e1 e2 : Z) :
  SFltb (S754_finite false m1 e1) (S754_finite false m2 e2) = true ->
  e1 < e2 \/ (e1 = e2 /\ Z.pos m1 < Z.pos m2).
Proof.
  unfold SFltb, SFcompare.
  destruct (Z.compare_spec e1 e2) as [He|He|He].
  - change (PosDef.Pos.compare_cont Eq) with Pos.compare.
    destruct (Pos.compare_spec m1 m2) as [Hm|Hm|Hm]; intros H; try discriminate H.
    right. split; [assumption | exact Hm].
  - intros _. left. assumption.
  - intros H. discriminate H.
Qed.

(** A position inside the catch band is not beyond the far edge. *)
Lemma below_95_not_above_100 (v : float) :
  (v <? 95)%float = true -> (100 <? v)%float = false.
Proof.
  intros H. destruct (100 <? v)%float eqn:H'; [exfalso | reflexivity].
  rewrite ltb_spec in H, H'.
  replace (Prim2SF 95) with (S754_finite false 6685030696878080 (-46)) in H
    by (vm_compute; reflexivity).
  replace (Prim2SF 100) with (S754_finite false 7036874417766400 (-46)) in H'
    by (vm_compute; reflexivity).
  destruct (Prim2SF v) as [s| s | |s m e].
  - discriminate H'.
  - destruct s; discriminate.
  - discriminate H'.
  - destruct s; [discriminate H'|].
    apply SFltb_pos_cases in H. apply SFltb_pos_cases in H'. lia.
Qed.

(** ** Tests on lanes and kinds *)

Lemma Lane_eqb_eq (a b : Lane) : Lane_eqb a b = true <-> a = b.
Proof. destruct a, b; simpl; split; congruence. Qed.

Lemma inBasketLane_spec (g : GameEngine) (it : Item) :
  inBasketLane g it = true <-> lane it = Some (basketPosition g).
Proof.
  unfold inBasketLane. destruct (lane it) as [l|].
  - rewrite Lane_eqb_eq. split; congruence.
  - split; discriminate.
Qed.

(** The collectible kinds are the kinds other than Bomb. *)
Lemma collectible_spec (t : ItemType) : collectible t = true <-> t <> Bomb.
Proof.
  destruct t; cbn; split; intros H; try reflexivity; try discriminate.
  exfalso. apply H. reflexivity.
Qed.

(** ** The notification log *)

Lemma gameEnds_app (l1 l2 : list Notification) :
  gameEnds (l1 ++ l2) = (gameEnds l1 + gameEnds l2)%nat.
Proof.
  induction l1 as [|n l1 IH]; simpl; [reflexivity|].
  destruct n; simpl; rewrite IH; reflexivity.
Qed.

Lemma log_stop (reason : string) (w : World) :
  log (stop reason w) =
  log w
  ++ emit (eng w) OnEffectChange
       (EffectChange (hasShield (eng w)) false (isTimeSlowActive (eng w)))
  ++ emit (eng w) OnEffectChange (EffectChange (hasShield (eng w)) false false)
  ++ emit (eng w) OnGameEnd (GameEnd (score (eng w)) (level (eng w)) reason).
Proof. unfold stop, emit. cbn. rewrite <- !app_assoc. reflexivity. Qed.

(** ** Catch resolution *)

(** C2. Catching a Bomb with the Shield up consumes the Shield: the flag goes
    from true to false, the effect-change callback is called, the score and
    the active flag stay as they were.  Catching a Bomb without Shield is
    [stop("Bomb")]: the session becomes inactive and the game-end callback
    gets the reason "Bomb".  Catching any other kind leaves the active flag
    alone and calls no game-end callback. *)
Theorem handleCatch_Bomb_alone_ends_session (it : Item) (w : World) :
  (type it = Bomb -> hasShield (eng w) = true ->
     hasShield (eng (handleCatch it w)) = false
     /\ log (handleCatch it w) =
          log w ++ emit (eng w) OnEffectChange
                     (EffectChange false (isMagnetActive (eng w))
                                   (isTimeSlowActive (eng w)))
     /\ score (eng (handleCatch it w)) = score (eng w)
     /\ isGameActive (eng (handleCatch it w)) = isGameActive (eng w))
  /\ (type it = Bomb -> hasShield (eng w) = false ->
     handleCatch it w = stop "Bomb" w
     /\ isGameActive (eng (handleCatch it w)) = false
     /\ score (eng (handleCatch it w)) = score (eng w)
     /\ log (handleCatch it w) =
          log w
          ++ emit (eng w) OnEffectChange
               (EffectChange false false (isTimeSlowActive (eng w)))
          ++ emit (eng w) OnEffectChange (EffectChange false false false)
          ++ emit (eng w) OnGameEnd
               (GameEnd (score (eng w)) (level (eng w)) "Bomb"))
  /\ (type it <> Bomb ->
     isGameActive (eng (handleCatch it w)) = isGameActive (eng w)
     /\ gameEnds (log (handleCatch it w)) = gameEnds (log w)).
Proof.
  unfold handleCatch. split; [|split].
  - intros Ht Hs. rewrite Ht, Hs. repeat split.
  - intros Ht Hs. rewrite Ht, Hs. repeat split.
    rewrite log_stop, Hs. reflexivity.
  - intros Ht. split.
    + destruct (type it); try congruence; reflexivity.
    + destruct (type it); try congruence; cbn; rewrite gameEnds_app;
        unfold emit; cbn;
        match goal with |- context [if ?c then _ else _] => destruct c end;
        cbn; lia.
Qed.

(** ** The physics tick, item by item *)

(** The filter callback, for the item's position after the advance: the
    item is caught (catch handling, then the item-removed callback, item
    dropped) exactly when its position is strictly between 80 and 95 and
    either its lane is the basket lane or Magnet is active and the kind is
    not Bomb; otherwise a position above 100 drops it with the item-removed
    callback only, the engine untouched; otherwise it is kept and nothing
    happens. *)
Lemma keepItem_outcomes (it : Item) (w : World) :
  let caught :=
    (80 <? y it)%float = true /\ (y it <? 95)%float = true /\
    (lane it = Some (basketPosition (eng w)) \/
     (isMagnetActive (eng w) = true /\ type it <> Bomb)) in
  (caught ->
     keepItem it w =
     (false, notify OnItemRemove (ItemRemove (id it)) (handleCatch it w)))
  /\ (~ caught -> (100 <? y it)%float = true ->
     keepItem it w = (false, notify OnItemRemove (ItemRemove (id it)) w)
     /\ eng (snd (keepItem it w)) = eng w)
  /\ (~ caught -> (100 <? y it)%float = false -> keepItem it w = (true, w)).
Proof.
  intros caught. unfold keepItem. split; [|split].
  - intros (H80 & H95 & Hc).
    rewrite (below_95_not_above_100 _ H95), H80, H95. cbn.
    destruct Hc as [Hl | [Hm Ht]].
    + apply inBasketLane_spec in Hl. rewrite Hl.
      destruct (isMagnetActive (eng w) && collectible (type it)); reflexivity.
    + apply collectible_spec in Ht. rewrite Hm, Ht. reflexivity.
  - intros _ H100. rewrite H100. split; reflexivity.
  - intros Hn H100. rewrite H100.
    destruct ((80 <? y it)%float) eqn:H80; [|reflexivity].
    destruct ((y it <? 95)%float) eqn:H95; [|reflexivity]. cbn.
    destruct (isMagnetActive (eng w)) eqn:Hm;
      destruct (collectible (type it)) eqn:Hc; cbn;
      destruct (inBasketLane (eng w) it) eqn:Hl; try reflexivity;
      exfalso; apply Hn; repeat split; try reflexivity;
      try (left; apply inBasketLane_spec; assumption).
    right. split; [reflexivity | apply collectible_spec; assumption].
Qed.

(** The filter of a tick visits the items one after the other, each with the
    engine as the earlier visits left it. *)
Lemma filterItems_app (l1 l2 : list Item) (w : World) :
  filterItems (l1 ++ l2) w =
  (fst (filterItems l1 w) ++ fst (filterItems l2 (snd (filterItems l1 w))),
   snd (filterItems l2 (snd (filterItems l1 w)))).
Proof.
  revert w. induction l1 as [|it l1 IH]; intros w; cbn.
  - destruct (filterItems l2 w); reflexivity.
  - destruct (keepItem it w) as [keep w1]. rewrite IH.
    destruct (filterItems l1 w1) as [k1 w2]. cbn.
    destruct (filterItems l2 w2) as [k2 w3]. cbn.
    destruct keep; reflexivity.
Qed.

(** ** The countdown tick *)

Lemma countdownTick_unfold (w : World) :
  countdownTick w =
  let t := timeLimit (eng w) - 1 in
  let w1 := notify OnTimeUpdate (TimeUpdate t) (upd (set_timeLimit t) w) in
  let w2 :=
    if (t =? 40) || (t =? 20) then
      notify OnScoreChange (ScoreChange (score (eng w)) (level (eng w) + 1))
        (upd (fun g => set_baseSpeed (baseSpeed g + 0.1)%float g)
           (upd (fun g => set_level (level g + 1) g) w1))
    else w1 in
  if t <=? 0 then stop "Timeout" w2 else w2.
Proof.
  unfold countdownTick. cbv zeta.
  change (timeLimit (eng (notify OnTimeUpdate _ _))) with (timeLimit (eng w) - 1).
  destruct ((timeLimit (eng w) - 1 =? 40) || (timeLimit (eng w) - 1 =? 20));
    reflexivity.
Qed.

(** C4. One countdown tick: the remaining time goes down by one and the
    time-update callback gets the new value; the level goes up by one and the
    base speed by 0.1 exactly when the new remaining time is 40 or 20, and
    then the score-change callback gets the unchanged score with the new
    level; the score never changes; when the new remaining time is zero (or
    below) the tick ends in [stop("Timeout")]. *)
Theorem countdownTick_spec (w : World) :
  let g := eng w in
  let t := timeLimit g - 1 in
  let up := (t =? 40) || (t =? 20) in
  let w' := countdownTick w in
  timeLimit (eng w') = t
  /\ level (eng w') = (if up then level g + 1 else level g)
  /\ baseSpeed (eng w') = (if up then (baseSpeed g + 0.1)%float else baseSpeed g)
  /\ score (eng w') = score g
  /\ isGameActive (eng w') = (if t <=? 0 then false else isGameActive g)
  /\ log w' =
       log w
       ++ emit g OnTimeUpdate (TimeUpdate t)
       ++ (if up then emit g OnScoreChange (ScoreChange (score g) (level g + 1))
           else [])
       ++ (if t <=? 0 then
             emit g OnEffectChange
               (EffectChange (hasShield g) false (isTimeSlowActive g))
             ++ emit g OnEffectChange (EffectChange (hasShield g) false false)
             ++ emit g OnGameEnd
                  (GameEnd (score g) (if up then level g + 1 else level g)
                           "Timeout")
           else [])
  /\ ((t <=? 0) = true -> exists w1, w' = stop "Timeout" w1).
Proof.
  cbv zeta. rewrite countdownTick_unfold. cbv zeta.
  destruct ((timeLimit (eng w) - 1 =? 40) || (timeLimit (eng w) - 1 =? 20));
    destruct (timeLimit (eng w) - 1 <=? 0).
  - do 5 (split; [reflexivity|]). split; [|intros _; eexists; reflexivity].
    rewrite log_stop. cbn [log eng notify upd]. rewrite <- !app_assoc. reflexivity.
  - do 5 (split; [reflexivity|]). split; [|discriminate].
    cbn [log eng notify upd]. rewrite <- !app_assoc, app_nil_r. reflexivity.
  - do 5 (split; [reflexivity|]). split; [|intros _; eexists; reflexivity].
    rewrite log_stop. cbn [log eng notify upd]. rewrite <- !app_assoc. reflexivity.
  - do 5 (split; [reflexivity|]). split; [|discriminate].
    cbn [log eng notify upd]. rewrite app_nil_r. reflexivity.
Qed.

(** ** Score *)

Lemma score_handleCatch (it : Item) (w : World) :
  score (eng (handleCatch it w)) =
  score (eng w)
  + match type it with Apple => 100 | Banana => 200 | _ => 0 end.
Proof.
  unfold handleCatch.
  destruct (type it); try destruct (hasShield (eng w)); cbn; lia.
Qed.

Lemma level_handleCatch (it : Item) (w : World) :
  level (eng (handleCatch it w)) = level (eng w).
Proof.
  unfold handleCatch.
  destruct (type it); try destruct (hasShield (eng w)); reflexivity.
Qed.

(** ** Clearing timers *)

Lemma In_without (x : option positive) (ts : list Timer) (t : Timer) :
  In t (without x ts) <-> In t ts /\ x <> Some (handle t).
Proof.
  destruct x as [k|]; cbn.
  - rewrite filter_In, negb_true_iff, Pos.eqb_neq.
    split; intros [H1 H2]; split; try assumption; congruence.
  - split; [intros H; split; [assumption | discriminate] | intros [H _]; exact H].
Qed.

Lemma without_Forall (P : Timer -> Prop) (x : option positive) (ts : list Timer) :
  Forall P ts -> Forall P (without x ts).
Proof.
  rewrite !Forall_forall. intros H t Ht. apply In_without in Ht. apply H, Ht.
Qed.

Lemma without_clean (x : option positive) (ts : list Timer) :
  Forall (fun t => x <> Some (handle t)) (without x ts).
Proof. apply Forall_forall. intros t Ht. apply In_without in Ht. apply Ht. Qed.

Lemma without_fixed (x : option positive) (ts : list Timer) :
  Forall (fun t => x <> Some (handle t)) ts -> without x ts = ts.
Proof.
  destruct x as [k|]; cbn; [|reflexivity].
  induction 1 as [|t ts Ht _ IH]; cbn; [reflexivity|].
  destruct (Pos.eqb_spec (handle t) k) as [E|E]; cbn.
  - exfalso. apply Ht. rewrite E. reflexivity.
  - rewrite IH. reflexivity.
Qed.

Lemma filter_fixed {A : Type} (p : A -> bool) (l : list A) :
  Forall (fun a => p a = true) l -> filter p l = l.
Proof.
  induction 1 as [|a l Ha _ IH]; cbn; [reflexivity|]. rewrite Ha, IH. reflexivity.
Qed.


Lemma Host_ext (h1 h2 : Host) :
  now h1 = now h2 -> timers h1 = timers h2 -> nextTimer h1 = nextTimer h2 ->
  frames h1 = frames h2 -> nextFrame h1 = nextFrame h2 ->
  entropy h1 = entropy h2 -> draws h1 = draws h2 -> h1 = h2.
Proof. destruct h1, h2; cbn; intros; subst; reflexivity. Qed.

(** ** [stop] *)

Lemma eng_stop (reason : string) (w : World) :
  eng (stop reason w) =
  set_isTimeSlowActive false
    (set_isMagnetActive false (set_isGameActive false (eng w))).
Proof. reflexivity. Qed.

Lemma timers_stop (reason : string) (w : World) :
  timers (host (stop reason w)) =
  without (timeSlowTimer (eng w))
    (without (magnetTimer (eng w))
       (without (spawnTimer (eng w))
          (without (gameTimer (eng w)) (timers (host w))))).
Proof. reflexivity. Qed.

(** C1, as the code has it.  [stop] has no guard: a call on a session that is
    already stopped goes through the same statements again.  The engine's
    fields and the browser's timers and frames end up as the first call left
    them, but the callbacks are called again: two effect-change
    notifications and one more game-end notification, with the reason of
    the second call. *)
Theorem stop_again (r1 r2 : string) (w : World) :
  let w1 := stop r1 w in
  let w2 := stop r2 w1 in
  isGameActive (eng w1) = false
  /\ eng w2 = eng w1
  /\ host w2 = host w1
  /\ log w2 =
       log w1
       ++ emit (eng w) OnEffectChange (EffectChange (hasShield (eng w)) false false)
       ++ emit (eng w) OnEffectChange (EffectChange (hasShield (eng w)) false false)
       ++ emit (eng w) OnGameEnd (GameEnd (score (eng w)) (level (eng w)) r2)
  /\ gameEnds (log w2) =
       (gameEnds (log w1) + if callbacks (eng w) OnGameEnd then 1 else 0)%nat.
Proof.
  cbv zeta. split; [reflexivity|]. split; [reflexivity|]. split; [|split].
  - apply Host_ext; try reflexivity.
    + rewrite (timers_stop r2 (stop r1 w)). cbn [eng stop upd]. cbn.
      remember (timers (host (stop r1 w))) as T1 eqn:E.
      rewrite (timers_stop r1 w) in E.
      assert (Hg : Forall (fun t => gameTimer (eng w) <> Some (handle t)) T1)
        by (rewrite E; do 3 apply without_Forall; apply without_clean).
      assert (Hs : Forall (fun t => spawnTimer (eng w) <> Some (handle t)) T1)
        by (rewrite E; do 2 apply without_Forall; apply without_clean).
      assert (Hm : Forall (fun t => magnetTimer (eng w) <> Some (handle t)) T1)
        by (rewrite E; apply without_Forall; apply without_clean).
      assert (Ht : Forall (fun t => timeSlowTimer (eng w) <> Some (handle t)) T1)
        by (rewrite E; apply without_clean).
      rewrite <- E.
      rewrite (without_fixed _ T1 Hg), (without_fixed _ T1 Hs),
        (without_fixed _ T1 Hm), (without_fixed _ T1 Ht).
      reflexivity.
    + cbn. destruct (gameLoopId (eng w)) as [k|]; [|reflexivity].
      apply filter_fixed, Forall_forall. intros f Hf.
      apply filter_In in Hf. apply Hf.
  - rewrite (log_stop r2 (stop r1 w)). reflexivity.
  - rewrite (log_stop r2 (stop r1 w)), !gameEnds_app. cbn. unfold emit. cbn.
    destruct (callbacks (eng w) OnEffectChange), (callbacks (eng w) OnGameEnd);
      cbn; lia.
Qed.

(** C1, as the claim has it, fails: a session that is started and then
    stopped twice gets two game-end notifications. *)
Lemma stop_twice_two_game_ends :
  gameEnds
    (log (run [CallSetter OnGameEnd true; CallStart (Some 60);
               CallStop None; CallStop None]
              (boot (fun _ => 0.5%float) 0))) = 2%nat.
Proof. vm_compute. reflexivity. Qed.

(** ** The timer table of a reachable engine *)

Lemma Task_eqb_eq (a b : Task) : Task_eqb a b = true <-> a = b.
Proof. destruct a, b; cbn; split; congruence. Qed.

Lemma pending_nil (t : Task) (w : World) : absent t w -> pending t w = [].
Proof.
  unfold absent, pending. induction 1 as [|x l Hx _ IH]; cbn; [reflexivity|].
  destruct (Task_eqb (task x) t) eqn:E; [|exact IH].
  apply Task_eqb_eq in E. contradiction.
Qed.

(** Dropping timers keeps the handles distinct. *)
Lemma NoDup_handles_filter (keep : Timer -> bool) (ts : list Timer) :
  NoDup (map handle ts) -> NoDup (map handle (filter keep ts)).
Proof.
  induction ts as [|t ts IH]; cbn; intros H; [constructor|].
  inversion H as [|? ? Hn Hl]; subst.
  destruct (keep t); cbn; [constructor|]; auto.
  intros Hin. apply Hn. apply in_map_iff in Hin. destruct Hin as (x & Hx & Hi).
  apply in_map_iff. exists x. split; [exact Hx|]. apply filter_In in Hi. apply Hi.
Qed.

Lemma NoDup_without (x : option positive) (ts : list Timer) :
  NoDup (map handle ts) -> NoDup (map handle (without x ts)).
Proof. destruct x; cbn; [apply NoDup_handles_filter | trivial]. Qed.

Lemma tidy_ext (g g' : GameEngine) (next next' : positive) (t : Timer) :
  (forall k, owner k g' = owner k g) -> (next <= next')%positive ->
  tidy g next t -> tidy g' next' t.
Proof.
  intros Ho Hn (H1 & H2 & H3). repeat split; [lia | rewrite Ho; exact H2 | exact H3].
Qed.

Lemma Inv0_same (w w' : World) :
  timers (host w') = timers (host w) ->
  nextTimer (host w') = nextTimer (host w) ->
  (forall k, owner k (eng w') = owner k (eng w)) ->
  Inv0 w -> Inv0 w'.
Proof.
  unfold Inv0. intros -> -> Ho [Hd Ht]. split; [exact Hd|].
  eapply Forall_impl; [|exact Ht]. intros t. apply tidy_ext; [exact Ho | lia].
Qed.

Lemma Inv_same (w w' : World) :
  timers (host w') = timers (host w) ->
  nextTimer (host w') = nextTimer (host w) ->
  (forall k, owner k (eng w') = owner k (eng w)) ->
  isGameActive (eng w') = isGameActive (eng w) ->
  Inv w -> Inv w'.
Proof.
  intros Ht Hn Ho Ha [H0 Hq]. split; [apply (Inv0_same w); assumption|].
  unfold absent. rewrite Ht, Ha. exact Hq.
Qed.


Lemma Inv0_clearTimer (x : option positive) (w : World) :
  Inv0 w -> Inv0 (clearTimer x w).
Proof.
  intros [Hd Ht]. split; cbn.
  - apply NoDup_without, Hd.
  - apply without_Forall, Ht.
Qed.

Lemma absent_clearTimer (t : Task) (x : option positive) (w : World) :
  absent t w -> absent t (clearTimer x w).
Proof. unfold absent. cbn. apply without_Forall. Qed.

Lemma Inv_clearTimer (x : option positive) (w : World) :
  Inv w -> Inv (clearTimer x w).
Proof.
  intros [H0 Hq]. split; [apply Inv0_clearTimer, H0|].
  intros Ha. destruct (Hq Ha). split; apply absent_clearTimer; assumption.
Qed.

(** Clearing the handle an engine field remembers clears every timer of that
    task. *)
Lemma absent_clear_owner (t : Task) (w : World) :
  Inv0 w -> absent t (clearTimer (owner t (eng w)) w).
Proof.
  intros [_ Ht]. unfold absent. cbn. apply Forall_forall. intros x Hx.
  apply In_without in Hx. destruct Hx as [Hin Hne].
  rewrite Forall_forall in Ht. destruct (Ht x Hin) as (_ & Ho & _).
  intros E. apply Hne. rewrite <- E. exact Ho.
Qed.

(** Registering a new timer for a task that has none pending. *)
Lemma Inv0_addTimer (t : Task) (d : Z) (w w' : World) :
  timers (host w') =
    timers (host w)
    ++ [mkTimer (nextTimer (host w)) t d
          match t with CountdownTick => Some 1000 | _ => None end] ->
  nextTimer (host w') = Pos.succ (nextTimer (host w)) ->
  owner t (eng w') = Some (nextTimer (host w)) ->
  (forall k, k <> t -> owner k (eng w') = owner k (eng w)) ->
  absent t w -> Inv0 w -> Inv0 w'.
Proof.
  intros Ht Hn Ho Hk Habs [Hd Hf]. unfold Inv0. rewrite Ht, Hn. split.
  - rewrite map_app. cbn. apply NoDup_app; [exact Hd | repeat constructor; auto | ].
    intros k Hin [E|[]]. subst k. apply in_map_iff in Hin.
    destruct Hin as (x & Hx & Hin). rewrite Forall_forall in Hf.
    destruct (Hf x Hin) as (Hlt & _). lia.
  - apply Forall_app. split.
    + unfold absent in Habs. rewrite Forall_forall in *. intros x Hin.
      destruct (Hf x Hin) as (H1 & H2 & H3). repeat split; [lia | | exact H3].
      rewrite Hk; [exact H2 | apply (Habs x Hin)].
    + repeat constructor; cbn; [lia | exact Ho].
Qed.

Lemma absent_addTimer (t k : Task) (tm : Timer) (w w' : World) :
  timers (host w') = timers (host w) ++ [tm] -> task tm <> k ->
  absent k w -> absent k w'.
Proof.
  unfold absent. intros -> Hne H. apply Forall_app. split; [exact H|].
  repeat constructor. exact Hne.
Qed.

(** Steps that leave the timer table alone. *)

Lemma Inv0_upd (f : GameEngine -> GameEngine) (w : World) :
  (forall k g, owner k (f g) = owner k g) -> Inv0 w -> Inv0 (upd f w).
Proof. intros Hf. apply Inv0_same; try reflexivity. intros k. apply Hf. Qed.

Lemma Inv0_notify (s : Slot) (n : Notification) (w : World) :
  Inv0 w -> Inv0 (notify s n w).
Proof. apply Inv0_same; reflexivity. Qed.

Lemma Inv0_cancelAnimationFrame (x : option positive) (w : World) :
  Inv0 w -> Inv0 (cancelAnimationFrame x w).
Proof. apply Inv0_same; reflexivity. Qed.

Lemma absent_same (k : Task) (w w' : World) :
  timers (host w') = timers (host w) -> absent k w -> absent k w'.
Proof. unfold absent. intros ->. trivial. Qed.

Lemma absent_upd (k : Task) (f : GameEngine -> GameEngine) (w : World) :
  absent k w -> absent k (upd f w).
Proof. apply absent_same. reflexivity. Qed.

Lemma absent_notify (k : Task) (s : Slot) (n : Notification) (w : World) :
  absent k w -> absent k (notify s n w).
Proof. apply absent_same. reflexivity. Qed.

Lemma absent_cancelAnimationFrame (k : Task) (x : option positive) (w : World) :
  absent k w -> absent k (cancelAnimationFrame x w).
Proof. apply absent_same. reflexivity. Qed.

Ltac owner_kept := let k := fresh in let g := fresh in intros k g; destruct k; reflexivity.

(** Peels the statements of a method that cannot break the bookkeeping. *)
Ltac peel :=
  repeat first
    [ assumption
    | apply Inv0_notify
    | apply Inv0_clearTimer
    | apply Inv0_cancelAnimationFrame
    | apply Inv0_upd; [owner_kept|]
    | apply absent_notify
    | apply absent_clearTimer
    | apply absent_cancelAnimationFrame
    | apply absent_upd ].

(** The effect methods. *)

Lemma Inv0_disableMagnet (w : World) : Inv0 w -> Inv0 (disableMagnet w).
Proof. intros H. unfold disableMagnet, notifyEffects. cbv zeta. peel. Qed.

Lemma Inv0_disableTimeSlow (w : World) : Inv0 w -> Inv0 (disableTimeSlow w).
Proof. intros H. unfold disableTimeSlow, notifyEffects. cbv zeta. peel. Qed.

Lemma absent_disableMagnet (k : Task) (w : World) :
  absent k w -> absent k (disableMagnet w).
Proof. intros H. unfold disableMagnet, notifyEffects. cbv zeta. peel. Qed.

Lemma absent_disableTimeSlow (k : Task) (w : World) :
  absent k w -> absent k (disableTimeSlow w).
Proof. intros H. unfold disableTimeSlow, notifyEffects. cbv zeta. peel. Qed.

Lemma Inv0_activateMagnet (w : World) : Inv0 w -> Inv0 (activateMagnet w).
Proof.
  intros H.
  set (w0 := notifyEffects (upd (set_isMagnetActive true) w)).
  assert (H0 : Inv0 w0) by (subst w0; unfold notifyEffects; peel).
  pose proof (absent_clear_owner MagnetExpiry w0 H0) as Ha.
  apply Inv0_clearTimer with (x := owner MagnetExpiry (eng w0)) in H0.
  revert Ha H0. apply Inv0_addTimer with (d := now (host w) + 5000);
    try reflexivity.
  intros k Hk. destruct k; try reflexivity. congruence.
Qed.

Lemma Inv0_activateTimeSlow (w : World) : Inv0 w -> Inv0 (activateTimeSlow w).
Proof.
  intros H.
  set (w0 := notifyEffects (upd (set_isTimeSlowActive true) w)).
  assert (H0 : Inv0 w0) by (subst w0; unfold notifyEffects; peel).
  pose proof (absent_clear_owner TimeSlowExpiry w0 H0) as Ha.
  apply Inv0_clearTimer with (x := owner TimeSlowExpiry (eng w0)) in H0.
  revert Ha H0. apply Inv0_addTimer with (d := now (host w) + 5000);
    try reflexivity.
  intros k Hk. destruct k; try reflexivity. congruence.
Qed.

Lemma absent_activateMagnet (k : Task) (w : World) :
  k <> MagnetExpiry -> absent k w -> absent k (activateMagnet w).
Proof.
  intros Hk H.
  apply absent_clearTimer with (x := magnetTimer (eng w)) in H.
  revert H. apply absent_addTimer with
    (tm := mkTimer (nextTimer (host w)) MagnetExpiry (now (host w) + 5000) None);
    first [reflexivity | cbn; congruence].
Qed.

Lemma absent_activateTimeSlow (k : Task) (w : World) :
  k <> TimeSlowExpiry -> absent k w -> absent k (activateTimeSlow w).
Proof.
  intros Hk H.
  apply absent_clearTimer with (x := timeSlowTimer (eng w)) in H.
  revert H. apply absent_addTimer with
    (tm := mkTimer (nextTimer (host w)) TimeSlowExpiry (now (host w) + 5000) None);
    first [reflexivity | cbn; congruence].
Qed.

(** [stop] leaves a tidy table without countdown and spawn timers. *)
Lemma Inv_stop (reason : string) (w : World) : Inv0 w -> Inv (stop reason w).
Proof.
  intros H. unfold stop. cbv zeta.
  set (w1 := upd (set_isGameActive false) w).
  assert (H1 : Inv0 w1) by (subst w1; peel).
  set (w2 := clearTimer (gameTimer (eng w1)) w1).
  assert (H2 : Inv0 w2) by (subst w2; peel).
  assert (A2 : absent CountdownTick w2)
    by apply (absent_clear_owner CountdownTick w1 H1).
  set (w3 := clearTimer (spawnTimer (eng w2)) w2).
  assert (H3 : Inv0 w3) by (subst w3; peel).
  assert (A3 : absent SpawnTick w3)
    by apply (absent_clear_owner SpawnTick w2 H2).
  assert (A3' : absent CountdownTick w3) by (subst w3; peel).
  split; [|intros _; split].
  - apply Inv0_notify, Inv0_disableTimeSlow, Inv0_disableMagnet. peel.
  - apply absent_notify, absent_disableTimeSlow, absent_disableMagnet. peel.
  - apply absent_notify, absent_disableTimeSlow, absent_disableMagnet. peel.
Qed.

Lemma Inv_keep (w w' : World) :
  Inv0 w' -> isGameActive (eng w') = isGameActive (eng w) ->
  (forall k, k = CountdownTick \/ k = SpawnTick -> absent k w -> absent k w') ->
  Inv w -> Inv w'.
Proof.
  intros H0 Ha Hk [_ Hq]. split; [exact H0|]. rewrite Ha. intros Hf.
  destruct (Hq Hf). split; apply Hk; auto.
Qed.

Lemma Inv_handleCatch (it : Item) (w : World) : Inv w -> Inv (handleCatch it w).
Proof.
  intros H. pose proof H as [H0 _]. unfold handleCatch.
  destruct (type it).
  - apply (Inv_keep w); trivial; unfold addScore; cbv zeta; intros; peel.
  - apply (Inv_keep w); trivial; unfold addScore; cbv zeta; intros; peel.
  - destruct (hasShield (eng w)).
    + apply (Inv_keep w); trivial; unfold notifyEffects; cbv zeta; intros; peel.
    + apply Inv_stop, H0.
  - apply (Inv_keep w); trivial; unfold notifyEffects; cbv zeta; intros; peel.
  - apply (Inv_keep w); trivial.
    + apply Inv0_activateMagnet, H0.
    + intros k [-> | ->]; apply absent_activateMagnet; discriminate.
  - apply (Inv_keep w); trivial.
    + apply Inv0_activateTimeSlow, H0.
    + intros k [-> | ->]; apply absent_activateTimeSlow; discriminate.
Qed.

Lemma Inv_notify (s : Slot) (n : Notification) (w : World) :
  Inv w -> Inv (notify s n w).
Proof. apply Inv_same; reflexivity. Qed.

Lemma Inv_keepItem (it : Item) (w : World) : Inv w -> Inv (snd (keepItem it w)).
Proof.
  intros H. unfold keepItem.
  destruct (100 <? y it)%float; [apply Inv_notify, H|].
  destruct ((80 <? y it)%float && (y it <? 95)%float); [|exact H].
  cbv zeta.
  destruct (isMagnetActive (eng w) && collectible (type it));
    [apply Inv_notify, Inv_handleCatch, H|].
  destruct (inBasketLane (eng w) it);
    [apply Inv_notify, Inv_handleCatch, H | exact H].
Qed.

Lemma Inv_filterItems (its : list Item) (w : World) :
  Inv w -> Inv (snd (filterItems its w)).
Proof.
  revert w. induction its as [|it its IH]; intros w H; cbn; [exact H|].
  pose proof (Inv_keepItem it w H) as H1.
  destruct (keepItem it w) as [keep w1]. cbn in H1.
  specialize (IH w1 H1). destruct (filterItems its w1) as [kept w2]. exact IH.
Qed.

Lemma Inv_updatePhysics (w : World) : Inv w -> Inv (updatePhysics w).
Proof.
  intros H. unfold updatePhysics. cbv zeta.
  set (w1 := upd _ w).
  assert (H1 : Inv w1)
    by (apply (Inv_same w); try reflexivity; try (intros []; reflexivity); exact H).
  pose proof (Inv_filterItems (items (eng w1)) w1 H1) as H2.
  destruct (filterItems (items (eng w1)) w1) as [kept w2]. cbn in H2.
  apply Inv_notify. revert H2.
  apply Inv_same; try reflexivity; intros []; reflexivity.
Qed.

Lemma Inv_loop (w : World) : Inv w -> Inv (loop w).
Proof.
  intros H. unfold loop. destruct (isGameActive (eng w)); cbn [negb]; [|exact H].
  apply Inv_updatePhysics in H. revert H.
  apply Inv_same; try reflexivity; intros []; reflexivity.
Qed.

Lemma Inv_countdownTick (w : World) : Inv w -> Inv (countdownTick w).
Proof.
  intros H. unfold countdownTick. cbv zeta.
  match goal with |- Inv (if ?c then stop _ ?x else _) =>
    assert (Hx : Inv x); [|destruct c; [apply Inv_stop, Hx | exact Hx]] end.
  match goal with |- context [if ?c then _ else _] => destruct c end;
    (apply (Inv_same w); try reflexivity; try (intros []; reflexivity);
     exact H).
Qed.

Lemma timers_spawnItem (w : World) :
  timers (host (spawnItem w)) = timers (host w)
  /\ nextTimer (host (spawnItem w)) = nextTimer (host w)
  /\ (forall k, owner k (eng (spawnItem w)) = owner k (eng w))
  /\ isGameActive (eng (spawnItem w)) = isGameActive (eng w)
  /\ now (host (spawnItem w)) = now (host w)
  /\ level (eng (spawnItem w)) = level (eng w).
Proof.
  unfold spawnItem. cbn.
  destruct (itemProbabilities _) as [ty pts]. repeat split.
Qed.

Lemma Inv_spawn (w : World) : Inv w -> absent SpawnTick w -> Inv (spawn w).
Proof.
  intros H Ha. unfold spawn.
  destruct (isGameActive (eng w)) eqn:Hact; cbn [negb]; [|exact H].
  destruct (timers_spawnItem w) as (Et & En & Eo & Eact & Enow & Elv).
  split;
    [|intros Hf; change (isGameActive (eng (spawnItem w)) = false) in Hf;
      congruence].
  apply (Inv0_addTimer SpawnTick
           (now (host (spawnItem w))
            + (if 2000 - level (eng (spawnItem w)) * 200 <? 800 then 800
               else 2000 - level (eng (spawnItem w)) * 200))
           (spawnItem w)); try reflexivity.
  - intros k Hk. destruct k; try reflexivity. congruence.
  - revert Ha. apply absent_same. exact Et.
  - destruct H as [H0 _]. revert H0. apply Inv0_same; auto.
Qed.

Lemma Inv_disableMagnet (w : World) : Inv w -> Inv (disableMagnet w).
Proof.
  intros H. apply (Inv_keep w); trivial.
  - apply Inv0_disableMagnet, H.
  - intros k _. apply absent_disableMagnet.
Qed.

Lemma Inv_disableTimeSlow (w : World) : Inv w -> Inv (disableTimeSlow w).
Proof.
  intros H. apply (Inv_keep w); trivial.
  - apply Inv0_disableTimeSlow, H.
  - intros k _. apply absent_disableTimeSlow.
Qed.

Lemma Inv0_startTimer (w : World) :
  Inv0 w -> absent CountdownTick w -> Inv0 (startTimer w).
Proof.
  intros H Ha. revert Ha H.
  apply Inv0_addTimer with (d := now (host w) + 1000); try reflexivity.
  intros k Hk. destruct k; try reflexivity. congruence.
Qed.

Lemma absent_startTimer (k : Task) (w : World) :
  k <> CountdownTick -> absent k w -> absent k (startTimer w).
Proof.
  intros Hk. apply absent_addTimer with
    (tm := mkTimer (nextTimer (host w)) CountdownTick (now (host w) + 1000)
                   (Some 1000));
    first [reflexivity | cbn; congruence].
Qed.

Lemma Inv_startGameLoop (w : World) : Inv w -> Inv (startGameLoop w).
Proof. apply Inv_same; try reflexivity; intros []; reflexivity. Qed.

Lemma Inv_start (c : option Z) (w : World) : Inv w -> Inv (start c w).
Proof.
  intros H. unfold start.
  destruct (isGameActive (eng w)) eqn:Hact; [exact H|].
  destruct H as [H0 Hq]. destruct (Hq Hact) as [Hc Hs]. cbv zeta.
  apply Inv_startGameLoop. unfold startSpawning. apply Inv_spawn.
  - split.
    + apply Inv0_startTimer; unfold notifyEffects.
      * apply Inv0_notify, Inv0_disableTimeSlow, Inv0_disableMagnet. peel.
      * apply absent_notify, absent_disableTimeSlow, absent_disableMagnet. peel.
    + intros Hf. discriminate Hf.
  - apply absent_startTimer; [discriminate|]. unfold notifyEffects.
    apply absent_notify, absent_disableTimeSlow, absent_disableMagnet. peel.
Qed.

(** Re-arming an interval changes neither handles nor tasks. *)
Lemma Inv_rearm (f : Timer -> Timer) (w w' : World) :
  timers (host w') = map f (timers (host w)) ->
  (forall t, handle (f t) = handle t /\ task (f t) = task t
             /\ period (f t) = period t) ->
  nextTimer (host w') = nextTimer (host w) ->
  eng w' = eng w ->
  Inv w -> Inv w'.
Proof.
  intros Et Hf En Ee [[Hd Ht] Hq]. unfold Inv, Inv0, absent.
  rewrite Et, En, Ee. repeat split.
  - rewrite map_map. erewrite map_ext; [exact Hd|]. intros t. apply Hf.
  - apply Forall_map. eapply Forall_impl; [|exact Ht].
    intros t (H1 & H2 & H3). destruct (Hf t) as (F1 & F2 & F3).
    unfold tidy. rewrite F1, F2, F3. auto.
  - apply Forall_map. destruct (Hq H) as [Hc _].
    eapply Forall_impl; [|exact Hc]. intros t. destruct (Hf t) as (_ & -> & _).
    trivial.
  - apply Forall_map. destruct (Hq H) as [_ Hs].
    eapply Forall_impl; [|exact Hs]. intros t. destruct (Hf t) as (_ & -> & _).
    trivial.
Qed.

Lemma Inv_fireTimer (k : positive) (w : World) : Inv w -> Inv (fireTimer k w).
Proof.
  intros H. unfold fireTimer.
  destruct (find _ (timers (host w))) as [t|] eqn:Hfind; [|exact H].
  apply find_some in Hfind. destruct Hfind as [Hin Hk].
  apply Pos.eqb_eq in Hk.
  destruct (due t <=? now (host w)); [|exact H].
  pose proof H as [[_ Ht] _]. rewrite Forall_forall in Ht.
  destruct (Ht t Hin) as (_ & Ho & Hp). rewrite Hk in Ho.
  destruct (period t) as [p|] eqn:Ep.
  - assert (task t = CountdownTick) as -> by (destruct (task t); congruence).
    apply Inv_countdownTick. revert H.
    apply Inv_rearm with
      (f := fun t' => if Pos.eqb (handle t') k
                      then mkTimer k (task t') (now (host w) + p) (period t')
                      else t'); try reflexivity.
    intros t'. destruct (Pos.eqb_spec (handle t') k) as [E|E]; cbn; auto.
  - assert (Ha : absent (task t) (clearTimer (Some k) w))
      by (rewrite <- Ho; apply absent_clear_owner, H).
    apply (Inv_clearTimer (Some k)) in H.
    destruct (task t); cbn.
    + apply Inv_countdownTick, H.
    + apply Inv_spawn; assumption.
    + apply Inv_disableMagnet, H.
    + apply Inv_disableTimeSlow, H.
Qed.

Lemma Inv_fireFrame (k : positive) (w : World) : Inv w -> Inv (fireFrame k w).
Proof.
  intros H. unfold fireFrame. destruct (existsb _ _); [|exact H].
  apply Inv_loop. revert H. apply Inv_same; try reflexivity.
Qed.

Lemma Inv_step (a : Action) (w : World) : Inv w -> Inv (step a w).
Proof.
  intros H. destruct a as [c|r|p|s b|k|k|dt]; cbn.
  - apply Inv_start, H.
  - apply Inv_stop, H.
  - unfold onPoseDetected. destruct (isGameActive (eng w)); cbn; [|exact H].
    destruct (Lane_of_string p); [|exact H].
    revert H. apply Inv_same; try reflexivity.
  - revert H. apply Inv_same; try reflexivity.
  - apply Inv_fireTimer, H.
  - apply Inv_fireFrame, H.
  - revert H. apply Inv_same; try reflexivity.
Qed.

Lemma Inv_boot (rnd : nat -> float) (t0 : Z) : Inv (boot rnd t0).
Proof. repeat split; constructor. Qed.

(** Every reachable engine keeps its timer table tidy. *)
Lemma reachable_Inv (w : World) : reachable w -> Inv w.
Proof.
  induction 1 as [rnd t0 | a w _ IH]; [apply Inv_boot | apply Inv_step, IH].
Qed.

Lemma reachable_run (acts : list Action) (w : World) :
  reachable w -> reachable (run acts w).
Proof.
  revert w. induction acts as [|a acts IH]; intros w H; cbn; [exact H|].
  apply IH. constructor. exact H.
Qed.

(** ** Timed effects *)

Lemma pending_owner (t : Task) (w : World) :
  Inv0 w ->
  Forall (fun x => owner t (eng w) = Some (handle x)) (pending t w).
Proof.
  intros [_ Ht]. unfold pending. apply Forall_forall. intros x Hx.
  apply filter_In in Hx. destruct Hx as [Hin Hk]. apply Task_eqb_eq in Hk.
  rewrite Forall_forall in Ht. destruct (Ht x Hin) as (_ & Ho & _).
  rewrite <- Hk. exact Ho.
Qed.

Lemma pending_at_most_one (t : Task) (w : World) :
  Inv0 w -> (List.length (pending t w) <= 1)%nat.
Proof.
  intros H. pose proof (pending_owner t w H) as Ho. destruct H as [Hd _].
  apply (NoDup_handles_filter (fun x => Task_eqb (task x) t)) in Hd.
  fold (pending t w) in Hd.
  destruct (pending t w) as [|a [|b l]]; cbn; try lia.
  exfalso. inversion Ho as [|? ? Ha Ho']; subst.
  inversion Ho' as [|? ? Hb _]; subst.
  inversion Hd as [|? ? Hn _]; subst. apply Hn. left. congruence.
Qed.

Lemma pending_activateMagnet (w : World) :
  Inv0 w ->
  pending MagnetExpiry (activateMagnet w) =
  [mkTimer (nextTimer (host w)) MagnetExpiry (now (host w) + 5000) None].
Proof.
  intros H. unfold pending.
  change (timers (host (activateMagnet w)))
    with (timers (host (clearTimer (owner MagnetExpiry (eng w)) w))
          ++ [mkTimer (nextTimer (host w)) MagnetExpiry (now (host w) + 5000) None]).
  rewrite filter_app.
  fold (pending MagnetExpiry (clearTimer (owner MagnetExpiry (eng w)) w)).
  rewrite (pending_nil _ _ (absent_clear_owner MagnetExpiry w H)). reflexivity.
Qed.

Lemma pending_activateTimeSlow (w : World) :
  Inv0 w ->
  pending TimeSlowExpiry (activateTimeSlow w) =
  [mkTimer (nextTimer (host w)) TimeSlowExpiry (now (host w) + 5000) None].
Proof.
  intros H. unfold pending.
  change (timers (host (activateTimeSlow w)))
    with (timers (host (clearTimer (owner TimeSlowExpiry (eng w)) w))
          ++ [mkTimer (nextTimer (host w)) TimeSlowExpiry (now (host w) + 5000) None]).
  rewrite filter_app.
  fold (pending TimeSlowExpiry (clearTimer (owner TimeSlowExpiry (eng w)) w)).
  rewrite (pending_nil _ _ (absent_clear_owner TimeSlowExpiry w H)). reflexivity.
Qed.

(** A timer that was just set does not run before its delay has passed. *)
Lemma timer_waits (k : positive) (tm : Timer) (l : list Timer) (dt : N)
    (w : World) :
  timers (host w) = l ++ [tm] ->
  Forall (fun x => (handle x < k)%positive) l ->
  handle tm = k ->
  now (host w) + Z.of_N dt < due tm ->
  fireTimer k (elapse dt w) = elapse dt w.
Proof.
  intros Et Hlt Hk Hdue. unfold fireTimer.
  change (timers (host (elapse dt w))) with (timers (host w)).
  change (now (host (elapse dt w))) with (now (host w) + Z.of_N dt).
  rewrite Et.
  assert (Hfind : find (fun x => Pos.eqb (handle x) k) (l ++ [tm]) = Some tm).
  { clear Et. induction Hlt as [|x l Hx _ IH]; cbn.
    - rewrite Hk, Pos.eqb_refl. reflexivity.
    - destruct (Pos.eqb_spec (handle x) k); [lia | exact IH]. }
  rewrite Hfind.
  destruct (Z.leb_spec (due tm) (now (host w) + Z.of_N dt));
    [lia | reflexivity].
Qed.

Lemma handles_below_next (x : option positive) (w : World) :
  Inv0 w ->
  Forall (fun t => (handle t < nextTimer (host w))%positive)
         (without x (timers (host w))).
Proof.
  intros [_ Ht]. apply without_Forall. eapply Forall_impl; [|exact Ht].
  intros t Hx. apply Hx.
Qed.

(** C7. Whenever the timer table is tidy (as it is in every reachable state,
    [reachable_Inv], and between the statements of a tick), there is at most
    one pending Magnet expiry and at most one pending TimeSlow expiry.
    Catching a Magnet item, whether Magnet was active or not, leaves the flag
    true, calls the effect-change callback once with Magnet shown active, and
    leaves exactly one pending Magnet expiry: a new timeout due a full
    5000 ms from now, which therefore does not run earlier.  Catching a Time item does the same for TimeSlow. *)
Theorem timed_effect_single_expiry (w : World) (it : Item) :
  Inv w ->
  ((List.length (pending MagnetExpiry w) <= 1)%nat
   /\ (List.length (pending TimeSlowExpiry w) <= 1)%nat)
  /\ (type it = Magnet ->
      let w' := handleCatch it w in
      isMagnetActive (eng w') = true
      /\ log w' =
           log w ++ emit (eng w) OnEffectChange
                      (EffectChange (hasShield (eng w)) true
                                    (isTimeSlowActive (eng w)))
      /\ pending MagnetExpiry w' =
           [mkTimer (nextTimer (host w)) MagnetExpiry (now (host w) + 5000) None]
      /\ (forall dt, Z.of_N dt < 5000 ->
            fireTimer (nextTimer (host w)) (elapse dt w') = elapse dt w'))
  /\ (type it = Time ->
      let w' := handleCatch it w in
      isTimeSlowActive (eng w') = true
      /\ log w' =
           log w ++ emit (eng w) OnEffectChange
                      (EffectChange (hasShield (eng w))
                                    (isMagnetActive (eng w)) true)
      /\ pending TimeSlowExpiry w' =
           [mkTimer (nextTimer (host w)) TimeSlowExpiry (now (host w) + 5000) None]
      /\ (forall dt, Z.of_N dt < 5000 ->
            fireTimer (nextTimer (host w)) (elapse dt w') = elapse dt w')).
Proof.
  intros [H0 _]. split; [split; apply pending_at_most_one, H0|].
  split; intros Ht; unfold handleCatch; rewrite Ht; cbv zeta.
  - split; [reflexivity|]. split; [reflexivity|].
    split; [apply pending_activateMagnet, H0|].
    intros dt Hdt.
    apply timer_waits with
      (tm := mkTimer (nextTimer (host w)) MagnetExpiry (now (host w) + 5000) None)
      (l := without (magnetTimer (eng w)) (timers (host w)));
      try reflexivity.
    + apply handles_below_next, H0.
    + cbn. lia.
  - split; [reflexivity|]. split; [reflexivity|].
    split; [apply pending_activateTimeSlow, H0|].
    intros dt Hdt.
    apply timer_waits with
      (tm := mkTimer (nextTimer (host w)) TimeSlowExpiry (now (host w) + 5000) None)
      (l := without (timeSlowTimer (eng w)) (timers (host w)));
      try reflexivity.
    + apply handles_below_next, H0.
    + cbn. lia.
Qed.

Lemma magnetSession_reachable : reachable magnetSession.
Proof. apply reachable_run, reachable_boot. Qed.

Lemma stoppedSession_reachable : reachable stoppedSession.
Proof. apply reachable_step, magnetSession_reachable. Qed.

(** C7 at work: a second Magnet, and a Time item, caught while the first
    Magnet is still active. *)
Lemma timed_effect_single_expiry_demo :
  Inv magnetSession
  /\ isMagnetActive (eng magnetSession) = true
  /\ (List.length (pending MagnetExpiry magnetSession) <= 1)%nat
  /\ isMagnetActive (eng (handleCatch magnetItem magnetSession)) = true
  /\ pending MagnetExpiry (handleCatch magnetItem magnetSession) =
       [mkTimer (nextTimer (host magnetSession)) MagnetExpiry
                (now (host magnetSession) + 5000) None]
  /\ isTimeSlowActive (eng (handleCatch timeItem magnetSession)) = true
  /\ pending TimeSlowExpiry (handleCatch timeItem magnetSession) =
       [mkTimer (nextTimer (host magnetSession)) TimeSlowExpiry
                (now (host magnetSession) + 5000) None].
Proof.
  pose proof (reachable_Inv _ magnetSession_reachable) as HI.
  pose proof (timed_effect_single_expiry magnetSession magnetItem HI)
    as ((H1 & _) & H2 & _).
  pose proof (timed_effect_single_expiry magnetSession timeItem HI)
    as (_ & _ & H5).
  destruct (H2 eq_refl) as (H3 & _ & H4 & _).
  destruct (H5 eq_refl) as (H6 & _ & H7 & _).
  split; [exact HI|]. split; [vm_compute; reflexivity|].
  split; [exact H1|]. split; [exact H3|]. split; [exact H4|].
  split; [exact H6 | exact H7].
Defined.

(** ** What [stop] does to the effects *)

Lemma absent_stop_effects (reason : string) (w : World) :
  Inv0 w ->
  absent MagnetExpiry (stop reason w) /\ absent TimeSlowExpiry (stop reason w).
Proof.
  intros H. unfold stop. cbv zeta.
  set (w4 := cancelAnimationFrame _ _).
  assert (H4 : Inv0 w4) by (subst w4; peel).
  set (m := notifyEffects (upd (set_isMagnetActive false) w4)).
  assert (Hm : Inv0 m) by (subst m; unfold notifyEffects; peel).
  pose proof (absent_clear_owner MagnetExpiry m Hm) as Am.
  apply Inv0_clearTimer with (x := owner MagnetExpiry (eng m)) in Hm.
  change (clearTimer (owner MagnetExpiry (eng m)) m) with (disableMagnet w4)
    in Am, Hm.
  set (s := notifyEffects (upd (set_isTimeSlowActive false) (disableMagnet w4))).
  assert (Hs : Inv0 s) by (subst s; unfold notifyEffects; peel).
  pose proof (absent_clear_owner TimeSlowExpiry s Hs) as As.
  change (clearTimer (owner TimeSlowExpiry (eng s)) s)
    with (disableTimeSlow (disableMagnet w4)) in As.
  split; apply absent_notify; [apply absent_disableTimeSlow, Am | exact As].
Qed.

(** C8, as the code has it.  [stop] goes through [disableMagnet] and
    [disableTimeSlow]: besides the active flag it sets the Magnet and
    TimeSlow flags to false, calling the effect-change callback once for
    each (and then the game-end callback), and no expiry timer (nor countdown
    nor spawn timer) is pending afterwards.  The Shield flag and every other
    field of the engine are as before; of the browser's tables only the
    timers the four fields remember and the frame [gameLoopId] remembers are
    taken out. *)
Theorem stop_clears_timed_effects (reason : string) (w : World) :
  Inv w ->
  let w' := stop reason w in
  eng w' =
    set_isTimeSlowActive false
      (set_isMagnetActive false (set_isGameActive false (eng w)))
  /\ isGameActive (eng w') = false
  /\ isMagnetActive (eng w') = false
  /\ isTimeSlowActive (eng w') = false
  /\ hasShield (eng w') = hasShield (eng w)
  /\ pending MagnetExpiry w' = []
  /\ pending TimeSlowExpiry w' = []
  /\ pending CountdownTick w' = []
  /\ pending SpawnTick w' = []
  /\ log w' =
       log w
       ++ emit (eng w) OnEffectChange
            (EffectChange (hasShield (eng w)) false (isTimeSlowActive (eng w)))
       ++ emit (eng w) OnEffectChange
            (EffectChange (hasShield (eng w)) false false)
       ++ emit (eng w) OnGameEnd
            (GameEnd (score (eng w)) (level (eng w)) reason)
  /\ timers (host w') =
       without (timeSlowTimer (eng w))
         (without (magnetTimer (eng w))
            (without (spawnTimer (eng w))
               (without (gameTimer (eng w)) (timers (host w)))))
  /\ frames (host w') =
       match gameLoopId (eng w) with
       | None => frames (host w)
       | Some k => filter (fun f => negb (Pos.eqb f k)) (frames (host w))
       end
  /\ now (host w') = now (host w)
  /\ nextTimer (host w') = nextTimer (host w)
  /\ nextFrame (host w') = nextFrame (host w).
Proof.
  intros [H0 _]. cbv zeta. do 5 (split; [reflexivity|]).
  destruct (absent_stop_effects reason w H0) as [Am As].
  destruct (Inv_stop reason w H0) as [_ Hq].
  destruct (Hq eq_refl) as [Ac Asp].
  do 4 (split; [apply pending_nil; assumption|]).
  split; [apply log_stop|]. split; [reflexivity|].
  split; [reflexivity|]. split; [reflexivity|]. split; reflexivity.
Qed.

Lemma stop_clears_timed_effects_demo :
  Inv magnetSession
  /\ isMagnetActive (eng (stop "Unknown" magnetSession)) = false
  /\ pending MagnetExpiry (stop "Unknown" magnetSession) = [].
Proof.
  pose proof (reachable_Inv _ magnetSession_reachable) as HI.
  destruct (stop_clears_timed_effects "Unknown" magnetSession HI)
    as (_ & _ & H1 & _ & _ & H2 & _).
  split; [exact HI|]. split; [exact H1 | exact H2].
Defined.

(** C8, as the claim has it, fails: stopping the session in which a Magnet
    was just caught turns the Magnet flag off. *)
Lemma stop_clears_magnet_flag :
  isMagnetActive (eng magnetSession) = true
  /\ isMagnetActive (eng (stop "Unknown" magnetSession)) = false.
Proof. split; vm_compute; reflexivity. Qed.

(** ** Ticks of a stopped engine *)






(** ** A Bomb in the middle of a tick *)

Lemma crowdedSession_reachable : reachable crowdedSession.
Proof. apply reachable_run, reachable_boot. Qed.

Lemma log_updatePhysics (w : World) :
  let moved := upd (fun g => set_items (map (moveItem g) (items g)) g) w in
  let r := filterItems (items (eng moved)) moved in
  log (updatePhysics w) =
  log (snd r) ++ emit (eng (snd r)) OnRender (Render (fst r)).
Proof.
  cbv zeta. unfold updatePhysics. cbv zeta.
  destruct (filterItems _ _) as [kept w2]. reflexivity.
Qed.

(** ** Score and level never go down *)

Lemma score_keepItem (it : Item) (w : World) :
  let w' := snd (keepItem it w) in
  level (eng w') = level (eng w)
  /\ (score (eng w') = score (eng w)
      \/ (type it = Apple /\ fst (keepItem it w) = false
          /\ score (eng w') = score (eng w) + 100)
      \/ (type it = Banana /\ fst (keepItem it w) = false
          /\ score (eng w') = score (eng w) + 200)).
Proof.
  cbv zeta. unfold keepItem.
  destruct (100 <? y it)%float; [split; [reflexivity | left; reflexivity]|].
  destruct ((80 <? y it)%float && (y it <? 95)%float);
    [|split; [reflexivity | left; reflexivity]].
  cbv zeta.
  match goal with |- context [if (if ?c then _ else _) then _ else _] =>
    assert (Hc : c = true \/ (c = false /\ inBasketLane (eng w) it = true)
                 \/ (c = false /\ inBasketLane (eng w) it = false))
      by (destruct c; destruct (inBasketLane (eng w) it); auto)
  end.
  destruct Hc as [-> | [[-> ->] | [-> ->]]];
    try (split; [reflexivity | left; reflexivity]);
    (cbn [fst snd notify eng]; split; [apply level_handleCatch|];
     rewrite score_handleCatch; destruct (type it); auto; left; lia).
Qed.

Lemma score_filterItems (its : list Item) (w : World) :
  score (eng w) <= score (eng (snd (filterItems its w)))
  /\ level (eng (snd (filterItems its w))) = level (eng w).
Proof.
  revert w. induction its as [|it its IH]; intros w; cbn; [split; [lia | reflexivity]|].
  pose proof (score_keepItem it w) as Hk. cbv zeta in Hk.
  destruct (keepItem it w) as [keep w1]. cbn [fst snd] in Hk.
  specialize (IH w1). destruct (filterItems its w1) as [kept w2].
  cbn [fst snd] in *. destruct Hk as [Hl Hs]. destruct IH as [IH1 IH2].
  split; [|congruence].
  destruct Hs as [Hs | [(_ & _ & Hs) | (_ & _ & Hs)]]; lia.
Qed.

Lemma score_updatePhysics (w : World) :
  score (eng w) <= score (eng (updatePhysics w))
  /\ level (eng (updatePhysics w)) = level (eng w).
Proof.
  unfold updatePhysics. cbv zeta.
  set (w1 := upd _ w).
  pose proof (score_filterItems (items (eng w1)) w1) as H.
  destruct (filterItems (items (eng w1)) w1) as [kept w2]. exact H.
Qed.

Lemma score_countdownTick (w : World) :
  score (eng (countdownTick w)) = score (eng w)
  /\ level (eng w) <= level (eng (countdownTick w)).
Proof.
  rewrite countdownTick_unfold. cbv zeta.
  destruct ((timeLimit (eng w) - 1 =? 40) || (timeLimit (eng w) - 1 =? 20));
    destruct (timeLimit (eng w) - 1 <=? 0);
    rewrite ?eng_stop; cbn [eng notify upd];
    cbn [score level set_isTimeSlowActive set_isMagnetActive set_isGameActive
         set_baseSpeed set_level set_timeLimit];
    split; lia.
Qed.

Lemma score_spawn (w : World) :
  score (eng (spawn w)) = score (eng w) /\ level (eng (spawn w)) = level (eng w).
Proof.
  unfold spawn. destruct (isGameActive (eng w)); cbn [negb]; [|split; reflexivity].
  unfold spawnItem. cbn. destruct (itemProbabilities _). split; reflexivity.
Qed.

Lemma score_fireTimer (k : positive) (w : World) :
  score (eng (fireTimer k w)) = score (eng w)
  /\ level (eng w) <= level (eng (fireTimer k w)).
Proof.
  unfold fireTimer.
  destruct (find _ _) as [t|]; [|split; [reflexivity | lia]].
  destruct (due t <=? now (host w)); [|split; [reflexivity | lia]].
  set (w1 := match period t with Some _ => _ | None => _ end).
  assert (E : eng w1 = eng w) by (subst w1; destruct (period t); reflexivity).
  rewrite <- E. destruct (task t); cbn [runTask].
  - apply score_countdownTick.
  - destruct (score_spawn w1) as [-> ->]. split; [reflexivity | lia].
  - split; [reflexivity | cbn; lia].
  - split; [reflexivity | cbn; lia].
Qed.

(** ** [Math.floor] on small numbers *)

Lemma digits2_pos_bounds (m : positive) :
  2 ^ (Z.pos (digits2_pos m) - 1) <= Z.pos m < 2 ^ Z.pos (digits2_pos m).
Proof.
  induction m as [m IH | m IH |]; cbn [digits2_pos].
  - rewrite Pos2Z.inj_succ.
    replace (Z.succ (Z.pos (digits2_pos m)) - 1)
      with (Z.succ (Z.pos (digits2_pos m) - 1)) by lia.
    rewrite !Z.pow_succ_r by lia. lia.
  - rewrite Pos2Z.inj_succ.
    replace (Z.succ (Z.pos (digits2_pos m)) - 1)
      with (Z.succ (Z.pos (digits2_pos m) - 1)) by lia.
    rewrite !Z.pow_succ_r by lia. lia.
  - cbn. lia.
Qed.

(** The mantissa of a binary64 number has at most 53 bits, and exactly 53
    above the smallest exponent. *)
Lemma valid_mantissa (x : float) (s : bool) (m : positive) (e : Z) :
  Prim2SF x = S754_finite s m e ->
  Z.pos m < 9007199254740992
  /\ (-1074 < e -> 4503599627370496 <= Z.pos m).
Proof.
  intros E. pose proof (Prim2SF_valid x) as V. rewrite E in V.
  cbn [SpecFloat.valid_binary] in V. unfold bounded in V.
  apply andb_prop in V. destruct V as [V _].
  unfold canonical_mantissa, fexp, SpecFloat.emin in V.
  apply Z.eqb_eq in V.
  change (3 - emax - prec) with (-1074) in V. change prec with 53 in V.
  pose proof (digits2_pos_bounds m) as [Hlo Hhi].
  split.
  - assert (Z.pos (digits2_pos m) <= 53) by lia.
    assert (2 ^ Z.pos (digits2_pos m) <= 2 ^ 53)
      by (apply Z.pow_le_mono_r; lia).
    change (2 ^ 53) with 9007199254740992 in *. lia.
  - intros He. assert (Hd : Z.pos (digits2_pos m) = 53) by lia.
    rewrite Hd in Hlo. change (2 ^ (53 - 1)) with 4503599627370496 in Hlo.
    exact Hlo.
Qed.

Lemma SFleb_pos_cases (m1 m2 : positive) (e1 e2 : Z) :
  SFleb (S754_finite false m1 e1) (S754_finite false m2 e2) = true ->
  e1 < e2 \/ (e1 = e2 /\ Z.pos m1 <= Z.pos m2).
Proof.
  unfold SFleb, SFcompare.
  destruct (Z.compare_spec e1 e2) as [He|He|He].
  - change (PosDef.Pos.compare_cont Eq) with Pos.compare.
    destruct (Pos.compare_spec m1 m2) as [Hm|Hm|Hm]; intros H;
      try discriminate H; right; split; try assumption.
    + rewrite Hm. lia.
    + apply Z.lt_le_incl. exact Hm.
  - intros _. left. assumption.
  - intros H. discriminate H.
Qed.

Lemma shiftl_small (m : positive) (e : Z) (q : Z) (k : Z) :
  e = - k -> 0 <= k -> q * 2 ^ k <= Z.pos m < (q + 1) * 2 ^ k ->
  Z.shiftl (Z.pos m) e = q.
Proof.
  intros -> Hk Hm. rewrite Z.shiftl_div_pow2 by lia.
  rewrite Z.opp_involutive. symmetry.
  apply (Z.div_unique_pos _ _ q (Z.pos m - q * 2 ^ k)); lia.
Qed.

(** [Math.floor] of a number in [[0, 1)], [[1, 2)], [[2, 3)]. *)
Lemma Math_floor_thirds (u : float) :
  ((0 <=? u)%float = true -> (u <? 1)%float = true -> Math_floor u = Some 0)
  /\ ((1 <=? u)%float = true -> (u <? 2)%float = true -> Math_floor u = Some 1)
  /\ ((2 <=? u)%float = true -> (u <? 3)%float = true -> Math_floor u = Some 2).
Proof.
  rewrite !leb_spec, !ltb_spec. unfold Math_floor.
  replace (Prim2SF 0) with (S754_zero false) by (vm_compute; reflexivity).
  replace (Prim2SF 1) with (S754_finite false 4503599627370496 (-52))
    by (vm_compute; reflexivity).
  replace (Prim2SF 2) with (S754_finite false 4503599627370496 (-51))
    by (vm_compute; reflexivity).
  replace (Prim2SF 3) with (S754_finite false 6755399441055744 (-51))
    by (vm_compute; reflexivity).
  pose proof (valid_mantissa u) as V.
  destruct (Prim2SF u) as [s | s | | s m e].
  - repeat split; intros H; try reflexivity; destruct s; discriminate H.
  - repeat split; intros H1 H2; destruct s; discriminate.
  - repeat split; intros H1 H2; discriminate.
  - destruct (V s m e eq_refl) as [Vhi Vlo]. clear V.
    destruct s; [repeat split; intros H1 H2; discriminate H1|].
    repeat split; intros H1 H2; f_equal.
    + apply SFltb_pos_cases in H2.
      apply (shiftl_small m e 0 (- e)); try lia.
      destruct H2 as [He | [-> Hm]].
      * assert (2 ^ 53 <= 2 ^ (- e)) by (apply Z.pow_le_mono_r; lia).
        change (2 ^ 53) with 9007199254740992 in *. lia.
      * change (2 ^ (- -52)) with 4503599627370496. lia.
    + apply SFleb_pos_cases in H1. apply SFltb_pos_cases in H2.
      assert (He : e = -52) by (destruct (Z_lt_le_dec (-1074) e); lia).
      apply (shiftl_small m e 1 52); try lia;
        change (2 ^ 52) with 4503599627370496; lia.
    + apply SFleb_pos_cases in H1. apply SFltb_pos_cases in H2.
      assert (He : e = -51) by lia.
      apply (shiftl_small m e 2 51); try lia;
        change (2 ^ 51) with 2251799813685248; lia.
Qed.

(** ** Spawning *)

Lemma spawnItem_items (w : World) :
  let r := entropy (host w) (draws (host w)) in
  let rand := entropy (host w) (S (draws (host w))) in
  let ty := fst (itemProbabilities rand) in
  let sp := if ItemType_eqb ty Banana then (baseSpeed (eng w) + 0.2)%float
            else baseSpeed (eng w) in
  items (eng (spawnItem w)) =
  items (eng w)
  ++ [mkItem (itemCounter (eng w)) ty (snd (itemProbabilities rand))
             (pickLane r) 0%float sp sp].
Proof.
  cbv zeta. unfold spawnItem. cbn [Math_random host entropy draws eng].
  destruct (itemProbabilities _) as [ty pts]. reflexivity.
Qed.

Lemma spawned_item (w : World) :
  let rand := entropy (host w) (S (draws (host w))) in
  option_map type (spawned w) = Some (fst (itemProbabilities rand)).
Proof.
  cbv zeta. unfold spawned. pose proof (spawnItem_items w) as H.
  cbv zeta in H. rewrite H.
  rewrite nth_error_app2 by lia. rewrite Nat.sub_diag. reflexivity.
Qed.

Lemma pickLane_thirds (r : float) :
  let u := (r * 3)%float in
  ((0 <=? u)%float = true -> (u <? 1)%float = true -> pickLane r = Some Left)
  /\ ((1 <=? u)%float = true -> (u <? 2)%float = true ->
      pickLane r = Some Center)
  /\ ((2 <=? u)%float = true -> (u <? 3)%float = true ->
      pickLane r = Some Right).
Proof.
  cbv zeta. unfold pickLane.
  destruct (Math_floor_thirds (r * 3)%float) as (H0 & H1 & H2).
  repeat split; intros Ha Hb;
    [rewrite (H0 Ha Hb) | rewrite (H1 Ha Hb) | rewrite (H2 Ha Hb)]; reflexivity.
Qed.

Lemma originalSpeed_moveItem (g : GameEngine) (it : Item) :
  originalSpeed (moveItem g it) = originalSpeed it
  /\ speed (moveItem g it) = speed it.
Proof.
  unfold moveItem. cbv zeta.
  match goal with |- context [if ?c then _ else _] => destruct c end;
    [destruct (negb _)|]; split; reflexivity.
Qed.

Lemma items_countdownTick (w : World) :
  items (eng (countdownTick w)) = items (eng w).
Proof.
  rewrite countdownTick_unfold. cbv zeta.
  destruct ((timeLimit (eng w) - 1 =? 40) || (timeLimit (eng w) - 1 =? 20));
    destruct (timeLimit (eng w) - 1 <=? 0); rewrite ?eng_stop; reflexivity.
Qed.

(** C5, as the code has it.  [spawnItem] pushes one item, numbered by the
    item counter, at position 0.  Its lane is [lanes[floor(3 r)]] for the
    first draw [r]: Left, Center or Right as [3 r] falls in [[0,1)], [[1,2)]
    or [[2,3)].  Its kind comes from the second draw through a fixed table
    that no field of the engine enters: below 0.15 Bomb, then below 0.25
    Banana, below 0.30 Shield, below 0.35 Magnet, below 0.40 Time, else
    Apple.  A Banana gets the current base speed plus 0.2, every other kind
    the current base speed; that speed is stored in the item, the physics
    step does not change it, and a countdown tick (which may raise the base
    speed) leaves the items as they are. *)
Theorem spawnItem_spec (w : World) :
  let r := entropy (host w) (draws (host w)) in
  let rand := entropy (host w) (S (draws (host w))) in
  let u := (r * 3)%float in
  exists it : Item,
    items (eng (spawnItem w)) = items (eng w) ++ [it]
    /\ id it = itemCounter (eng w)
    /\ y it = 0%float
    /\ lane it = pickLane r
    /\ ((0 <=? u)%float = true -> (u <? 1)%float = true -> lane it = Some Left)
    /\ ((1 <=? u)%float = true -> (u <? 2)%float = true ->
        lane it = Some Center)
    /\ ((2 <=? u)%float = true -> (u <? 3)%float = true ->
        lane it = Some Right)
    /\ type it =
         (if (rand <? 0.15)%float then Bomb
          else if (rand <? 0.25)%float then Banana
          else if (rand <? 0.30)%float then Shield
          else if (rand <? 0.35)%float then Magnet
          else if (rand <? 0.40)%float then Time
          else Apple)
    /\ points it =
         match type it with Apple => 100 | Banana => 200 | _ => 0 end
    /\ originalSpeed it =
         (if ItemType_eqb (type it) Banana
          then (baseSpeed (eng w) + 0.2)%float else baseSpeed (eng w))
    /\ speed it = originalSpeed it
    /\ (forall g, originalSpeed (moveItem g it) = originalSpeed it)
    /\ items (eng (countdownTick (spawnItem w))) = items (eng (spawnItem w)).
Proof.
  cbv zeta. pose proof (spawnItem_items w) as H. cbv zeta in H.
  eexists. split; [exact H|]. cbn [id y lane type points originalSpeed speed].
  destruct (pickLane_thirds (entropy (host w) (draws (host w))))
    as (L0 & L1 & L2).
  do 3 (split; [reflexivity|]). split; [exact L0|]. split; [exact L1|].
  split; [exact L2|].
  split; [|split; [|split; [reflexivity|split; [reflexivity|split]]]].
  - unfold itemProbabilities.
    repeat (match goal with |- context [if ?c then _ else _] => destruct c end;
            try reflexivity).
  - unfold itemProbabilities.
    repeat (match goal with |- context [if ?c then _ else _] => destruct c end;
            try reflexivity).
  - intros g. apply originalSpeed_moveItem.
  - apply items_countdownTick.
Qed.

(** C5, as the claim has it, fails: the share of Bombs does not depend on
    the level.  Two engines that differ in any way (their levels included)
    spawn the same kind when [Math.random] returns the same numbers. *)
Lemma spawned_kind_not_level_dependent :
  ~ (exists w1 w2 : World,
       host w1 = host w2
       /\ option_map type (spawned w1) <> option_map type (spawned w2)).
Proof.
  intros (w1 & w2 & Eh & Hne). apply Hne.
  rewrite !spawned_item. cbv zeta. rewrite Eh. reflexivity.
Qed.

(** ** The statements at work *)


(** C2 at work: a Bomb caught in the session that holds a Shield, and in the
    session that does not; an Apple caught. *)
Lemma handleCatch_Bomb_demo :
  (hasShield (eng shieldSession) = true
   /\ isGameActive (eng shieldSession) = true
   /\ hasShield (eng magnetSession) = false)
  /\ hasShield (eng (handleCatch bombItem shieldSession)) = false
  /\ isGameActive (eng (handleCatch bombItem shieldSession)) =
       isGameActive (eng shieldSession)
  /\ handleCatch bombItem magnetSession = stop "Bomb" magnetSession
  /\ isGameActive (eng (handleCatch bombItem magnetSession)) = false
  /\ isGameActive (eng (handleCatch appleItem magnetSession)) =
       isGameActive (eng magnetSession).
Proof.
  assert (Hs : hasShield (eng shieldSession) = true) by (vm_compute; reflexivity).
  assert (Ha : isGameActive (eng shieldSession) = true)
    by (vm_compute; reflexivity).
  assert (Hn : hasShield (eng magnetSession) = false)
    by (vm_compute; reflexivity).
  destruct (handleCatch_Bomb_alone_ends_session bombItem shieldSession)
    as (H1 & _ & _).
  destruct (handleCatch_Bomb_alone_ends_session bombItem magnetSession)
    as (_ & H2 & _).
  destruct (handleCatch_Bomb_alone_ends_session appleItem magnetSession)
    as (_ & _ & H3).
  destruct (H1 eq_refl Hs) as (A1 & _ & _ & A2).
  destruct (H2 eq_refl Hn) as (B1 & B2 & _).
  assert (Hne : type appleItem <> Bomb) by discriminate.
  destruct (H3 Hne) as (C1 & _).
  split; [split; [exact Hs | split; [exact Ha | exact Hn]]|].
  split; [exact A1|]. split; [exact A2|]. split; [exact B1|].
  split; [exact B2 | exact C1].
Defined.

(** ** Whole sessions *)

(** Sixty seconds without a catch: level 2 from the tick that reads 40,
    level 3 from the tick that reads 20, and at 0 the session ends with
    reason "Timeout", score 0, level 3. *)
Example countdown_from_60 :
  map (fun n => (timeLimit (eng (idleSession n)), level (eng (idleSession n)),
                 isGameActive (eng (idleSession n))))
      [0; 19; 20; 21; 39; 40; 41; 59; 60]%nat
  = [(60, 1, true); (41, 1, true); (40, 2, true); (39, 2, true); (21, 2, true);
     (20, 3, true); (19, 3, true); (1, 3, true); (0, 3, false)]
  /\ skipn (List.length (log (idleSession 60)) - 4) (log (idleSession 60))
     = [TimeUpdate 0; EffectChange false false false;
        EffectChange false false false; GameEnd 0 3 "Timeout"].
Proof. split; vm_compute; reflexivity. Qed.

(** An Apple in the basket's lane: the frame that brings it into the band
    catches it; the score becomes 100, one item-removed notification is
    sent, and the render notification no longer lists it. *)
Example apple_caught :
  score (eng (appleSession 266)) = 0
  /\ List.length (items (eng (appleSession 266))) = 1%nat
  /\ score (eng (appleSession 267)) = 100
  /\ log (appleSession 267) =
       log (appleSession 266) ++ [ScoreChange 100 1; ItemRemove 0%nat; Render []].
Proof.
  split; [vm_compute; reflexivity|]. split; [vm_compute; reflexivity|].
  split; vm_compute; reflexivity.
Qed.

(** * More of the engine *)

(** ** What the methods leave alone *)

Lemma sameSession_refl (g : GameEngine) : sameSession g g.
Proof. repeat split. Qed.

Lemma sameSession_trans (g1 g2 g3 : GameEngine) :
  sameSession g1 g2 -> sameSession g2 g3 -> sameSession g1 g3.
Proof.
  intros (A1 & A2 & A3 & A4 & A5 & A6) (B1 & B2 & B3 & B4 & B5 & B6).
  repeat split; congruence.
Qed.

Lemma sameSession_stop (reason : string) (w : World) :
  sameSession (eng w) (eng (stop reason w)).
Proof. rewrite eng_stop. repeat split. Qed.

Lemma sameSession_handleCatch (it : Item) (w : World) :
  sameSession (eng w) (eng (handleCatch it w)).
Proof.
  unfold handleCatch. destruct (type it).
  - repeat split.
  - repeat split.
  - destruct (hasShield (eng w)); [repeat split | apply sameSession_stop].
  - repeat split.
  - repeat split.
  - repeat split.
Qed.

Lemma sameSession_keepItem (it : Item) (w : World) :
  sameSession (eng w) (eng (snd (keepItem it w))).
Proof.
  unfold keepItem.
  destruct (100 <? y it)%float; [apply sameSession_refl|].
  destruct ((80 <? y it)%float && (y it <? 95)%float); [|apply sameSession_refl].
  cbv zeta.
  destruct (isMagnetActive (eng w) && collectible (type it));
    [apply sameSession_handleCatch|].
  destruct (inBasketLane (eng w) it);
    [apply sameSession_handleCatch | apply sameSession_refl].
Qed.

Lemma sameSession_filterItems (its : list Item) (w : World) :
  sameSession (eng w) (eng (snd (filterItems its w))).
Proof.
  revert w. induction its as [|it its IH]; intros w; cbn [filterItems].
  - apply sameSession_refl.
  - pose proof (sameSession_keepItem it w) as H1.
    destruct (keepItem it w) as [keep w1]. cbn [snd] in H1.
    specialize (IH w1). destruct (filterItems its w1) as [kept w2].
    cbn [snd] in *. eapply sameSession_trans; eassumption.
Qed.

Lemma sameSession_updatePhysics (w : World) :
  sameSession (eng w) (eng (updatePhysics w)).
Proof.
  unfold updatePhysics. cbv zeta. set (w1 := upd _ w).
  pose proof (sameSession_filterItems (items (eng w1)) w1) as H.
  destruct (filterItems (items (eng w1)) w1) as [kept w2]. cbn [snd] in H.
  destruct H as (A1 & A2 & A3 & A4 & A5 & A6). repeat split; assumption.
Qed.

Lemma sameSession_loop (w : World) : sameSession (eng w) (eng (loop w)).
Proof.
  unfold loop. destruct (isGameActive (eng w)); cbn [negb];
    [|apply sameSession_refl].
  destruct (sameSession_updatePhysics w) as (A1 & A2 & A3 & A4 & A5 & A6).
  repeat split; assumption.
Qed.

Lemma sameSession_fireFrame (k : positive) (w : World) :
  sameSession (eng w) (eng (fireFrame k w)).
Proof.
  unfold fireFrame. destruct (existsb _ _); [|apply sameSession_refl].
  apply (sameSession_loop (cancelAnimationFrame (Some k) w)).
Qed.

Lemma countdownTick_effect (w : World) :
  let t := timeLimit (eng w) - 1 in
  let up := (t =? 40) || (t =? 20) in
  let g' := eng (countdownTick w) in
  timeLimit g' = t
  /\ level g' = (if up then level (eng w) + 1 else level (eng w))
  /\ baseSpeed g' =
       (if up then (baseSpeed (eng w) + 0.1)%float else baseSpeed (eng w))
  /\ score g' = score (eng w)
  /\ isGameActive g' = (if t <=? 0 then false else isGameActive (eng w))
  /\ basketPosition g' = basketPosition (eng w)
  /\ itemCounter g' = itemCounter (eng w)
  /\ items g' = items (eng w)
  /\ callbacks g' = callbacks (eng w).
Proof.
  cbv zeta. rewrite countdownTick_unfold. cbv zeta.
  destruct ((timeLimit (eng w) - 1 =? 40) || (timeLimit (eng w) - 1 =? 20));
    destruct (timeLimit (eng w) - 1 <=? 0); rewrite ?eng_stop;
    do 8 (split; [reflexivity|]); reflexivity.
Qed.

Lemma Tier_countdownTick (w : World) :
  Tier (eng w) -> Tier (eng (countdownTick w)).
Proof.
  intros H. destruct (countdownTick_effect w) as (Et & El & Eb & _).
  cbv zeta in *. unfold Tier. rewrite Et, El, Eb.
  destruct (Z.eqb_spec (timeLimit (eng w) - 1) 40) as [E40|N40];
    destruct (Z.eqb_spec (timeLimit (eng w) - 1) 20) as [E20|N20];
    cbn [orb]; unfold Tier in H;
    destruct H as [(L & [B | [B T]]) | [(L & B & T) | (L & B & T)]];
    rewrite ?L, ?B; try lia.
  - right. left. repeat split; try lia.
  - right. left. repeat split; try lia.
  - right. right. repeat split; try lia.
  - left. split; [reflexivity | left; reflexivity].
  - left. split; [reflexivity | right; split; [reflexivity | lia]].
  - right. left. repeat split; lia.
  - right. right. repeat split; lia.
Qed.

Lemma spawnItem_effect (w : World) :
  let g' := eng (spawnItem w) in
  level g' = level (eng w) /\ timeLimit g' = timeLimit (eng w)
  /\ baseSpeed g' = baseSpeed (eng w) /\ score g' = score (eng w)
  /\ isGameActive g' = isGameActive (eng w)
  /\ basketPosition g' = basketPosition (eng w)
  /\ itemCounter g' = S (itemCounter (eng w))
  /\ callbacks g' = callbacks (eng w)
  /\ hasShield g' = hasShield (eng w)
  /\ isMagnetActive g' = isMagnetActive (eng w)
  /\ isTimeSlowActive g' = isTimeSlowActive (eng w).
Proof.
  cbv zeta. unfold spawnItem. cbn [Math_random host entropy draws eng].
  destruct (itemProbabilities _) as [ty pts].
  do 10 (split; [reflexivity|]). reflexivity.
Qed.

Lemma eng_startGameLoop (w : World) :
  eng (startGameLoop w) = set_gameLoopId (Some (nextFrame (host w))) (eng w).
Proof. reflexivity. Qed.

Lemma eng_spawn_active (w : World) :
  isGameActive (eng w) = true ->
  eng (spawn w) =
  set_spawnTimer (Some (nextTimer (host (spawnItem w)))) (eng (spawnItem w)).
Proof. intros H. unfold spawn. rewrite H. reflexivity. Qed.

Lemma spawn_effect (w : World) :
  let g' := eng (spawn w) in
  level g' = level (eng w) /\ timeLimit g' = timeLimit (eng w)
  /\ baseSpeed g' = baseSpeed (eng w) /\ score g' = score (eng w)
  /\ isGameActive g' = isGameActive (eng w)
  /\ basketPosition g' = basketPosition (eng w)
  /\ callbacks g' = callbacks (eng w).
Proof.
  cbv zeta. destruct (isGameActive (eng w)) eqn:Ha.
  - rewrite (eng_spawn_active w Ha).
    destruct (spawnItem_effect w) as (A1 & A2 & A3 & A4 & A5 & A6 & _ & A8 & _).
    cbv zeta in *.
    cbn [level timeLimit baseSpeed score isGameActive basketPosition callbacks
         set_spawnTimer].
    rewrite A1, A2, A3, A4, A5, A6, A8, Ha. repeat split.
  - unfold spawn. rewrite Ha. cbn [negb]. rewrite Ha. repeat split.
Qed.

(** What a timer that runs can be. *)
Lemma fireTimer_cases (k : positive) (w : World) :
  fireTimer k w = w
  \/ exists w1,
       eng w1 = eng w /\ log w1 = log w
       /\ (fireTimer k w = countdownTick w1 \/ fireTimer k w = spawn w1
           \/ fireTimer k w = disableMagnet w1
           \/ fireTimer k w = disableTimeSlow w1).
Proof.
  unfold fireTimer.
  destruct (find _ _) as [t|]; [|left; reflexivity].
  destruct (due t <=? now (host w)); [|left; reflexivity].
  right.
  set (w1 := match period t with Some _ => _ | None => _ end).
  exists w1. split; [subst w1; destruct (period t); reflexivity|].
  split; [subst w1; destruct (period t); reflexivity|].
  destruct (task t); cbn [runTask]; auto.
Qed.

Lemma Tier_same (g g' : GameEngine) :
  level g' = level g -> timeLimit g' = timeLimit g ->
  baseSpeed g' = baseSpeed g -> Tier g -> Tier g'.
Proof. unfold Tier. intros -> -> ->. trivial. Qed.

Lemma Tier_sameSession (g g' : GameEngine) :
  sameSession g g' -> Tier g -> Tier g'.
Proof. intros (A1 & A2 & A3 & _). apply Tier_same; assumption. Qed.

Lemma eng_upd (f : GameEngine -> GameEngine) (w : World) :
  eng (upd f w) = f (eng w).
Proof. reflexivity. Qed.

Lemma eng_notifyEffects (w : World) : eng (notifyEffects w) = eng w.
Proof. reflexivity. Qed.

Lemma eng_disableMagnet (w : World) :
  eng (disableMagnet w) = set_isMagnetActive false (eng w).
Proof. reflexivity. Qed.

Lemma eng_disableTimeSlow (w : World) :
  eng (disableTimeSlow w) = set_isTimeSlowActive false (eng w).
Proof. reflexivity. Qed.

Lemma eng_startTimer (w : World) :
  eng (startTimer w) = set_gameTimer (Some (nextTimer (host w))) (eng w).
Proof. reflexivity. Qed.

(** [start] on a stopped engine, up to the first spawn. *)
Lemma start_unfold (c : option Z) (w : World) :
  isGameActive (eng w) = false ->
  exists w5,
    start c w = startGameLoop (spawn w5)
    /\ isGameActive (eng w5) = true /\ score (eng w5) = 0
    /\ level (eng w5) = 1
    /\ timeLimit (eng w5) =
         match c with Some t => if t =? 0 then 60 else t | None => 60 end
    /\ baseSpeed (eng w5) = 0.3%float
    /\ basketPosition (eng w5) = Center
    /\ hasShield (eng w5) = false /\ isMagnetActive (eng w5) = false
    /\ isTimeSlowActive (eng w5) = false
    /\ itemCounter (eng w5) = itemCounter (eng w)
    /\ callbacks (eng w5) = callbacks (eng w)
    /\ items (eng w5) = []
    /\ timers (host w5) =
         without (timeSlowTimer (eng w))
           (without (magnetTimer (eng w)) (timers (host w)))
         ++ [mkTimer (nextTimer (host w)) CountdownTick (now (host w) + 1000)
                     (Some 1000)]
    /\ nextTimer (host w5) = Pos.succ (nextTimer (host w))
    /\ now (host w5) = now (host w)
    /\ frames (host w5) = frames (host w)
    /\ nextFrame (host w5) = nextFrame (host w)
    /\ log w5 =
         log w
         ++ emit (eng w) OnEffectChange (EffectChange false false
                                           (isTimeSlowActive (eng w)))
         ++ emit (eng w) OnEffectChange (EffectChange false false false)
         ++ emit (eng w) OnEffectChange (EffectChange false false false).
Proof.
  intros Ha. unfold start. rewrite Ha. cbv zeta. unfold startSpawning.
  eexists. split; [reflexivity|].
  rewrite eng_startTimer, eng_notifyEffects, eng_disableTimeSlow,
    eng_disableMagnet, !eng_upd.
  do 12 (split; [reflexivity|]).
  split; [reflexivity|]. split; [reflexivity|]. split; [reflexivity|].
  split; [reflexivity|]. split; [reflexivity|].
  unfold startTimer, notifyEffects, disableTimeSlow, disableMagnet,
    notifyEffects, notify, emit.
  cbn [log eng host upd clearTimer updHost setInterval addTimer snd
       callbacks hasShield isMagnetActive isTimeSlowActive
       set_isGameActive set_score set_level set_timeLimit set_items
       set_currentPose set_basketPosition set_baseSpeed set_hasShield
       set_isMagnetActive set_isTimeSlowActive set_gameTimer].
  rewrite <- !app_assoc. reflexivity.
Qed.

Lemma start_effect (c : option Z) (w : World) :
  isGameActive (eng w) = false ->
  let g' := eng (start c w) in
  isGameActive g' = true /\ score g' = 0 /\ level g' = 1
  /\ timeLimit g' =
       match c with Some t => if t =? 0 then 60 else t | None => 60 end
  /\ baseSpeed g' = 0.3%float /\ basketPosition g' = Center
  /\ hasShield g' = false /\ isMagnetActive g' = false
  /\ isTimeSlowActive g' = false
  /\ itemCounter g' = S (itemCounter (eng w))
  /\ callbacks g' = callbacks (eng w).
Proof.
  intros Ha. cbv zeta.
  destruct (start_unfold c w Ha)
    as (w5 & -> & B1 & B2 & B3 & B4 & B5 & B6 & B7 & B8 & B9 & B10 & B11 & _).
  rewrite eng_startGameLoop, (eng_spawn_active w5 B1).
  destruct (spawnItem_effect w5)
    as (A1 & A2 & A3 & A4 & A5 & A6 & A7 & A8 & A9 & A10 & A11).
  cbv zeta in *.
  cbn [isGameActive score level timeLimit baseSpeed basketPosition hasShield
       isMagnetActive isTimeSlowActive itemCounter callbacks set_gameLoopId
       set_spawnTimer].
  rewrite A1, A2, A3, A4, A5, A6, A7, A8, A9, A10, A11.
  rewrite B1, B2, B3, B4, B5, B6, B7, B8, B9, B10, B11.
  do 10 (split; [reflexivity|]). reflexivity.
Qed.

Lemma step_sameSession_cases (a : Action) (w : World) :
  sameSession (eng w) (eng (step a w))
  \/ (exists c, a = CallStart c /\ isGameActive (eng w) = false)
  \/ (exists p, a = CallOnPoseDetected p)
  \/ (exists s b, a = CallSetter s b)
  \/ (exists k, a = TimerFires k).
Proof.
  destruct a as [c|r|p|s b|k|k|dt]; cbn [step].
  - destruct (isGameActive (eng w)) eqn:Ha.
    + left. unfold start. rewrite Ha. apply sameSession_refl.
    + right. left. exists c. split; reflexivity.
  - left. apply sameSession_stop.
  - right. right. left. exists p. reflexivity.
  - right. right. right. left. exists s, b. reflexivity.
  - right. right. right. right. exists k. reflexivity.
  - left. apply sameSession_fireFrame.
  - left. apply sameSession_refl.
Qed.

Lemma Tier_fireTimer (k : positive) (w : World) :
  Tier (eng w) -> Tier (eng (fireTimer k w)).
Proof.
  intros H. destruct (fireTimer_cases k w) as [-> | (w1 & E & _ & Hc)];
    [exact H|].
  rewrite <- E in H. destruct Hc as [-> | [-> | [-> | ->]]].
  - apply Tier_countdownTick, H.
  - destruct (spawn_effect w1) as (A1 & A2 & A3 & _). revert H.
    apply Tier_same; assumption.
  - exact H.
  - exact H.
Qed.

Lemma Tier_step (a : Action) (w : World) :
  Tier (eng w) -> Tier (eng (step a w)).
Proof.
  intros H.
  destruct (step_sameSession_cases a w)
    as [S | [(c & -> & Ha) | [(p & ->) | [(s & b & ->) | (k & ->)]]]].
  - revert H. apply Tier_sameSession, S.
  - cbn [step]. destruct (start_effect c w Ha) as (_ & _ & L & _ & B & _).
    cbv zeta in *. left. split; [exact L | left; exact B].
  - cbn [step]. unfold onPoseDetected.
    destruct (isGameActive (eng w)); cbn [negb]; [|exact H].
    destruct (Lane_of_string p); exact H.
  - exact H.
  - apply Tier_fireTimer, H.
Qed.

Lemma reachable_Tier (w : World) : reachable w -> Tier (eng w).
Proof.
  induction 1 as [rnd t0 | a w _ IH]; [|apply Tier_step, IH].
  left. split; [reflexivity|]. right. split; [reflexivity | cbn; lia].
Qed.

(** ** Score, level and base speed of a reachable engine *)

Lemma Points_same (g g' : GameEngine) :
  score g' = score g -> Points g -> Points g'.
Proof. unfold Points. intros ->. trivial. Qed.

Lemma Points_filterItems (its : list Item) (w : World) :
  Points (eng w) -> Points (eng (snd (filterItems its w))).
Proof.
  revert w. induction its as [|it its IH]; intros w H; cbn [filterItems];
    [exact H|].
  pose proof (score_keepItem it w) as Hk. cbv zeta in Hk.
  destruct (keepItem it w) as [keep w1]. cbn [fst snd] in Hk.
  specialize (IH w1). destruct (filterItems its w1) as [kept w2].
  cbn [snd] in *. apply IH. destruct Hk as [_ Hs]. destruct H as [H0 [q Hq]].
  unfold Points.
  destruct Hs as [-> | [(_ & _ & ->) | (_ & _ & ->)]].
  - split; [exact H0 | exists q; exact Hq].
  - split; [lia | exists (q + 1); lia].
  - split; [lia | exists (q + 2); lia].
Qed.

Lemma Points_fireFrame (k : positive) (w : World) :
  Points (eng w) -> Points (eng (fireFrame k w)).
Proof.
  intros H. unfold fireFrame. destruct (existsb _ _); [|exact H].
  unfold loop. destruct (isGameActive (eng (cancelAnimationFrame (Some k) w)));
    cbn [negb]; [|exact H].
  unfold updatePhysics. cbv zeta. set (w1 := upd _ _).
  pose proof (Points_filterItems (items (eng w1)) w1 H) as H1.
  destruct (filterItems (items (eng w1)) w1) as [kept w2]. exact H1.
Qed.

Lemma Points_step (a : Action) (w : World) :
  Points (eng w) -> Points (eng (step a w)).
Proof.
  intros H. destruct a as [c|r|p|s b|k|k|dt]; cbn [step].
  - destruct (isGameActive (eng w)) eqn:Ha.
    + unfold start. rewrite Ha. exact H.
    + destruct (start_effect c w Ha) as (_ & S0 & _). cbv zeta in S0.
      unfold Points. rewrite S0. split; [lia | exists 0; lia].
  - rewrite eng_stop. exact H.
  - unfold onPoseDetected. destruct (isGameActive (eng w)); cbn [negb];
      [|exact H].
    destruct (Lane_of_string p); exact H.
  - exact H.
  - destruct (score_fireTimer k w) as [E _]. revert H. apply Points_same, E.
  - apply Points_fireFrame, H.
  - exact H.
Qed.

Lemma reachable_Points (w : World) : reachable w -> Points (eng w).
Proof.
  induction 1 as [rnd t0 | a w _ IH]; [|apply Points_step, IH].
  split; [cbn; lia | exists 0; reflexivity].
Qed.

(** X1. In every reachable state the score is a non-negative multiple of
    100: it starts at 0, [start] puts it back to 0, and the only additions
    are the 100 and 200 of [addScore]. *)
Theorem reachable_score_shape (w : World) :
  reachable w -> 0 <= score (eng w) /\ (100 | score (eng w)).
Proof. intros H. apply reachable_Points, H. Qed.

Lemma crowded_tick_reachable : reachable (step (FrameFires 267) crowdedSession).
Proof. apply reachable_step, crowdedSession_reachable. Qed.

Lemma reachable_score_shape_demo :
  reachable (step (FrameFires 267) crowdedSession)
  /\ 0 <= score (eng (step (FrameFires 267) crowdedSession))
  /\ (100 | score (eng (step (FrameFires 267) crowdedSession))).
Proof.
  split; [exact crowded_tick_reachable|].
  exact (reachable_score_shape _ crowded_tick_reachable).
Defined.

Lemma unstarted_inactive (w : World) :
  unstarted w -> isGameActive (eng w) = false.
Proof. intros (E & _). rewrite E. reflexivity. Qed.

Lemma unstarted_same (cb : Slot -> bool) (w w' : World) :
  eng w' = set_callbacks cb (eng w) ->
  timers (host w') = timers (host w) -> frames (host w') = frames (host w) ->
  unstarted w -> unstarted w'.
Proof.
  intros Ee Et Ef (E & T & F). unfold unstarted. rewrite Ee, Et, Ef, E.
  repeat split; assumption.
Qed.

Lemma eng_set_callbacks_id (g : GameEngine) : g = set_callbacks (callbacks g) g.
Proof. destruct g. reflexivity. Qed.

(** Before the first [start] nothing but a setter changes the engine. *)
Lemma unstarted_step (a : Action) (w : World) :
  unstarted w ->
  unstarted (step a w) \/ (exists c, a = CallStart c).
Proof.
  intros H. pose proof (unstarted_inactive w H) as Ha.
  destruct a as [c|r|p|s b|k|k|dt]; cbn [step].
  - right. exists c. reflexivity.
  - left. destruct H as (E & T & F). unfold unstarted.
    rewrite eng_stop, timers_stop, T.
    split; [rewrite E; reflexivity|]. split.
    + destruct (timeSlowTimer (eng w)), (magnetTimer (eng w)),
        (spawnTimer (eng w)), (gameTimer (eng w)); reflexivity.
    + change (frames (host (stop match r with Some s => s | None => "Unknown"%string end w)))
        with (match gameLoopId (eng w) with
              | None => frames (host w)
              | Some k => filter (fun f => negb (Pos.eqb f k)) (frames (host w))
              end).
      rewrite F. destruct (gameLoopId (eng w)); reflexivity.
  - left. unfold onPoseDetected. rewrite Ha. exact H.
  - left. destruct H as (E & T & F). unfold unstarted, setCallback.
    cbn [eng upd host]. rewrite E. repeat split; assumption.
  - left. destruct H as (E & T & F). unfold fireTimer. rewrite T. cbn [find].
    repeat split; assumption.
  - left. destruct H as (E & T & F). unfold fireFrame. rewrite F.
    cbn [existsb]. repeat split; assumption.
  - left. revert H. apply (unstarted_same (callbacks (eng w)));
      [apply eng_set_callbacks_id | reflexivity | reflexivity].
Qed.

Lemma Settled_same (g g' : GameEngine) :
  level g' = level g -> baseSpeed g' = baseSpeed g -> Settled g -> Settled g'.
Proof. unfold Settled. intros -> ->. trivial. Qed.

Lemma Settled_start (c : option Z) (w : World) :
  isGameActive (eng w) = false -> Settled (eng (start c w)).
Proof.
  intros Ha. destruct (start_effect c w Ha) as (_ & _ & _ & _ & B & _).
  cbv zeta in B. intros _. exact B.
Qed.

Lemma Settled_step (a : Action) (w : World) :
  Tier (eng w) -> Settled (eng w) -> Settled (eng (step a w)).
Proof.
  intros HT H.
  destruct (step_sameSession_cases a w)
    as [S | [(c & -> & Ha) | [(p & ->) | [(s & b & ->) | (k & ->)]]]].
  - destruct S as (L & _ & B & _). revert H. apply Settled_same; assumption.
  - cbn [step]. apply Settled_start, Ha.
  - cbn [step]. unfold onPoseDetected.
    destruct (isGameActive (eng w)); cbn [negb]; [|exact H].
    destruct (Lane_of_string p); exact H.
  - exact H.
  - cbn [step]. destruct (fireTimer_cases k w) as [-> | (w1 & E & _ & Hc)];
      [exact H|].
    rewrite <- E in H, HT. destruct Hc as [-> | [-> | [-> | ->]]].
    + destruct (countdownTick_effect w1) as (_ & El & Eb & _).
      cbv zeta in El, Eb. unfold Settled. rewrite El, Eb.
      destruct ((timeLimit (eng w1) - 1 =? 40) || (timeLimit (eng w1) - 1 =? 20));
        [|exact H].
      intros L. exfalso.
      destruct HT as [(L1 & _) | [(L1 & _) | (L1 & _)]]; lia.
    + destruct (spawn_effect w1) as (A1 & _ & A3 & _). revert H.
      apply Settled_same; assumption.
    + exact H.
    + exact H.
Qed.

Lemma reachable_started (w : World) :
  reachable w -> unstarted w \/ Settled (eng w).
Proof.
  induction 1 as [rnd t0 | a w Hr IH].
  - left. repeat split.
  - destruct IH as [U | S].
    + destruct (unstarted_step a w U) as [U' | (c & ->)]; [left; exact U'|].
      right. cbn [step]. apply Settled_start, unstarted_inactive, U.
    + right. apply Settled_step; [apply reachable_Tier, Hr | exact S].
Qed.

Lemma Settled_run (acts : list Action) (w : World) :
  reachable w -> Settled (eng w) -> Settled (eng (run acts w)).
Proof.
  revert w. induction acts as [|a acts IH]; intros w Hr H; [exact H|].
  change (run (a :: acts) w) with (run acts (step a w)).
  apply IH; [constructor; exact Hr|].
  apply Settled_step; [apply reachable_Tier, Hr | exact H].
Qed.

(** X2. In every reachable state the level is 1, 2 or 3 and the base speed
    goes with it: 0.3 at level 1, 0.4 at level 2, 0.5 at level 3.  The one
    exception is the engine that was never started, which is at level 1 with
    the constructor's 0.5: once [start] has been called, whatever happens
    next, level 1 means base speed 0.3.  Level 2 is not reached before the
    clock reads 40 and level 3 not before it reads 20. *)
Theorem reachable_level_tier (w : World) :
  reachable w ->
  1 <= level (eng w) <= 3
  /\ (baseSpeed (eng w) = 0.3%float \/ baseSpeed (eng w) = 0.4%float
      \/ baseSpeed (eng w) = 0.5%float)
  /\ (level (eng w) = 1 ->
      baseSpeed (eng w) = 0.3%float
      \/ (baseSpeed (eng w) = 0.5%float
          /\ eng w = set_callbacks (callbacks (eng w)) constructor
          /\ timers (host w) = [] /\ frames (host w) = []))
  /\ (forall c acts,
        level (eng (run acts (start c w))) = 1 ->
        baseSpeed (eng (run acts (start c w))) = 0.3%float)
  /\ (level (eng w) = 2 -> baseSpeed (eng w) = 0.4%float)
  /\ (level (eng w) = 3 -> baseSpeed (eng w) = 0.5%float)
  /\ (40 < timeLimit (eng w) -> level (eng w) = 1)
  /\ (20 < timeLimit (eng w) -> level (eng w) <= 2).
Proof.
  intros Hr. pose proof (reachable_Tier w Hr) as H.
  pose proof (reachable_started w Hr) as HS.
  assert (H3 : level (eng w) = 1 ->
               baseSpeed (eng w) = 0.3%float
               \/ (baseSpeed (eng w) = 0.5%float
                   /\ eng w = set_callbacks (callbacks (eng w)) constructor
                   /\ timers (host w) = [] /\ frames (host w) = [])).
  { intros L. destruct HS as [U | S]; [right | left; apply S, L].
    destruct U as (E & T & F). split; [rewrite E; reflexivity|].
    repeat split; assumption. }
  assert (H4 : forall c acts,
             level (eng (run acts (start c w))) = 1 ->
             baseSpeed (eng (run acts (start c w))) = 0.3%float).
  { intros c acts.
    apply (Settled_run acts (start c w));
      [apply (reachable_step (CallStart c)), Hr|].
    destruct (isGameActive (eng w)) eqn:Ha; [|apply Settled_start, Ha].
    unfold start. rewrite Ha.
    destruct HS as [U | S]; [|exact S].
    apply unstarted_inactive in U. congruence. }
  destruct H as [(L & [B | [B T]]) | [(L & B & T) | (L & B & T)]];
    (split; [lia|]); (split; [rewrite B; auto|]); (split; [exact H3|]);
    (split; [exact H4|]); rewrite L, B; repeat split; intros; auto; try lia;
    try discriminate.
Qed.

Lemma idleSession_reachable (n : nat) : reachable (idleSession n).
Proof. apply reachable_run, reachable_boot. Qed.

Lemma reachable_level_tier_demo :
  reachable (idleSession 45)
  /\ 1 <= level (eng (idleSession 45)) <= 3
  /\ (level (eng (idleSession 45)) = 3 ->
      baseSpeed (eng (idleSession 45)) = 0.5%float)
  /\ (level (eng (run [] (start None (idleSession 45)))) = 1 ->
      baseSpeed (eng (run [] (start None (idleSession 45)))) = 0.3%float).
Proof.
  split; [apply idleSession_reachable|].
  destruct (reachable_level_tier _ (idleSession_reachable 45))
    as (H1 & _ & _ & H4 & _ & H3 & _).
  split; [exact H1|]. split; [exact H3 | exact (H4 None [])].
Defined.

(** ** The spawn timer *)

Lemma find_by_handle (ts : list Timer) (t : Timer) :
  NoDup (map handle ts) -> In t ts ->
  find (fun x => Pos.eqb (handle x) (handle t)) ts = Some t.
Proof.
  induction ts as [|x ts IH]; cbn; intros Hd Hin; [contradiction|].
  inversion Hd as [|? ? Hn Hd']; subst.
  destruct Hin as [-> | Hin].
  - rewrite Pos.eqb_refl. reflexivity.
  - destruct (Pos.eqb_spec (handle x) (handle t)) as [E|E]; [|apply IH; assumption].
    exfalso. apply Hn. rewrite E. apply in_map, Hin.
Qed.

Lemma pending_spawn_active (w : World) :
  isGameActive (eng w) = true -> absent SpawnTick w ->
  pending SpawnTick (spawn w) =
  [mkTimer (nextTimer (host w)) SpawnTick
     (now (host w)
      + (if 2000 - level (eng w) * 200 <? 800 then 800
         else 2000 - level (eng w) * 200)) None].
Proof.
  intros Ha Habs.
  destruct (timers_spawnItem w) as (Et & En & _ & _ & Enow & Elv).
  unfold pending, spawn. rewrite Ha. cbn [negb].
  change (timers (host (let (k, w0) := setTimeout SpawnTick _ (spawnItem w) in
                        upd (set_spawnTimer (Some k)) w0)))
    with (timers (host (spawnItem w))
          ++ [mkTimer (nextTimer (host (spawnItem w))) SpawnTick
                (now (host (spawnItem w))
                 + (if 2000 - level (eng (spawnItem w)) * 200 <? 800 then 800
                    else 2000 - level (eng (spawnItem w)) * 200)) None]).
  rewrite Et, En, Enow, Elv, filter_app.
  fold (pending SpawnTick w). rewrite (pending_nil _ _ Habs). reflexivity.
Qed.

Lemma items_spawn_active (w : World) :
  isGameActive (eng w) = true ->
  items (eng (spawn w)) = items (eng (spawnItem w)).
Proof. intros Ha. rewrite (eng_spawn_active w Ha). reflexivity. Qed.

(** X3. When the spawn timer of a reachable, active engine runs, exactly one
    item is added, numbered by the item counter, and exactly one spawn timer
    is pending afterwards, set for 2000 - 200 * level milliseconds from now.
    Since the level is 1, 2 or 3 that is 1800, 1600 or 1400 ms: the floor of
    800 ms in [startSpawning] is never used. *)
Theorem spawn_tick_cadence (w : World) (t : Timer) :
  reachable w -> isGameActive (eng w) = true ->
  In t (timers (host w)) -> task t = SpawnTick -> due t <= now (host w) ->
  let w' := fireTimer (handle t) w in
  (exists it, items (eng w') = items (eng w) ++ [it]
              /\ id it = itemCounter (eng w))
  /\ pending SpawnTick w' =
       [mkTimer (nextTimer (host w)) SpawnTick
          (now (host w) + (2000 - 200 * level (eng w))) None]
  /\ 1400 <= 2000 - 200 * level (eng w) <= 1800.
Proof.
  intros Hr Ha Hin Ht Hdue. cbv zeta.
  pose proof (reachable_Inv w Hr) as HI. pose proof HI as [[Hd Hf] _].
  pose proof (reachable_Tier w Hr) as HT.
  assert (Hl : 1 <= level (eng w) <= 3)
    by (destruct HT as [(L & _) | [(L & _) | (L & _)]]; lia).
  rewrite Forall_forall in Hf. destruct (Hf t Hin) as (_ & Ho & Hp).
  rewrite Ht in Ho, Hp. cbn [owner] in Ho.
  unfold fireTimer. rewrite (find_by_handle _ t Hd Hin).
  destruct (Z.leb_spec (due t) (now (host w))) as [_|]; [|lia].
  rewrite Hp, Ht. cbn [runTask].
  set (w1 := clearTimer (Some (handle t)) w).
  assert (A1 : absent SpawnTick w1)
    by (subst w1; rewrite <- Ho;
        apply (absent_clear_owner SpawnTick w (proj1 HI))).
  assert (Ha1 : isGameActive (eng w1) = true) by exact Ha.
  split; [|split; [|lia]].
  - rewrite (items_spawn_active w1 Ha1).
    pose proof (spawnItem_items w1) as Hs. cbv zeta in Hs. rewrite Hs.
    eexists. split; reflexivity.
  - rewrite (pending_spawn_active w1 Ha1 A1).
    change (level (eng w1)) with (level (eng w)).
    change (nextTimer (host w1)) with (nextTimer (host w)).
    change (now (host w1)) with (now (host w)).
    destruct (Z.ltb_spec (2000 - level (eng w) * 200) 800) as [Hlt|_]; [lia|].
    replace (2000 - level (eng w) * 200) with (2000 - 200 * level (eng w))
      by lia.
    reflexivity.
Qed.

Lemma spawn_tick_cadence_demo :
  let w := elapse 1800 (idleSession 0) in
  let t := mkTimer 2 SpawnTick 1800 None in
  reachable w
  /\ pending SpawnTick (fireTimer (handle t) w) =
       [mkTimer (nextTimer (host w)) SpawnTick
          (now (host w) + (2000 - 200 * level (eng w))) None].
Proof.
  cbv zeta.
  assert (Hr : reachable (elapse 1800 (idleSession 0)))
    by (apply (reachable_step (Elapse 1800)), idleSession_reachable).
  split; [exact Hr|].
  refine (proj1 (proj2 (spawn_tick_cadence (elapse 1800 (idleSession 0))
                          (mkTimer 2 SpawnTick 1800 None) Hr _ _ _ _))).
  - vm_compute. reflexivity.
  - vm_compute. right. left. reflexivity.
  - reflexivity.
  - vm_compute. discriminate.
Defined.

(** ** A countdown left to itself *)

Lemma log_countdownTick_timeout (w : World) :
  timeLimit (eng w) - 1 <= 0 ->
  exists pre,
    log (countdownTick w) =
    pre ++ emit (eng w) OnGameEnd
             (GameEnd (score (eng w)) (level (eng (countdownTick w))) "Timeout").
Proof.
  intros Ht. rewrite countdownTick_unfold. cbv zeta.
  destruct (Z.leb_spec (timeLimit (eng w) - 1) 0) as [_|]; [|lia].
  destruct ((timeLimit (eng w) - 1 =? 40) || (timeLimit (eng w) - 1 =? 20));
    rewrite log_stop, eng_stop, !app_assoc; eexists; reflexivity.
Qed.

Lemma countdownTicks_S (n : nat) (w : World) :
  countdownTicks (S n) w = countdownTick (countdownTicks n w).
Proof. reflexivity. Qed.

(** X4. Countdown ticks in a row, from a clock that reads a safe integer
    [T] (so that [timeLimit--] is exact), as long as the clock does not go
    below zero: the clock goes down by one per tick,
    the score stays, the level goes up once when the clock passes from above
    40 to 40 and once when it passes from above 20 to 20, the active flag is
    untouched before the clock reaches zero, and the tick that reaches zero
    stops the session and calls the game-end callback last, with the score,
    the level reached and the reason "Timeout". *)
Theorem countdown_runs_out (w : World) (n : nat) :
  let T := timeLimit (eng w) in
  let w' := countdownTicks n w in
  Number_isSafeInteger T = true ->
  Z.of_nat n <= T ->
  timeLimit (eng w') = T - Z.of_nat n
  /\ level (eng w') =
       level (eng w)
       + (if (40 <? T) && (T - Z.of_nat n <=? 40) then 1 else 0)
       + (if (20 <? T) && (T - Z.of_nat n <=? 20) then 1 else 0)
  /\ score (eng w') = score (eng w)
  /\ callbacks (eng w') = callbacks (eng w)
  /\ (Z.of_nat n < T -> isGameActive (eng w') = isGameActive (eng w))
  /\ (0 < T -> Z.of_nat n = T ->
      isGameActive (eng w') = false
      /\ exists pre,
           log w' =
           pre ++ emit (eng w) OnGameEnd
                    (GameEnd (score (eng w)) (level (eng w')) "Timeout")).
Proof.
  cbv zeta. intros _. induction n as [|n IH].
  - intros _. change (countdownTicks 0 w) with w. change (Z.of_nat 0) with 0.
    rewrite !Z.sub_0_r.
    split; [reflexivity|]. split.
    { destruct (Z.ltb_spec 40 (timeLimit (eng w)));
        destruct (Z.leb_spec (timeLimit (eng w)) 40);
        destruct (Z.ltb_spec 20 (timeLimit (eng w)));
        destruct (Z.leb_spec (timeLimit (eng w)) 20); cbn [andb]; lia. }
    split; [reflexivity|]. split; [reflexivity|]. split; [reflexivity|].
    intros H0 E. cbn in E. lia.
  - intros Hn. rewrite countdownTicks_S.
    assert (Hn' : Z.of_nat n <= timeLimit (eng w)) by lia.
    destruct (IH Hn') as (It & Il & Is & Ic & Ia & _).
    assert (Hlt : Z.of_nat n < timeLimit (eng w)) by lia.
    specialize (Ia Hlt).
    set (wn := countdownTicks n w) in *.
    destruct (countdownTick_effect wn)
      as (Et & El & _ & Es & Ea & _ & _ & _ & Ec).
    cbv zeta in Et, El, Es, Ea, Ec.
    assert (Ht' : timeLimit (eng wn) - 1
                  = timeLimit (eng w) - Z.of_nat (S n)) by lia.
    rewrite Ht' in Et, El, Ea.
    split; [exact Et|]. split.
    { rewrite El, Il.
      replace (timeLimit (eng w) - Z.of_nat (S n))
        with (timeLimit (eng w) - Z.of_nat n - 1) by lia.
      destruct (Z.eqb_spec (timeLimit (eng w) - Z.of_nat n - 1) 40);
        destruct (Z.eqb_spec (timeLimit (eng w) - Z.of_nat n - 1) 20);
        destruct (Z.ltb_spec 40 (timeLimit (eng w)));
        destruct (Z.leb_spec (timeLimit (eng w) - Z.of_nat n) 40);
        destruct (Z.leb_spec (timeLimit (eng w) - Z.of_nat n - 1) 40);
        destruct (Z.ltb_spec 20 (timeLimit (eng w)));
        destruct (Z.leb_spec (timeLimit (eng w) - Z.of_nat n) 20);
        destruct (Z.leb_spec (timeLimit (eng w) - Z.of_nat n - 1) 20);
        cbn [andb orb]; lia. }
    split; [rewrite Es; exact Is|]. split; [rewrite Ec; exact Ic|]. split.
    + intros H. rewrite Ea, Ia.
      destruct (Z.leb_spec (timeLimit (eng w) - Z.of_nat (S n)) 0);
        [lia | reflexivity].
    + intros H0 E. split.
      * rewrite Ea.
        destruct (Z.leb_spec (timeLimit (eng w) - Z.of_nat (S n)) 0);
          [reflexivity | lia].
      * assert (Hz' : timeLimit (eng wn) - 1 <= 0) by lia.
        destruct (log_countdownTick_timeout wn Hz') as (pre & Hlog).
        exists pre. rewrite Hlog. unfold emit. rewrite Ic, Is. reflexivity.
Qed.

Lemma countdown_runs_out_demo :
  timeLimit (eng (idleSession 0)) = 60
  /\ timeLimit (eng (countdownTicks 60 (idleSession 0))) = 60 - 60
  /\ level (eng (countdownTicks 60 (idleSession 0))) =
       level (eng (idleSession 0)) + 1 + 1
  /\ isGameActive (eng (countdownTicks 60 (idleSession 0))) = false.
Proof.
  assert (E : timeLimit (eng (idleSession 0)) = 60) by (vm_compute; reflexivity).
  assert (Hn : Z.of_nat 60 <= timeLimit (eng (idleSession 0)))
    by (rewrite E; vm_compute; discriminate).
  assert (Hs : Number_isSafeInteger (timeLimit (eng (idleSession 0))) = true)
    by (rewrite E; vm_compute; reflexivity).
  destruct (countdown_runs_out (idleSession 0) 60 Hs Hn)
    as (H1 & H2 & _ & _ & _ & H3).
  rewrite E in H1, H2.
  assert (H0 : 0 < timeLimit (eng (idleSession 0))) by (rewrite E; reflexivity).
  destruct (H3 H0 (eq_sym E)) as (H4 & _).
  split; [exact E|]. split; [exact H1|]. split; [exact H2 | exact H4].
Defined.

(** ** [start] *)

Lemma spawn_active_parts (w : World) :
  isGameActive (eng w) = true ->
  timers (host (spawn w)) =
    timers (host w)
    ++ [mkTimer (nextTimer (host w)) SpawnTick
          (now (host w)
           + (if 2000 - level (eng w) * 200 <? 800 then 800
              else 2000 - level (eng w) * 200)) None]
  /\ frames (host (spawn w)) = frames (host w)
  /\ nextFrame (host (spawn w)) = nextFrame (host w)
  /\ log (spawn w) = log (spawnItem w).
Proof.
  intros Ha.
  destruct (timers_spawnItem w) as (Et & En & _ & _ & Enow & Elv).
  unfold spawn. rewrite Ha. cbn [negb].
  change (timers (host (let (k, w0) := setTimeout SpawnTick _ (spawnItem w) in
                        upd (set_spawnTimer (Some k)) w0)))
    with (timers (host (spawnItem w))
          ++ [mkTimer (nextTimer (host (spawnItem w))) SpawnTick
                (now (host (spawnItem w))
                 + (if 2000 - level (eng (spawnItem w)) * 200 <? 800 then 800
                    else 2000 - level (eng (spawnItem w)) * 200)) None]).
  rewrite Et, En, Enow, Elv. split; [reflexivity|].
  unfold spawnItem. cbn [Math_random host entropy draws eng].
  destruct (itemProbabilities _). repeat split.
Qed.

Lemma log_spawnItem (w : World) :
  exists it,
    items (eng (spawnItem w)) = items (eng w) ++ [it]
    /\ id it = itemCounter (eng w) /\ y it = 0%float
    /\ log (spawnItem w) = log w ++ emit (eng w) OnItemSpawn (ItemSpawn it).
Proof.
  unfold spawnItem. cbn [Math_random host entropy draws eng].
  destruct (itemProbabilities _) as [ty pts]. eexists.
  split; [reflexivity|]. split; [reflexivity|]. split; reflexivity.
Qed.

Lemma pending_tail (k : Task) (w : World) (ts l : list Timer) :
  timers (host w) = ts ++ l -> Forall (fun x => task x <> k) ts ->
  pending k w = filter (fun x => Task_eqb (task x) k) l.
Proof.
  intros E H. unfold pending. rewrite E, filter_app. clear E.
  assert (F : filter (fun x => Task_eqb (task x) k) ts = []).
  { induction H as [|x ts Hx _ IH]; cbn; [reflexivity|].
    destruct (Task_eqb (task x) k) eqn:Ek; [|exact IH].
    apply Task_eqb_eq in Ek. contradiction. }
  rewrite F. reflexivity.
Qed.

(** X5. [start] on a stopped engine with a tidy timer table opens a fresh
    session: active, score 0, level 1, the clock at the configured limit
    (60 when it is absent or 0, any other value as given), basket in the
    centre, base speed 0.3, no effect.  The item list holds exactly the one
    item just spawned; exactly one countdown interval (every 1000 ms) and
    one spawn timer (in 1800 ms) are pending and no expiry; one animation
    frame is requested on top of whatever frames were pending; the callbacks
    get three effect-change notifications and the item-spawn notification. *)
Theorem start_fresh_session (c : option Z) (w : World) :
  Inv w -> isGameActive (eng w) = false ->
  let w' := start c w in
  (isGameActive (eng w') = true /\ score (eng w') = 0 /\ level (eng w') = 1
   /\ timeLimit (eng w') =
        match c with Some t => if t =? 0 then 60 else t | None => 60 end
   /\ baseSpeed (eng w') = 0.3%float /\ basketPosition (eng w') = Center
   /\ hasShield (eng w') = false /\ isMagnetActive (eng w') = false
   /\ isTimeSlowActive (eng w') = false)
  /\ pending CountdownTick w' =
       [mkTimer (nextTimer (host w)) CountdownTick (now (host w) + 1000)
                (Some 1000)]
  /\ pending SpawnTick w' =
       [mkTimer (Pos.succ (nextTimer (host w))) SpawnTick
                (now (host w) + 1800) None]
  /\ pending MagnetExpiry w' = []
  /\ pending TimeSlowExpiry w' = []
  /\ frames (host w') = frames (host w) ++ [nextFrame (host w)]
  /\ exists it,
       items (eng w') = [it] /\ id it = itemCounter (eng w)
       /\ y it = 0%float
       /\ log w' =
            log w
            ++ emit (eng w) OnEffectChange
                 (EffectChange false false (isTimeSlowActive (eng w)))
            ++ emit (eng w) OnEffectChange (EffectChange false false false)
            ++ emit (eng w) OnEffectChange (EffectChange false false false)
            ++ emit (eng w) OnItemSpawn (ItemSpawn it).
Proof.
  intros HI Ha. cbv zeta.
  destruct (start_effect c w Ha)
    as (F1 & F2 & F3 & F4 & F5 & F6 & F7 & F8 & F9 & _).
  cbv zeta in *.
  split; [repeat split; assumption|]. clear F1 F2 F3 F4 F5 F6 F7 F8 F9.
  destruct (start_unfold c w Ha)
    as (w5 & -> & B1 & _ & B3 & _ & _ & _ & _ & _ & _ & B10 & B11 & B12
        & Ht & En & Enow & Efr & Enf & Elog).
  destruct (spawn_active_parts w5 B1) as (St & Sf & Snf & Slog).
  rewrite B3, En, Enow in St. cbn in St.
  destruct HI as [H0 Hq]. destruct (Hq Ha) as [Ac As].
  set (W := without (timeSlowTimer (eng w))
              (without (magnetTimer (eng w)) (timers (host w)))) in *.
  assert (Wc : Forall (fun x => task x <> CountdownTick) W)
    by (subst W; do 2 apply without_Forall; exact Ac).
  assert (Ws : Forall (fun x => task x <> SpawnTick) W)
    by (subst W; do 2 apply without_Forall; exact As).
  assert (Wm : Forall (fun x => task x <> MagnetExpiry) W).
  { subst W. apply without_Forall.
    exact (absent_clear_owner MagnetExpiry w H0). }
  assert (Wt : Forall (fun x => task x <> TimeSlowExpiry) W).
  { subst W.
    exact (absent_clear_owner TimeSlowExpiry
             (clearTimer (magnetTimer (eng w)) w)
             (Inv0_clearTimer _ _ H0)). }
  assert (Tall : timers (host (startGameLoop (spawn w5))) =
                 W ++ [mkTimer (nextTimer (host w)) CountdownTick
                         (now (host w) + 1000) (Some 1000);
                       mkTimer (Pos.succ (nextTimer (host w))) SpawnTick
                         (now (host w) + 1800) None]).
  { change (timers (host (startGameLoop (spawn w5))))
      with (timers (host (spawn w5))).
    rewrite St, Ht, <- app_assoc. reflexivity. }
  split; [rewrite (pending_tail _ _ _ _ Tall Wc); reflexivity|].
  split; [rewrite (pending_tail _ _ _ _ Tall Ws); reflexivity|].
  split; [rewrite (pending_tail _ _ _ _ Tall Wm); reflexivity|].
  split; [rewrite (pending_tail _ _ _ _ Tall Wt); reflexivity|].
  split.
  { change (frames (host (startGameLoop (spawn w5))))
      with (frames (host (spawn w5)) ++ [nextFrame (host (spawn w5))]).
    rewrite Sf, Snf, Efr, Enf. reflexivity. }
  destruct (log_spawnItem w5) as (it & Hi & Hid & Hy & Hl).
  exists it.
  rewrite eng_startGameLoop. cbn [items set_gameLoopId].
  rewrite (items_spawn_active w5 B1), Hi, B12, Hid, B10.
  split; [reflexivity|]. split; [reflexivity|]. split; [exact Hy|].
  change (log (startGameLoop (spawn w5))) with (log (spawn w5)).
  rewrite Slog, Hl, Elog. unfold emit. rewrite B11, <- !app_assoc. reflexivity.
Qed.

Lemma start_fresh_session_demo :
  Inv stoppedSession /\ isGameActive (eng stoppedSession) = false
  /\ score (eng (start None stoppedSession)) = 0
  /\ timeLimit (eng (start None stoppedSession)) = 60
  /\ pending MagnetExpiry (start None stoppedSession) = [].
Proof.
  pose proof (reachable_Inv _ stoppedSession_reachable) as HI.
  assert (Ha : isGameActive (eng stoppedSession) = false) by reflexivity.
  destruct (start_fresh_session None stoppedSession HI Ha)
    as ((_ & H1 & _ & H2 & _) & _ & _ & H3 & _).
  split; [exact HI|]. split; [exact Ha|]. split; [exact H1|].
  split; [exact H2 | exact H3].
Defined.

Lemma start_active (c : option Z) (w : World) :
  isGameActive (eng (start c w)) = true.
Proof.
  destruct (isGameActive (eng w)) eqn:Ha.
  - unfold start. rewrite Ha. exact Ha.
  - apply (start_effect c w Ha).
Qed.

(** X6. [start] guards against a double start: on an active engine it does
    nothing, so a second [start], whatever its configuration, leaves the
    session that the first one opened untouched (nothing is reset, no timer
    or frame is added, no callback is called). *)
Theorem start_twice (c1 c2 : option Z) (w : World) :
  start c2 (start c1 w) = start c1 w.
Proof.
  pose proof (start_active c1 w) as H.
  generalize dependent (start c1 w). intros w1 H.
  unfold start. rewrite H. reflexivity.
Qed.

(** ** The basket lane *)

Lemma Lane_of_string_None (p : string) :
  p <> "Left"%string -> p <> "Center"%string -> p <> "Right"%string ->
  Lane_of_string p = None.
Proof.
  intros H1 H2 H3. unfold Lane_of_string.
  apply String.eqb_neq in H1, H2, H3. rewrite H1, H2, H3. reflexivity.
Qed.

Lemma basket_fireTimer (k : positive) (w : World) :
  basketPosition (eng (fireTimer k w)) = basketPosition (eng w).
Proof.
  destruct (fireTimer_cases k w) as [-> | (w1 & E & _ & Hc)]; [reflexivity|].
  rewrite <- E. destruct Hc as [-> | [-> | [-> | ->]]].
  - apply (countdownTick_effect w1).
  - apply (spawn_effect w1).
  - reflexivity.
  - reflexivity.
Qed.

(** X7. The basket lane changes in two ways only.  [onPoseDetected] on an
    active engine with one of the strings "Left", "Center", "Right" puts the
    basket in that lane and calls the basket-move callback with it; on a
    stopped engine, or with any other string, it changes nothing at all.
    [start] on a stopped engine puts the basket in the centre.  No other
    action (stop, timers, frames, setters, time passing, [start] on an
    active engine) moves the basket. *)
Theorem basket_lane_changes (w : World) :
  (forall p l, isGameActive (eng w) = true -> Lane_of_string p = Some l ->
     basketPosition (eng (onPoseDetected p w)) = l
     /\ log (onPoseDetected p w) =
          log w ++ emit (eng w) OnBasketMove (BasketMove l)
     /\ host (onPoseDetected p w) = host w
     /\ eng (onPoseDetected p w) = set_basketPosition l (eng w))
  /\ (forall p, isGameActive (eng w) = false -> onPoseDetected p w = w)
  /\ (forall p, p <> "Left"%string -> p <> "Center"%string ->
                p <> "Right"%string -> onPoseDetected p w = w)
  /\ (forall c, basketPosition (eng (start c w)) =
                if isGameActive (eng w) then basketPosition (eng w)
                else Center)
  /\ (forall a, (forall c, a <> CallStart c) ->
                (forall p, a <> CallOnPoseDetected p) ->
                basketPosition (eng (step a w)) = basketPosition (eng w)).
Proof.
  split; [|split; [|split; [|split]]].
  - intros p l Ha Hl. unfold onPoseDetected. rewrite Ha, Hl. cbn [negb].
    repeat split.
  - intros p Ha. unfold onPoseDetected. rewrite Ha. reflexivity.
  - intros p H1 H2 H3. unfold onPoseDetected.
    rewrite (Lane_of_string_None p H1 H2 H3).
    destruct (isGameActive (eng w)); reflexivity.
  - intros c. destruct (isGameActive (eng w)) eqn:Ha.
    + unfold start. rewrite Ha. reflexivity.
    + apply (start_effect c w Ha).
  - intros a Hs Hp. destruct a as [c|r|p|s b|k|k|dt]; cbn [step].
    + exfalso. apply (Hs c). reflexivity.
    + rewrite eng_stop. reflexivity.
    + exfalso. apply (Hp p). reflexivity.
    + reflexivity.
    + apply basket_fireTimer.
    + apply (sameSession_fireFrame k w).
    + reflexivity.
Qed.

Lemma basket_lane_changes_demo :
  isGameActive (eng magnetSession) = true
  /\ basketPosition (eng (onPoseDetected "Left" magnetSession)) = Left
  /\ onPoseDetected "Up" magnetSession = magnetSession
  /\ onPoseDetected "Left" stoppedSession = stoppedSession.
Proof.
  assert (Ha : isGameActive (eng magnetSession) = true)
    by (vm_compute; reflexivity).
  assert (Hs : isGameActive (eng stoppedSession) = false) by reflexivity.
  destruct (basket_lane_changes magnetSession) as (H1 & _ & H3 & _).
  destruct (basket_lane_changes stoppedSession) as (_ & H2 & _).
  destruct (H1 "Left"%string Left Ha eq_refl) as (A & _).
  split; [exact Ha|]. split; [exact A|]. split.
  - apply H3; discriminate.
  - apply H2, Hs.
Defined.

(** ** Shield and Bomb *)

Lemma handleCatch_Shield (it : Item) (w : World) :
  type it = Shield ->
  handleCatch it w = notifyEffects (upd (set_hasShield true) w).
Proof. intros H. unfold handleCatch. rewrite H. reflexivity. Qed.

Lemma handleCatch_Bomb_shielded (it : Item) (w : World) :
  type it = Bomb -> hasShield (eng w) = true ->
  handleCatch it w = notifyEffects (upd (set_hasShield false) w).
Proof. intros H Hs. unfold handleCatch. rewrite H, Hs. reflexivity. Qed.

Lemma handleCatch_Bomb_bare (it : Item) (w : World) :
  type it = Bomb -> hasShield (eng w) = false ->
  handleCatch it w = stop "Bomb" w.
Proof. intros H Hs. unfold handleCatch. rewrite H, Hs. reflexivity. Qed.

(** X8. Shields do not add up: after two Shield items caught in a row, the
    first Bomb caught uses the Shield up (score and active flag as before),
    and the next Bomb ends the session like a Bomb caught with no Shield at
    all. *)
Theorem shields_do_not_stack (w : World) (s1 s2 b1 b2 : Item) :
  type s1 = Shield -> type s2 = Shield -> type b1 = Bomb -> type b2 = Bomb ->
  let w2 := handleCatch s2 (handleCatch s1 w) in
  let w3 := handleCatch b1 w2 in
  hasShield (eng w2) = true
  /\ hasShield (eng w3) = false
  /\ isGameActive (eng w3) = isGameActive (eng w)
  /\ score (eng w3) = score (eng w)
  /\ handleCatch b2 w3 = stop "Bomb" w3
  /\ isGameActive (eng (handleCatch b2 w3)) = false.
Proof.
  intros H1 H2 H3 H4. cbv zeta.
  rewrite (handleCatch_Shield s1 w H1).
  rewrite (handleCatch_Shield s2 _ H2).
  set (w2 := notifyEffects (upd (set_hasShield true) _)).
  assert (E2 : hasShield (eng w2) = true) by reflexivity.
  assert (A2 : isGameActive (eng w2) = isGameActive (eng w)) by reflexivity.
  assert (S2 : score (eng w2) = score (eng w)) by reflexivity.
  clearbody w2.
  rewrite (handleCatch_Bomb_shielded b1 w2 H3 E2).
  set (w3 := notifyEffects (upd (set_hasShield false) w2)).
  assert (E3 : hasShield (eng w3) = false) by reflexivity.
  assert (A3 : isGameActive (eng w3) = isGameActive (eng w2)) by reflexivity.
  assert (S3 : score (eng w3) = score (eng w2)) by reflexivity.
  clearbody w3.
  rewrite (handleCatch_Bomb_bare b2 w3 H4 E3).
  split; [exact E2|]. split; [exact E3|].
  split; [rewrite A3; exact A2|]. split; [rewrite S3; exact S2|].
  split; [reflexivity|]. rewrite eng_stop. reflexivity.
Qed.

Lemma shields_do_not_stack_demo :
  let shield := mkItem 11 Shield 0 (Some Center) 85%float 0.3%float 0.3%float in
  hasShield (eng (handleCatch bombItem
                    (handleCatch shield (handleCatch shield magnetSession))))
    = false
  /\ isGameActive
       (eng (handleCatch bombItem
               (handleCatch bombItem
                  (handleCatch shield (handleCatch shield magnetSession)))))
     = false.
Proof.
  cbv zeta.
  destruct (shields_do_not_stack magnetSession
              (mkItem 11 Shield 0 (Some Center) 85%float 0.3%float 0.3%float)
              (mkItem 11 Shield 0 (Some Center) 85%float 0.3%float 0.3%float)
              bombItem bombItem eq_refl eq_refl eq_refl eq_refl)
    as (_ & H1 & _ & _ & _ & H2).
  split; [exact H1 | exact H2].
Defined.

(** X9. A Bomb in a lane other than the basket's is never caught, whatever
    effects are active: the advance of a tick leaves it in its lane (Magnet
    does not pull it) and the filter either keeps it, engine untouched, or
    drops it as missed with the item-removed callback only.  (The engine
    that filters may differ from the one that advanced, as long as the
    basket is in the same lane.) *)
Theorem bomb_in_other_lane_is_safe (w w1 : World) (it : Item) :
  type it = Bomb -> lane it <> Some (basketPosition (eng w)) ->
  basketPosition (eng w1) = basketPosition (eng w) ->
  let it' := moveItem (eng w) it in
  lane it' = lane it /\ type it' = Bomb /\ id it' = id it
  /\ (keepItem it' w1 = (true, w1)
      \/ keepItem it' w1 =
         (false, notify OnItemRemove (ItemRemove (id it)) w1)).
Proof.
  intros Ht Hl Hb. cbv zeta.
  assert (Hm : moveItem (eng w) it
               = set_y (y it + (if isTimeSlowActive (eng w)
                                then originalSpeed it * 0.5
                                else originalSpeed it))%float it).
  { unfold moveItem. cbv zeta. cbn [type set_y]. rewrite Ht.
    change (collectible Bomb) with false. rewrite !andb_false_r. reflexivity. }
  rewrite Hm. cbn [lane type id set_y].
  split; [reflexivity|]. split; [exact Ht|]. split; [reflexivity|].
  unfold keepItem. cbn [y id type set_y]. rewrite Ht.
  change (collectible Bomb) with false. rewrite andb_false_r.
  assert (Hn : inBasketLane (eng w1)
                 (set_y (y it + (if isTimeSlowActive (eng w)
                                 then originalSpeed it * 0.5
                                 else originalSpeed it))%float it) = false).
  { destruct (inBasketLane _ _) eqn:E; [|reflexivity].
    apply inBasketLane_spec in E. cbn [lane set_y] in E. rewrite Hb in E.
    contradiction. }
  rewrite Hn.
  destruct (100 <? _)%float; [right; reflexivity|].
  destruct ((80 <? _)%float && (_ <? 95)%float); left; reflexivity.
Qed.

Lemma bomb_in_other_lane_is_safe_demo :
  let bomb := mkItem 12 Bomb 0 (Some Left) 84.8%float 0.3%float 0.3%float in
  basketPosition (eng magnetSession) = Center
  /\ isMagnetActive (eng magnetSession) = true
  /\ lane (moveItem (eng magnetSession) bomb) = Some Left.
Proof.
  cbv zeta.
  assert (Hb : basketPosition (eng magnetSession) = Center)
    by (vm_compute; reflexivity).
  assert (Hm : isMagnetActive (eng magnetSession) = true)
    by (vm_compute; reflexivity).
  assert (Hl : lane (mkItem 12 Bomb 0 (Some Left) 84.8%float 0.3%float
                            0.3%float)
               <> Some (basketPosition (eng magnetSession)))
    by (rewrite Hb; discriminate).
  destruct (bomb_in_other_lane_is_safe magnetSession magnetSession
              (mkItem 12 Bomb 0 (Some Left) 84.8%float 0.3%float 0.3%float)
              eq_refl Hl eq_refl) as (H1 & _).
  split; [exact Hb|]. split; [exact Hm | exact H1].
Defined.

(** ** The items of a reachable engine *)

Lemma moveItem_keeps (g : GameEngine) (it : Item) :
  id (moveItem g it) = id it /\ type (moveItem g it) = type it
  /\ points (moveItem g it) = points it
  /\ originalSpeed (moveItem g it) = originalSpeed it
  /\ speed (moveItem g it) = speed it.
Proof.
  unfold moveItem. cbv zeta.
  match goal with |- context [if ?c then _ else _] => destruct c end;
    [destruct (negb _)|]; repeat split.
Qed.

Lemma items_stop (reason : string) (w : World) :
  items (eng (stop reason w)) = items (eng w).
Proof. rewrite eng_stop. reflexivity. Qed.

Lemma items_handleCatch (it : Item) (w : World) :
  items (eng (handleCatch it w)) = items (eng w).
Proof.
  unfold handleCatch. destruct (type it); try reflexivity.
  destruct (hasShield (eng w)); [reflexivity | apply items_stop].
Qed.

Lemma filterItems_incl (its : list Item) (w : World) (it : Item) :
  In it (fst (filterItems its w)) -> In it its.
Proof.
  revert w. induction its as [|x its IH]; intros w; cbn [filterItems];
    [trivial|].
  destruct (keepItem x w) as [keep w1]. specialize (IH w1).
  destruct (filterItems its w1) as [kept w2]. cbn [fst] in *.
  destruct keep; cbn [In]; intros H; [destruct H as [H|H]|]; auto.
Qed.

Lemma removedIds_app (l1 l2 : list Notification) :
  removedIds (l1 ++ l2) = removedIds l1 ++ removedIds l2.
Proof.
  induction l1 as [|n l1 IH]; cbn; [reflexivity|].
  destruct n; cbn; rewrite IH; reflexivity.
Qed.

Lemma removedIds_emit_other (g : GameEngine) (s : Slot) (n : Notification) :
  (forall i, n <> ItemRemove i) -> removedIds (emit g s n) = [].
Proof.
  intros H. unfold emit. destruct (callbacks g s); [|reflexivity].
  destruct n; try reflexivity. exfalso. apply (H item_id). reflexivity.
Qed.

Lemma removedIds_handleCatch (it : Item) (w : World) :
  removedIds (log (handleCatch it w)) = removedIds (log w).
Proof.
  unfold handleCatch. destruct (type it).
  - cbn [addScore log notify]. rewrite removedIds_app,
      removedIds_emit_other, app_nil_r by discriminate. reflexivity.
  - cbn [addScore log notify]. rewrite removedIds_app,
      removedIds_emit_other, app_nil_r by discriminate. reflexivity.
  - destruct (hasShield (eng w)).
    + cbn [notifyEffects log notify]. rewrite removedIds_app,
        removedIds_emit_other, app_nil_r by discriminate. reflexivity.
    + rewrite log_stop, !removedIds_app.
      rewrite !removedIds_emit_other by discriminate.
      rewrite !app_nil_r. reflexivity.
  - cbn [notifyEffects log notify]. rewrite removedIds_app,
      removedIds_emit_other, app_nil_r by discriminate. reflexivity.
  - change (log (activateMagnet w))
      with (log w ++ emit (eng w) OnEffectChange
                       (EffectChange (hasShield (eng w)) true
                                     (isTimeSlowActive (eng w)))).
    rewrite removedIds_app, removedIds_emit_other, app_nil_r by discriminate.
    reflexivity.
  - change (log (activateTimeSlow w))
      with (log w ++ emit (eng w) OnEffectChange
                       (EffectChange (hasShield (eng w))
                                     (isMagnetActive (eng w)) true)).
    rewrite removedIds_app, removedIds_emit_other, app_nil_r by discriminate.
    reflexivity.
Qed.

Lemma removedIds_keepItem (it : Item) (w : World) :
  removedIds (log (snd (keepItem it w))) =
  removedIds (log w)
  ++ (if fst (keepItem it w) then []
      else if callbacks (eng w) OnItemRemove then [id it] else []).
Proof.
  assert (Hc : forall w0, callbacks (eng w0) = callbacks (eng w) ->
             removedIds (log (notify OnItemRemove (ItemRemove (id it)) w0)) =
             removedIds (log w0)
             ++ (if callbacks (eng w) OnItemRemove then [id it] else [])).
  { intros w0 E. cbn [log notify]. rewrite removedIds_app. unfold emit.
    rewrite E. destruct (callbacks (eng w) OnItemRemove); reflexivity. }
  assert (Hh : removedIds
                 (log (notify OnItemRemove (ItemRemove (id it))
                         (handleCatch it w))) =
               removedIds (log w)
               ++ (if callbacks (eng w) OnItemRemove then [id it] else [])).
  { rewrite Hc; [rewrite removedIds_handleCatch; reflexivity|].
    apply (sameSession_handleCatch it w). }
  unfold keepItem.
  destruct (100 <? y it)%float; [cbn [fst snd]; apply Hc; reflexivity|].
  destruct ((80 <? y it)%float && (y it <? 95)%float);
    [|cbn [fst snd]; rewrite app_nil_r; reflexivity].
  cbv zeta.
  destruct (isMagnetActive (eng w) && collectible (type it));
    [cbn [fst snd]; exact Hh|].
  destruct (inBasketLane (eng w) it); cbn [fst snd];
    [exact Hh | rewrite app_nil_r; reflexivity].
Qed.

Lemma removedIds_filterItems (its : list Item) (w : World) :
  exists R,
    Permutation (map id its) (map id (fst (filterItems its w)) ++ R)
    /\ removedIds (log (snd (filterItems its w))) =
       removedIds (log w)
       ++ (if callbacks (eng w) OnItemRemove then R else []).
Proof.
  revert w. induction its as [|it its IH]; intros w; cbn [filterItems].
  - exists []. split; [constructor|].
    cbn [fst snd]. destruct (callbacks _ _); rewrite app_nil_r; reflexivity.
  - pose proof (removedIds_keepItem it w) as Hk.
    pose proof (sameSession_keepItem it w) as Hs.
    destruct (keepItem it w) as [keep w1]. cbn [fst snd] in Hk, Hs.
    destruct (IH w1) as (R & HP & HR).
    destruct (filterItems its w1) as [kept w2]. cbn [fst snd] in *.
    assert (Ec : callbacks (eng w1) OnItemRemove
                 = callbacks (eng w) OnItemRemove)
      by (destruct Hs as (_ & _ & _ & _ & _ & ->); reflexivity).
    rewrite Ec, Hk in HR. destruct keep.
    + exists R. split; [cbn [map app]; constructor; exact HP|].
      rewrite HR, app_nil_r. reflexivity.
    + exists (id it :: R). split.
      * cbn [map]. apply Permutation_cons_app. exact HP.
      * rewrite HR, <- app_assoc.
        destruct (callbacks (eng w) OnItemRemove); reflexivity.
Qed.

Lemma ItemsInv_same (g g' : GameEngine) :
  items g' = items g -> itemCounter g' = itemCounter g ->
  ItemsInv g -> ItemsInv g'.
Proof. unfold ItemsInv. intros -> ->. trivial. Qed.

Lemma wellFormed_spawned (rand : float) (l : option Lane) (n : nat)
    (y0 sp : float) :
  wellFormed (mkItem n (fst (itemProbabilities rand))
                     (snd (itemProbabilities rand)) l y0 sp sp).
Proof.
  unfold wellFormed, itemProbabilities. cbn [points type speed originalSpeed].
  repeat (match goal with |- context [if ?c then _ else _] => destruct c end;
          [split; reflexivity|]).
  split; reflexivity.
Qed.

Lemma ItemsInv_spawnItem (w : World) :
  ItemsInv (eng w) -> ItemsInv (eng (spawnItem w)).
Proof.
  intros [Hd Hf]. unfold ItemsInv.
  pose proof (spawnItem_items w) as Hi. cbv zeta in Hi. rewrite Hi.
  destruct (spawnItem_effect w) as (_ & _ & _ & _ & _ & _ & Hc & _).
  cbv zeta in Hc. rewrite Hc. split.
  - rewrite map_app. cbn [map id].
    apply NoDup_app; [exact Hd | repeat constructor; auto |].
    intros n Hin [E|[]]. subst n. apply in_map_iff in Hin.
    destruct Hin as (x & Hx & Hin). rewrite Forall_forall in Hf.
    destruct (Hf x Hin) as (Hlt & _). lia.
  - apply Forall_app. split.
    + eapply Forall_impl; [|exact Hf]. intros x [Hlt Hw]. split; [lia | exact Hw].
    + constructor; [|constructor].
      split; [cbn [id]; lia | apply wellFormed_spawned].
Qed.

Lemma ItemsInv_spawn (w : World) : ItemsInv (eng w) -> ItemsInv (eng (spawn w)).
Proof.
  intros H. destruct (isGameActive (eng w)) eqn:Ha.
  - rewrite (eng_spawn_active w Ha). apply ItemsInv_spawnItem in H.
    revert H. apply ItemsInv_same; reflexivity.
  - unfold spawn. rewrite Ha. exact H.
Qed.

Lemma items_updatePhysics (w : World) :
  let moved := map (moveItem (eng w)) (items (eng w)) in
  let w1 := upd (set_items moved) w in
  items (eng (updatePhysics w)) = fst (filterItems moved w1)
  /\ removedIds (log (updatePhysics w)) =
     removedIds (log (snd (filterItems moved w1))).
Proof.
  cbv zeta. unfold updatePhysics. cbv zeta.
  change (upd (fun g => set_items (map (moveItem g) (items g)) g) w)
    with (upd (set_items (map (moveItem (eng w)) (items (eng w)))) w).
  change (items (eng (upd (set_items (map (moveItem (eng w)) (items (eng w))))
                          w)))
    with (map (moveItem (eng w)) (items (eng w))).
  destruct (filterItems _ _) as [kept w2]. cbn [fst snd].
  split; [reflexivity|].
  cbn [log notify]. rewrite removedIds_app, removedIds_emit_other, app_nil_r
    by discriminate.
  reflexivity.
Qed.

Lemma map_id_moveItem (g : GameEngine) (its : list Item) :
  map id (map (moveItem g) its) = map id its.
Proof.
  rewrite map_map. apply map_ext. intros it. apply moveItem_keeps.
Qed.

Lemma ItemsInv_updatePhysics (w : World) :
  ItemsInv (eng w) -> ItemsInv (eng (updatePhysics w)).
Proof.
  intros [Hd Hf]. unfold ItemsInv.
  destruct (items_updatePhysics w) as [Hi _]. cbv zeta in Hi. rewrite Hi.
  destruct (sameSession_updatePhysics w) as (_ & _ & _ & _ & Hc & _).
  rewrite Hc.
  set (moved := map (moveItem (eng w)) (items (eng w))).
  set (w1 := upd (set_items moved) w).
  destruct (removedIds_filterItems moved w1) as (R & HP & _).
  split.
  - assert (Hn : NoDup (map id (fst (filterItems moved w1)) ++ R)).
    { eapply Permutation_NoDup; [exact HP|].
      subst moved. rewrite map_id_moveItem. exact Hd. }
    apply NoDup_app_remove_r in Hn. exact Hn.
  - apply Forall_forall. intros it Hin. apply filterItems_incl in Hin.
    subst moved. apply in_map_iff in Hin. destruct Hin as (it0 & <- & Hin0).
    rewrite Forall_forall in Hf. destruct (Hf it0 Hin0) as (Hlt & Hp & Hs).
    destruct (moveItem_keeps (eng w) it0) as (E1 & E2 & E3 & E4 & E5).
    unfold wellFormed. rewrite E1, E2, E3, E4, E5. auto.
Qed.

Lemma ItemsInv_fireFrame (k : positive) (w : World) :
  ItemsInv (eng w) -> ItemsInv (eng (fireFrame k w)).
Proof.
  intros H. unfold fireFrame. destruct (existsb _ _); [|exact H].
  unfold loop. destruct (isGameActive (eng (cancelAnimationFrame (Some k) w)));
    cbn [negb]; [|exact H].
  apply (ItemsInv_updatePhysics (cancelAnimationFrame (Some k) w)) in H.
  revert H. apply ItemsInv_same; reflexivity.
Qed.

Lemma ItemsInv_fireTimer (k : positive) (w : World) :
  ItemsInv (eng w) -> ItemsInv (eng (fireTimer k w)).
Proof.
  intros H. destruct (fireTimer_cases k w) as [-> | (w1 & E & _ & Hc)];
    [exact H|].
  rewrite <- E in H. destruct Hc as [-> | [-> | [-> | ->]]].
  - destruct (countdownTick_effect w1) as (_ & _ & _ & _ & _ & _ & Ec & Ei & _).
    revert H. apply ItemsInv_same; assumption.
  - apply ItemsInv_spawn, H.
  - exact H.
  - exact H.
Qed.

Lemma ItemsInv_start (c : option Z) (w : World) :
  ItemsInv (eng w) -> ItemsInv (eng (start c w)).
Proof.
  intros H. destruct (isGameActive (eng w)) eqn:Ha.
  - unfold start. rewrite Ha. exact H.
  - destruct (start_unfold c w Ha)
      as (w5 & -> & _ & _ & _ & _ & _ & _ & _ & _ & _ & B10 & _ & B12 & _).
    rewrite eng_startGameLoop.
    assert (H5 : ItemsInv (eng w5))
      by (unfold ItemsInv; rewrite B12; split; constructor).
    apply ItemsInv_spawn in H5. revert H5. apply ItemsInv_same; reflexivity.
Qed.

Lemma ItemsInv_step (a : Action) (w : World) :
  ItemsInv (eng w) -> ItemsInv (eng (step a w)).
Proof.
  intros H. destruct a as [c|r|p|s b|k|k|dt]; cbn [step].
  - apply ItemsInv_start, H.
  - rewrite eng_stop. exact H.
  - unfold onPoseDetected. destruct (isGameActive (eng w)); cbn [negb];
      [|exact H].
    destruct (Lane_of_string p); exact H.
  - exact H.
  - apply ItemsInv_fireTimer, H.
  - apply ItemsInv_fireFrame, H.
  - exact H.
Qed.

Lemma reachable_ItemsInv (w : World) : reachable w -> ItemsInv (eng w).
Proof.
  induction 1 as [rnd t0 | a w _ IH]; [|apply ItemsInv_step, IH].
  split; constructor.
Qed.

(** X10. In every reachable state the items on the track have pairwise
    distinct ids, all below the item counter (so a later spawn cannot reuse
    one, also across sessions: [start] empties the track but keeps the
    counter), and are as [spawnItem] made them: 100 points for an Apple, 200
    for a Banana, 0 otherwise, and both speed fields equal. *)
Theorem reachable_items_distinct (w : World) :
  reachable w ->
  NoDup (map id (items (eng w)))
  /\ (forall it, In it (items (eng w)) ->
        (id it < itemCounter (eng w))%nat
        /\ points it =
             match type it with Apple => 100 | Banana => 200 | _ => 0 end
        /\ speed it = originalSpeed it).
Proof.
  intros H. destruct (reachable_ItemsInv w H) as [Hd Hf].
  split; [exact Hd|]. intros it Hin. rewrite Forall_forall in Hf.
  destruct (Hf it Hin) as (H1 & H2 & H3). auto.
Qed.

Lemma reachable_items_distinct_demo :
  reachable crowdedSession
  /\ List.length (items (eng crowdedSession)) = 3%nat
  /\ NoDup (map id (items (eng crowdedSession))).
Proof.
  split; [exact crowdedSession_reachable|].
  split; [vm_compute; reflexivity|].
  exact (proj1 (reachable_items_distinct _ crowdedSession_reachable)).
Defined.

(** X11. A physics tick accounts for every item exactly once: the ids on
    the track before the tick are, up to order, the ids still on the track
    after it together with the ids the tick dropped, and when the
    item-removed callback is set it is called with exactly the dropped ids
    (without the callback it is not called at all). *)
Theorem updatePhysics_removes_once (w : World) :
  exists dropped : list nat,
    Permutation (map id (items (eng w)))
                (map id (items (eng (updatePhysics w))) ++ dropped)
    /\ removedIds (log (updatePhysics w)) =
       removedIds (log w)
       ++ (if callbacks (eng w) OnItemRemove then dropped else []).
Proof.
  destruct (items_updatePhysics w) as [Hi Hl]. cbv zeta in Hi, Hl.
  set (moved := map (moveItem (eng w)) (items (eng w))) in *.
  set (w1 := upd (set_items moved) w) in *.
  destruct (removedIds_filterItems moved w1) as (R & HP & HR).
  exists R. rewrite Hi, Hl, HR. split; [|reflexivity].
  subst moved. rewrite map_id_moveItem in HP. exact HP.
Qed.

(** ** Handles are not shared between tasks *)

Lemma Inv1_same (w w' : World) :
  timers (host w') = timers (host w) ->
  nextTimer (host w') = nextTimer (host w) ->
  (forall k, owner k (eng w') = owner k (eng w)) ->
  Inv1 w -> Inv1 w'.
Proof.
  unfold Inv1. intros -> -> Ho [H1 H2]. split.
  - eapply Forall_impl; [|exact H1]. intros x Hx k. rewrite Ho. apply Hx.
  - intros k h. rewrite Ho. apply H2.
Qed.

Lemma Inv1_upd (f : GameEngine -> GameEngine) (w : World) :
  (forall k g, owner k (f g) = owner k g) -> Inv1 w -> Inv1 (upd f w).
Proof. intros Hf. apply Inv1_same; try reflexivity. intros k. apply Hf. Qed.

Lemma Inv1_notify (s : Slot) (n : Notification) (w : World) :
  Inv1 w -> Inv1 (notify s n w).
Proof. apply Inv1_same; reflexivity. Qed.

Lemma Inv1_cancelAnimationFrame (x : option positive) (w : World) :
  Inv1 w -> Inv1 (cancelAnimationFrame x w).
Proof. apply Inv1_same; reflexivity. Qed.

Lemma Inv1_clearTimer (x : option positive) (w : World) :
  Inv1 w -> Inv1 (clearTimer x w).
Proof.
  intros [H1 H2]. split; [|exact H2]. cbn. apply without_Forall, H1.
Qed.

Ltac peel1 :=
  repeat first
    [ assumption
    | apply Inv1_notify
    | apply Inv1_clearTimer
    | apply Inv1_cancelAnimationFrame
    | apply Inv1_upd; [owner_kept|] ].

Lemma Inv1_addTimer (t : Task) (d : Z) (p : option Z) (w w' : World) :
  timers (host w') =
    timers (host w) ++ [mkTimer (nextTimer (host w)) t d p] ->
  nextTimer (host w') = Pos.succ (nextTimer (host w)) ->
  owner t (eng w') = Some (nextTimer (host w)) ->
  (forall k, k <> t -> owner k (eng w') = owner k (eng w)) ->
  Forall (fun x => (handle x < nextTimer (host w))%positive) (timers (host w)) ->
  Inv1 w -> Inv1 w'.
Proof.
  intros Et En Ho Hk Hlt [H1 H2]. unfold Inv1. rewrite Et, En. split.
  - apply Forall_app. split.
    + rewrite Forall_forall in *. intros x Hin k Hx.
      destruct (Task_eqb k t) eqn:E.
      * apply Task_eqb_eq in E. subst k. rewrite Ho in Hx.
        specialize (Hlt x Hin). inversion Hx. lia.
      * assert (k <> t) by (intros ->; destruct t; discriminate).
        rewrite Hk in Hx by assumption. apply (H1 x Hin), Hx.
    + constructor; [|constructor]. cbn [handle task]. intros k Hx.
      destruct (Task_eqb k t) eqn:E; [apply Task_eqb_eq, E|].
      assert (k <> t) by (intros ->; destruct t; discriminate).
      rewrite Hk in Hx by assumption. apply H2 in Hx. lia.
  - intros k h Hx. destruct (Task_eqb k t) eqn:E.
    + apply Task_eqb_eq in E. subst k. rewrite Ho in Hx. inversion Hx. lia.
    + assert (k <> t) by (intros ->; destruct t; discriminate).
      rewrite Hk in Hx by assumption. apply H2 in Hx. lia.
Qed.

Lemma handles_below (w : World) :
  Inv0 w ->
  Forall (fun x => (handle x < nextTimer (host w))%positive) (timers (host w)).
Proof.
  intros [_ Ht]. eapply Forall_impl; [|exact Ht]. intros t Hx. apply Hx.
Qed.

Lemma Inv1_disableMagnet (w : World) : Inv1 w -> Inv1 (disableMagnet w).
Proof. intros H. unfold disableMagnet, notifyEffects. cbv zeta. peel1. Qed.

Lemma Inv1_disableTimeSlow (w : World) : Inv1 w -> Inv1 (disableTimeSlow w).
Proof. intros H. unfold disableTimeSlow, notifyEffects. cbv zeta. peel1. Qed.

Lemma Inv1_activateMagnet (w : World) :
  Inv0 w -> Inv1 w -> Inv1 (activateMagnet w).
Proof.
  intros H0 H.
  set (w0 := clearTimer (magnetTimer (eng w))
               (notifyEffects (upd (set_isMagnetActive true) w))).
  assert (H1 : Inv1 w0) by (subst w0; unfold notifyEffects; peel1).
  assert (Hlt : Forall (fun x => (handle x < nextTimer (host w0))%positive)
                       (timers (host w0)))
    by (apply handles_below; subst w0; unfold notifyEffects; peel).
  revert Hlt H1.
  apply Inv1_addTimer with (t := MagnetExpiry) (d := now (host w) + 5000)
                           (p := None); try reflexivity.
  intros k Hk. destruct k; try reflexivity. congruence.
Qed.

Lemma Inv1_activateTimeSlow (w : World) :
  Inv0 w -> Inv1 w -> Inv1 (activateTimeSlow w).
Proof.
  intros H0 H.
  set (w0 := clearTimer (timeSlowTimer (eng w))
               (notifyEffects (upd (set_isTimeSlowActive true) w))).
  assert (H1 : Inv1 w0) by (subst w0; unfold notifyEffects; peel1).
  assert (Hlt : Forall (fun x => (handle x < nextTimer (host w0))%positive)
                       (timers (host w0)))
    by (apply handles_below; subst w0; unfold notifyEffects; peel).
  revert Hlt H1.
  apply Inv1_addTimer with (t := TimeSlowExpiry) (d := now (host w) + 5000)
                           (p := None); try reflexivity.
  intros k Hk. destruct k; try reflexivity. congruence.
Qed.

Lemma Inv1_stop (reason : string) (w : World) : Inv1 w -> Inv1 (stop reason w).
Proof.
  intros H. unfold stop. cbv zeta.
  apply Inv1_notify, Inv1_disableTimeSlow, Inv1_disableMagnet. peel1.
Qed.

Lemma Inv1_handleCatch (it : Item) (w : World) :
  Inv0 w -> Inv1 w -> Inv1 (handleCatch it w).
Proof.
  intros H0 H. unfold handleCatch. destruct (type it).
  - unfold addScore. cbv zeta. peel1.
  - unfold addScore. cbv zeta. peel1.
  - destruct (hasShield (eng w)); [unfold notifyEffects; peel1|].
    apply Inv1_stop, H.
  - unfold notifyEffects. peel1.
  - apply Inv1_activateMagnet; assumption.
  - apply Inv1_activateTimeSlow; assumption.
Qed.

Lemma Inv1_keepItem (it : Item) (w : World) :
  Inv w -> Inv1 w -> Inv1 (snd (keepItem it w)).
Proof.
  intros [H0 _] H. unfold keepItem.
  destruct (100 <? y it)%float; [apply Inv1_notify, H|].
  destruct ((80 <? y it)%float && (y it <? 95)%float); [|exact H].
  cbv zeta.
  destruct (isMagnetActive (eng w) && collectible (type it));
    [apply Inv1_notify, Inv1_handleCatch; assumption|].
  destruct (inBasketLane (eng w) it);
    [apply Inv1_notify, Inv1_handleCatch; assumption | exact H].
Qed.

Lemma Inv1_filterItems (its : list Item) (w : World) :
  Inv w -> Inv1 w -> Inv1 (snd (filterItems its w)).
Proof.
  revert w. induction its as [|it its IH]; intros w HI H; cbn [filterItems];
    [exact H|].
  pose proof (Inv_keepItem it w HI) as HI1.
  pose proof (Inv1_keepItem it w HI H) as H1.
  destruct (keepItem it w) as [keep w1]. cbn [snd] in HI1, H1.
  specialize (IH w1 HI1 H1). destruct (filterItems its w1) as [kept w2].
  exact IH.
Qed.

Lemma Inv1_updatePhysics (w : World) :
  Inv w -> Inv1 w -> Inv1 (updatePhysics w).
Proof.
  intros HI H. unfold updatePhysics. cbv zeta. set (w1 := upd _ w).
  assert (HI1 : Inv w1)
    by (apply (Inv_same w); try reflexivity; try (intros []; reflexivity);
        exact HI).
  assert (H1 : Inv1 w1)
    by (apply (Inv1_same w); try reflexivity; try (intros []; reflexivity);
        exact H).
  pose proof (Inv1_filterItems (items (eng w1)) w1 HI1 H1) as H2.
  destruct (filterItems (items (eng w1)) w1) as [kept w2]. cbn [snd] in H2.
  apply Inv1_notify. revert H2.
  apply Inv1_same; try reflexivity; intros []; reflexivity.
Qed.

Lemma Inv1_loop (w : World) : Inv w -> Inv1 w -> Inv1 (loop w).
Proof.
  intros HI H. unfold loop. destruct (isGameActive (eng w)); cbn [negb];
    [|exact H].
  pose proof (Inv1_updatePhysics w HI H) as H1. revert H1.
  apply Inv1_same; try reflexivity; intros []; reflexivity.
Qed.

Lemma Inv1_countdownTick (w : World) : Inv1 w -> Inv1 (countdownTick w).
Proof.
  intros H. rewrite countdownTick_unfold. cbv zeta.
  set (w1 := notify OnTimeUpdate _ _).
  assert (H1 : Inv1 w1) by (subst w1; peel1).
  match goal with |- Inv1 (if ?c then stop _ ?x else _) =>
    assert (Hx : Inv1 x); [|destruct c; [apply Inv1_stop, Hx | exact Hx]] end.
  destruct (_ || _); [peel1 | exact H1].
Qed.

Lemma Inv1_spawn (w : World) : Inv0 w -> Inv1 w -> Inv1 (spawn w).
Proof.
  intros H0 H. unfold spawn.
  destruct (isGameActive (eng w)) eqn:Hact; cbn [negb]; [|exact H].
  destruct (timers_spawnItem w) as (Et & En & Eo & _ & _ & _).
  assert (H1 : Inv1 (spawnItem w)) by (revert H; apply Inv1_same; assumption).
  assert (Hlt : Forall (fun x => (handle x < nextTimer (host (spawnItem w)))%positive)
                       (timers (host (spawnItem w))))
    by (rewrite Et, En; apply handles_below, H0).
  revert Hlt H1.
  apply Inv1_addTimer with
    (t := SpawnTick)
    (d := now (host (spawnItem w))
          + (if 2000 - level (eng (spawnItem w)) * 200 <? 800 then 800
             else 2000 - level (eng (spawnItem w)) * 200))
    (p := None); try reflexivity.
  intros k Hk. destruct k; try reflexivity. congruence.
Qed.

Lemma Inv1_startTimer (w : World) : Inv0 w -> Inv1 w -> Inv1 (startTimer w).
Proof.
  intros H0 H. pose proof (handles_below w H0) as Hlt. revert Hlt H.
  apply Inv1_addTimer with (t := CountdownTick) (d := now (host w) + 1000)
                           (p := Some 1000); try reflexivity.
  intros k Hk. destruct k; try reflexivity. congruence.
Qed.

Lemma Inv1_startGameLoop (w : World) : Inv1 w -> Inv1 (startGameLoop w).
Proof. apply Inv1_same; try reflexivity; intros []; reflexivity. Qed.

Lemma Inv1_start (c : option Z) (w : World) :
  Inv w -> Inv1 w -> Inv1 (start c w).
Proof.
  intros HI H. unfold start.
  destruct (isGameActive (eng w)) eqn:Hact; [exact H|].
  destruct HI as [H0 Hq]. destruct (Hq Hact) as [Hc Hs]. cbv zeta.
  apply Inv1_startGameLoop. unfold startSpawning. apply Inv1_spawn.
  - apply Inv0_startTimer; unfold notifyEffects.
    + apply Inv0_notify, Inv0_disableTimeSlow, Inv0_disableMagnet. peel.
    + apply absent_notify, absent_disableTimeSlow, absent_disableMagnet. peel.
  - apply Inv1_startTimer; unfold notifyEffects.
    + apply Inv0_notify, Inv0_disableTimeSlow, Inv0_disableMagnet. peel.
    + apply Inv1_notify, Inv1_disableTimeSlow, Inv1_disableMagnet. peel1.
Qed.

Lemma Inv1_rearm (f : Timer -> Timer) (w w' : World) :
  timers (host w') = map f (timers (host w)) ->
  (forall t, handle (f t) = handle t /\ task (f t) = task t) ->
  nextTimer (host w') = nextTimer (host w) ->
  eng w' = eng w ->
  Inv1 w -> Inv1 w'.
Proof.
  intros Et Hf En Ee [H1 H2]. unfold Inv1. rewrite Et, En, Ee.
  split; [|exact H2]. apply Forall_map. eapply Forall_impl; [|exact H1].
  intros t Hx k. destruct (Hf t) as [-> ->]. apply Hx.
Qed.

Lemma Inv1_fireTimer (k : positive) (w : World) :
  Inv w -> Inv1 w -> Inv1 (fireTimer k w).
Proof.
  intros HI H. unfold fireTimer.
  destruct (find _ (timers (host w))) as [t|]; [|exact H].
  destruct (due t <=? now (host w)); [|exact H].
  set (w1 := match period t with Some _ => _ | None => _ end).
  assert (HI1 : Inv0 w1 /\ Inv1 w1).
  { subst w1. destruct (period t) as [p|].
    - split.
      + assert (HIr : Inv (updHost
            (fun h => set_timers
               (map (fun t' => if Pos.eqb (handle t') k
                               then mkTimer k (task t') (now h + p) (period t')
                               else t') (timers h)) h) w)).
        { revert HI. apply Inv_rearm with
            (f := fun t' => if Pos.eqb (handle t') k
                            then mkTimer k (task t') (now (host w) + p)
                                         (period t')
                            else t'); try reflexivity.
          intros t'. destruct (Pos.eqb_spec (handle t') k) as [E|E]; cbn; auto. }
        apply HIr.
      + revert H. apply Inv1_rearm with
          (f := fun t' => if Pos.eqb (handle t') k
                          then mkTimer k (task t') (now (host w) + p)
                                       (period t')
                          else t'); try reflexivity.
        intros t'. destruct (Pos.eqb_spec (handle t') k) as [E|E]; cbn; auto.
    - split; [apply Inv0_clearTimer, HI | apply Inv1_clearTimer, H]. }
  destruct HI1 as [A1 B1]. clearbody w1.
  destruct (task t); cbn [runTask].
  - apply Inv1_countdownTick, B1.
  - apply Inv1_spawn; assumption.
  - apply Inv1_disableMagnet, B1.
  - apply Inv1_disableTimeSlow, B1.
Qed.

Lemma Inv1_step (a : Action) (w : World) : Inv w -> Inv1 w -> Inv1 (step a w).
Proof.
  intros HI H. destruct a as [c|r|p|s b|k|k|dt]; cbn [step].
  - apply Inv1_start; assumption.
  - apply Inv1_stop, H.
  - unfold onPoseDetected. destruct (isGameActive (eng w)); cbn [negb];
      [|exact H].
    destruct (Lane_of_string p); [|exact H].
    revert H. apply Inv1_same; reflexivity.
  - revert H. apply Inv1_same; reflexivity.
  - apply Inv1_fireTimer; assumption.
  - unfold fireFrame. destruct (existsb _ _); [|exact H].
    apply Inv1_loop.
    + revert HI. apply Inv_same; reflexivity.
    + revert H. apply Inv1_same; reflexivity.
  - revert H. apply Inv1_same; reflexivity.
Qed.

Lemma reachable_Inv1 (w : World) : reachable w -> Inv1 w.
Proof.
  induction 1 as [rnd t0 | a w Hr IH].
  - split; [constructor | intros k h; destruct k; discriminate].
  - apply Inv1_step; [apply reachable_Inv, Hr | exact IH].
Qed.

(** ** Flags and timers go together *)

Lemma absent_not_scheduled (k : Task) (w : World) :
  absent k w <-> ~ scheduled k w.
Proof. unfold absent, scheduled. apply Forall_Exists_neg. Qed.

Lemma synced_off (k : Task) (w : World) :
  flag k (eng w) = false -> absent k w -> synced k w.
Proof.
  intros Hf Ha. split; [rewrite Hf; discriminate|].
  intros Hs. apply absent_not_scheduled in Ha. contradiction.
Qed.

Lemma synced_on (k : Task) (w : World) :
  flag k (eng w) = true -> scheduled k w -> synced k w.
Proof. intros Hf Hs. split; trivial. Qed.

Lemma synced_same (k : Task) (w w' : World) :
  timers (host w') = timers (host w) ->
  flag k (eng w') = flag k (eng w) ->
  synced k w -> synced k w'.
Proof. unfold synced, scheduled. intros -> ->. trivial. Qed.

Lemma synced_notify (k : Task) (s : Slot) (n : Notification) (w : World) :
  synced k w -> synced k (notify s n w).
Proof. apply synced_same; reflexivity. Qed.

Lemma scheduled_clearTimer (k : Task) (x : option positive) (w : World) :
  scheduled k (clearTimer x w) -> scheduled k w.
Proof.
  unfold scheduled. cbn. rewrite !Exists_exists. intros (t & Hin & Ht).
  apply In_without in Hin. exists t. split; [apply Hin | exact Ht].
Qed.

(** Clearing the handle one field remembers leaves the timers of the other
    tasks pending. *)
Lemma scheduled_clear_other (k k0 : Task) (w : World) :
  Inv1 w -> k <> k0 ->
  scheduled k w -> scheduled k (clearTimer (owner k0 (eng w)) w).
Proof.
  intros [H1 _] Hk. unfold scheduled. cbn. rewrite !Exists_exists.
  intros (t & Hin & Ht). exists t. split; [|exact Ht].
  destruct (owner k0 (eng w)) as [h|] eqn:Eo; cbn [without]; [|exact Hin].
  apply filter_In. split; [exact Hin|].
  destruct (Pos.eqb_spec (handle t) h) as [E|E]; [|reflexivity].
  exfalso. rewrite Forall_forall in H1. apply Hk.
  rewrite <- Ht. symmetry. apply (H1 t Hin). rewrite Eo, E. reflexivity.
Qed.

Lemma synced_clear_other (k k0 : Task) (w : World) :
  Inv1 w -> k <> k0 ->
  synced k w -> synced k (clearTimer (owner k0 (eng w)) w).
Proof.
  intros H1 Hk [Ha Hb]. split.
  - intros Hf. apply scheduled_clear_other; try assumption. apply Ha, Hf.
  - intros Hs. apply Hb. eapply scheduled_clearTimer, Hs.
Qed.

Lemma synced_add_other (k : Task) (tm : Timer) (w w' : World) :
  timers (host w') = timers (host w) ++ [tm] ->
  task tm <> k ->
  flag k (eng w') = flag k (eng w) ->
  synced k w -> synced k w'.
Proof.
  unfold synced, scheduled. intros -> Hk ->. rewrite Exists_app.
  intros [Ha Hb]. split.
  - intros Hf. left. apply Ha, Hf.
  - intros [Hs | Hs]; [apply Hb, Hs|].
    inversion Hs as [? ? E | ? ? E]; [contradiction | inversion E].
Qed.

Lemma synced_add_self (k : Task) (tm : Timer) (w w' : World) :
  timers (host w') = timers (host w) ++ [tm] ->
  task tm = k ->
  flag k (eng w') = true ->
  synced k w'.
Proof.
  intros Et Hk Hf. apply synced_on; [exact Hf|].
  unfold scheduled. rewrite Et, Exists_app. right. constructor. exact Hk.
Qed.

Lemma synced_rearm (k : Task) (f : Timer -> Timer) (w w' : World) :
  timers (host w') = map f (timers (host w)) ->
  (forall t, task (f t) = task t) ->
  eng w' = eng w ->
  synced k w -> synced k w'.
Proof.
  unfold synced, scheduled. intros -> Hf ->. rewrite Exists_map.
  intros H. rewrite H. rewrite !Exists_exists.
  split; intros (t & Hin & Ht); exists t; (split; [exact Hin|]);
    [rewrite Hf | rewrite <- Hf]; exact Ht.
Qed.

(** The effect methods. *)

Lemma synced_disableMagnet (k : Task) (w : World) :
  Inv0 w -> Inv1 w ->
  (k <> MagnetExpiry -> synced k w) -> synced k (disableMagnet w).
Proof.
  intros H0 H1 H. unfold disableMagnet. cbv zeta.
  set (w1 := notifyEffects (upd (set_isMagnetActive false) w)).
  assert (A1 : Inv0 w1) by (subst w1; unfold notifyEffects; peel).
  assert (B1 : Inv1 w1) by (subst w1; unfold notifyEffects; peel1).
  destruct (Task_eqb k MagnetExpiry) eqn:E.
  - apply Task_eqb_eq in E. subst k. apply synced_off; [reflexivity|].
    apply (absent_clear_owner MagnetExpiry w1 A1).
  - assert (Hk : k <> MagnetExpiry) by (intros ->; discriminate).
    apply (synced_clear_other k MagnetExpiry w1 B1 Hk).
    specialize (H Hk). revert H.
    apply synced_same; [reflexivity|]. destruct k; try reflexivity. congruence.
Qed.

Lemma synced_disableTimeSlow (k : Task) (w : World) :
  Inv0 w -> Inv1 w ->
  (k <> TimeSlowExpiry -> synced k w) -> synced k (disableTimeSlow w).
Proof.
  intros H0 H1 H. unfold disableTimeSlow. cbv zeta.
  set (w1 := notifyEffects (upd (set_isTimeSlowActive false) w)).
  assert (A1 : Inv0 w1) by (subst w1; unfold notifyEffects; peel).
  assert (B1 : Inv1 w1) by (subst w1; unfold notifyEffects; peel1).
  destruct (Task_eqb k TimeSlowExpiry) eqn:E.
  - apply Task_eqb_eq in E. subst k. apply synced_off; [reflexivity|].
    apply (absent_clear_owner TimeSlowExpiry w1 A1).
  - assert (Hk : k <> TimeSlowExpiry) by (intros ->; discriminate).
    apply (synced_clear_other k TimeSlowExpiry w1 B1 Hk).
    specialize (H Hk). revert H.
    apply synced_same; [reflexivity|]. destruct k; try reflexivity. congruence.
Qed.

Lemma synced_activateMagnet (k : Task) (w : World) :
  Inv1 w ->
  (k <> MagnetExpiry -> synced k w) -> synced k (activateMagnet w).
Proof.
  intros H1 H.
  set (w1 := notifyEffects (upd (set_isMagnetActive true) w)).
  assert (B1 : Inv1 w1) by (subst w1; unfold notifyEffects; peel1).
  set (w0 := clearTimer (owner MagnetExpiry (eng w1)) w1).
  set (tm := mkTimer (nextTimer (host w0)) MagnetExpiry
                     (now (host w0) + 5000) None).
  destruct (Task_eqb k MagnetExpiry) eqn:E.
  - apply Task_eqb_eq in E. subst k.
    apply (synced_add_self MagnetExpiry tm w0); reflexivity.
  - assert (Hk : k <> MagnetExpiry) by (intros ->; discriminate).
    apply (synced_add_other k tm w0); [reflexivity | cbn; congruence | |].
    + destruct k; reflexivity.
    + apply (synced_clear_other k MagnetExpiry w1 B1 Hk).
      specialize (H Hk). revert H.
      apply synced_same; [reflexivity|]. destruct k; try reflexivity.
      congruence.
Qed.

Lemma synced_activateTimeSlow (k : Task) (w : World) :
  Inv1 w ->
  (k <> TimeSlowExpiry -> synced k w) -> synced k (activateTimeSlow w).
Proof.
  intros H1 H.
  set (w1 := notifyEffects (upd (set_isTimeSlowActive true) w)).
  assert (B1 : Inv1 w1) by (subst w1; unfold notifyEffects; peel1).
  set (w0 := clearTimer (owner TimeSlowExpiry (eng w1)) w1).
  set (tm := mkTimer (nextTimer (host w0)) TimeSlowExpiry
                     (now (host w0) + 5000) None).
  destruct (Task_eqb k TimeSlowExpiry) eqn:E.
  - apply Task_eqb_eq in E. subst k.
    apply (synced_add_self TimeSlowExpiry tm w0); reflexivity.
  - assert (Hk : k <> TimeSlowExpiry) by (intros ->; discriminate).
    apply (synced_add_other k tm w0); [reflexivity | cbn; congruence | |].
    + destruct k; reflexivity.
    + apply (synced_clear_other k TimeSlowExpiry w1 B1 Hk).
      specialize (H Hk). revert H.
      apply synced_same; [reflexivity|]. destruct k; try reflexivity.
      congruence.
Qed.

(** After [stop] every flag is off and no timer of the engine is pending. *)
Lemma Sync_stop (reason : string) (w : World) : Inv0 w -> Sync (stop reason w).
Proof.
  intros H0 k. apply synced_off.
  - rewrite eng_stop. destruct k; reflexivity.
  - destruct (Inv_stop reason w H0) as [_ Hq].
    destruct (Hq eq_refl) as [Hc Hs].
    destruct (absent_stop_effects reason w H0) as [Hm Ht].
    destruct k; assumption.
Qed.

Lemma Sync_same (w w' : World) :
  timers (host w') = timers (host w) ->
  (forall k, flag k (eng w') = flag k (eng w)) ->
  Sync w -> Sync w'.
Proof. intros Et Hf H k. apply (synced_same k w); auto. Qed.

Lemma Sync_handleCatch (it : Item) (w : World) :
  Inv0 w -> Inv1 w -> Sync w -> Sync (handleCatch it w).
Proof.
  intros H0 H1 H. unfold handleCatch. destruct (type it).
  - revert H. apply Sync_same; [reflexivity | intros []; reflexivity].
  - revert H. apply Sync_same; [reflexivity | intros []; reflexivity].
  - destruct (hasShield (eng w)); [|apply Sync_stop, H0].
    revert H. apply Sync_same; [reflexivity | intros []; reflexivity].
  - revert H. apply Sync_same; [reflexivity | intros []; reflexivity].
  - intros k. apply synced_activateMagnet; [exact H1 | intros _; apply H].
  - intros k. apply synced_activateTimeSlow; [exact H1 | intros _; apply H].
Qed.

Lemma Sync_keepItem (it : Item) (w : World) :
  Inv w -> Inv1 w -> Sync w -> Sync (snd (keepItem it w)).
Proof.
  intros [H0 _] H1 H. unfold keepItem.
  destruct (100 <? y it)%float;
    [revert H; apply Sync_same; [reflexivity | intros []; reflexivity]|].
  destruct ((80 <? y it)%float && (y it <? 95)%float); [|exact H].
  cbv zeta.
  pose proof (Sync_handleCatch it w H0 H1 H) as Hc.
  destruct (isMagnetActive (eng w) && collectible (type it));
    [revert Hc; apply Sync_same; [reflexivity | intros []; reflexivity]|].
  destruct (inBasketLane (eng w) it); [|exact H].
  revert Hc. apply Sync_same; [reflexivity | intros []; reflexivity].
Qed.

Lemma Sync_filterItems (its : list Item) (w : World) :
  Inv w -> Inv1 w -> Sync w -> Sync (snd (filterItems its w)).
Proof.
  revert w. induction its as [|it its IH]; intros w HI H1 H;
    cbn [filterItems]; [exact H|].
  pose proof (Inv_keepItem it w HI) as A.
  pose proof (Inv1_keepItem it w HI H1) as B.
  pose proof (Sync_keepItem it w HI H1 H) as C.
  destruct (keepItem it w) as [keep w1]. cbn [snd] in A, B, C.
  specialize (IH w1 A B C). destruct (filterItems its w1) as [kept w2].
  exact IH.
Qed.

Lemma Sync_updatePhysics (w : World) :
  Inv w -> Inv1 w -> Sync w -> Sync (updatePhysics w).
Proof.
  intros HI H1 H. unfold updatePhysics. cbv zeta. set (w1 := upd _ w).
  assert (A : Inv w1)
    by (apply (Inv_same w); try reflexivity; try (intros []; reflexivity);
        exact HI).
  assert (B : Inv1 w1)
    by (apply (Inv1_same w); try reflexivity; try (intros []; reflexivity);
        exact H1).
  assert (C : Sync w1)
    by (apply (Sync_same w); try reflexivity; try (intros []; reflexivity);
        exact H).
  pose proof (Sync_filterItems (items (eng w1)) w1 A B C) as H2.
  destruct (filterItems (items (eng w1)) w1) as [kept w2]. cbn [snd] in H2.
  revert H2. apply Sync_same; [reflexivity | intros []; reflexivity].
Qed.

Lemma Sync_loop (w : World) : Inv w -> Inv1 w -> Sync w -> Sync (loop w).
Proof.
  intros HI H1 H. unfold loop. destruct (isGameActive (eng w)); cbn [negb];
    [|exact H].
  pose proof (Sync_updatePhysics w HI H1 H) as H2. revert H2.
  apply Sync_same; [reflexivity | intros []; reflexivity].
Qed.

Lemma Sync_countdownTick (w : World) :
  Inv0 w -> Sync w -> Sync (countdownTick w).
Proof.
  intros H0 H. rewrite countdownTick_unfold. cbv zeta.
  set (w1 := notify OnTimeUpdate _ _).
  assert (A1 : Inv0 w1) by (subst w1; peel).
  assert (C1 : Sync w1)
    by (subst w1; revert H; apply Sync_same;
        [reflexivity | intros []; reflexivity]).
  match goal with |- Sync (if ?c then stop _ ?x else _) =>
    assert (Hx : Inv0 x /\ Sync x);
      [|destruct c; [apply Sync_stop, Hx | apply Hx]] end.
  destruct (_ || _); [|split; assumption].
  split; [peel|]. revert C1.
  apply Sync_same; [reflexivity | intros []; reflexivity].
Qed.

Lemma flag_spawn (k : Task) (w : World) :
  flag k (eng (spawn w)) = flag k (eng w).
Proof.
  destruct (isGameActive (eng w)) eqn:Ha.
  - rewrite (eng_spawn_active w Ha).
    destruct (spawnItem_effect w) as (_ & _ & _ & _ & A5 & _ & _ & _ & _ & A10 & A11).
    cbv zeta in *. destruct k; cbn [flag isGameActive isMagnetActive
      isTimeSlowActive set_spawnTimer]; assumption.
  - unfold spawn. rewrite Ha. reflexivity.
Qed.

Lemma synced_spawn (k : Task) (w : World) :
  (k <> SpawnTick -> synced k w) -> absent SpawnTick w ->
  synced k (spawn w).
Proof.
  intros H Ha. destruct (isGameActive (eng w)) eqn:Hact.
  - destruct (spawn_active_parts w Hact) as (Et & _).
    destruct (Task_eqb k SpawnTick) eqn:E.
    + apply Task_eqb_eq in E. subst k.
      eapply synced_add_self; [exact Et | reflexivity|].
      rewrite flag_spawn. exact Hact.
    + assert (Hk : k <> SpawnTick) by (intros ->; discriminate).
      eapply synced_add_other; [exact Et | cbn; congruence | apply flag_spawn|].
      apply H, Hk.
  - unfold spawn. rewrite Hact. cbn [negb].
    destruct (Task_eqb k SpawnTick) eqn:E.
    + apply Task_eqb_eq in E. subst k. apply synced_off; assumption.
    + apply H. intros ->. discriminate.
Qed.

Lemma synced_startTimer (k : Task) (w : World) :
  isGameActive (eng w) = true ->
  (k <> CountdownTick -> synced k w) -> synced k (startTimer w).
Proof.
  intros Hact H.
  set (tm := mkTimer (nextTimer (host w)) CountdownTick
                     (now (host w) + 1000) (Some 1000)).
  destruct (Task_eqb k CountdownTick) eqn:E.
  - apply Task_eqb_eq in E. subst k.
    apply (synced_add_self CountdownTick tm w); [reflexivity..|exact Hact].
  - assert (Hk : k <> CountdownTick) by (intros ->; discriminate).
    apply (synced_add_other k tm w); [reflexivity | cbn; congruence | |].
    + destruct k; reflexivity.
    + apply H, Hk.
Qed.

Lemma Sync_startGameLoop (w : World) : Sync w -> Sync (startGameLoop w).
Proof. apply Sync_same; [reflexivity | intros []; reflexivity]. Qed.

Lemma Sync_start (c : option Z) (w : World) :
  Inv w -> Inv1 w -> Sync w -> Sync (start c w).
Proof.
  intros HI H1 H. unfold start.
  destruct (isGameActive (eng w)) eqn:Hact; [exact H|].
  destruct HI as [H0 Hq]. destruct (Hq Hact) as [Hc Hs]. cbv zeta.
  apply Sync_startGameLoop. unfold startSpawning. intros k.
  apply synced_spawn.
  - intros Hk. apply synced_startTimer; [reflexivity|]. intros Hk'.
    unfold notifyEffects. apply synced_notify.
    apply synced_disableTimeSlow.
    + apply Inv0_disableMagnet. peel.
    + apply Inv1_disableMagnet. peel1.
    + intros Hk1. apply synced_disableMagnet; [peel | peel1 |].
      intros Hk2. destruct k; try congruence.
  - apply absent_startTimer; [discriminate|]. unfold notifyEffects.
    apply absent_notify, absent_disableTimeSlow, absent_disableMagnet. peel.
Qed.

Lemma Sync_fireTimer (k : positive) (w : World) :
  Inv w -> Inv1 w -> Sync w -> Sync (fireTimer k w).
Proof.
  intros HI H1 H. unfold fireTimer.
  destruct (find _ (timers (host w))) as [t|] eqn:Hfind; [|exact H].
  apply find_some in Hfind. destruct Hfind as [Hin Hk].
  apply Pos.eqb_eq in Hk.
  destruct (due t <=? now (host w)); [|exact H].
  pose proof HI as [[_ Ht] _]. rewrite Forall_forall in Ht.
  destruct (Ht t Hin) as (_ & Ho & Hp). rewrite Hk in Ho.
  destruct (period t) as [p|] eqn:Ep.
  - assert (task t = CountdownTick) as -> by (destruct (task t); congruence).
    cbn [runTask]. apply Sync_countdownTick.
    + assert (HIr : Inv (updHost
          (fun h => set_timers
             (map (fun t' => if Pos.eqb (handle t') k
                             then mkTimer k (task t') (now h + p) (period t')
                             else t') (timers h)) h) w)).
      { revert HI. apply Inv_rearm with
          (f := fun t' => if Pos.eqb (handle t') k
                          then mkTimer k (task t') (now (host w) + p)
                                       (period t')
                          else t'); try reflexivity.
        intros t'. destruct (Pos.eqb_spec (handle t') k) as [E|E]; cbn; auto. }
      apply HIr.
    + intros k'. specialize (H k'). revert H.
      apply synced_rearm with
        (f := fun t' => if Pos.eqb (handle t') k
                        then mkTimer k (task t') (now (host w) + p)
                                     (period t')
                        else t'); try reflexivity.
      intros t'. destruct (Pos.eqb (handle t') k); reflexivity.
  - assert (Ha : absent (task t) (clearTimer (Some k) w))
      by (rewrite <- Ho; apply absent_clear_owner, HI).
    assert (Hs : forall k', k' <> task t -> synced k' (clearTimer (Some k) w))
      by (intros k' Hk'; rewrite <- Ho; apply synced_clear_other;
          [exact H1 | exact Hk' | apply H]).
    assert (A : Inv0 (clearTimer (Some k) w)) by (apply Inv0_clearTimer, HI).
    assert (B : Inv1 (clearTimer (Some k) w)) by (apply Inv1_clearTimer, H1).
    destruct (task t); cbn [runTask].
    + discriminate Hp.
    + intros k'. apply synced_spawn; [apply Hs | exact Ha].
    + intros k'. apply synced_disableMagnet; [exact A | exact B | apply Hs].
    + intros k'. apply synced_disableTimeSlow; [exact A | exact B | apply Hs].
Qed.

Lemma Sync_step (a : Action) (w : World) :
  Inv w -> Inv1 w -> Sync w -> Sync (step a w).
Proof.
  intros HI H1 H. destruct a as [c|r|p|s b|k|k|dt]; cbn [step].
  - apply Sync_start; assumption.
  - apply Sync_stop, HI.
  - unfold onPoseDetected. destruct (isGameActive (eng w)); cbn [negb];
      [|exact H].
    destruct (Lane_of_string p); [|exact H].
    revert H. apply Sync_same; [reflexivity | intros []; reflexivity].
  - revert H. apply Sync_same; [reflexivity | intros []; reflexivity].
  - apply Sync_fireTimer; assumption.
  - unfold fireFrame. destruct (existsb _ _); [|exact H].
    apply Sync_loop.
    + revert HI. apply Inv_same; reflexivity.
    + revert H1. apply Inv1_same; reflexivity.
    + revert H. apply Sync_same; [reflexivity | intros []; reflexivity].
  - revert H. apply Sync_same; [reflexivity | intros []; reflexivity].
Qed.

Lemma reachable_Sync (w : World) : reachable w -> Sync w.
Proof.
  induction 1 as [rnd t0 | a w Hr IH].
  - intros k. apply synced_off; [destruct k; reflexivity | constructor].
  - apply Sync_step;
      [apply reachable_Inv, Hr | apply reachable_Inv1, Hr | exact IH].
Qed.

(** ** The animation loop *)

Lemma keepsLoop_same (w w' : World) :
  isGameActive (eng w') = isGameActive (eng w) ->
  frames (host w') = frames (host w) -> keepsLoop w w'.
Proof. unfold keepsLoop. intros -> ->. auto. Qed.

Lemma keepsLoop_trans (w1 w2 w3 : World) :
  keepsLoop w1 w2 -> keepsLoop w2 w3 -> keepsLoop w1 w3.
Proof.
  unfold keepsLoop. intros H12 H23 Ha. destruct (H23 Ha) as [Ha2 ->].
  apply H12, Ha2.
Qed.

Lemma keepsLoop_stop (reason : string) (w : World) : keepsLoop w (stop reason w).
Proof. intros Ha. rewrite eng_stop in Ha. discriminate Ha. Qed.

Lemma keepsLoop_countdownTick (w : World) : keepsLoop w (countdownTick w).
Proof.
  rewrite countdownTick_unfold. cbv zeta.
  match goal with |- keepsLoop _ (if ?c then stop _ ?x else _) =>
    assert (Hx : keepsLoop w x);
      [|destruct c; [eapply keepsLoop_trans; [exact Hx | apply keepsLoop_stop]
                    | exact Hx]] end.
  destruct (_ || _); apply keepsLoop_same; reflexivity.
Qed.

Lemma keepsLoop_spawn (w : World) : keepsLoop w (spawn w).
Proof.
  destruct (isGameActive (eng w)) eqn:Ha.
  - destruct (spawn_active_parts w Ha) as (_ & Ef & _).
    destruct (spawn_effect w) as (_ & _ & _ & _ & A5 & _). cbv zeta in A5.
    apply keepsLoop_same; [rewrite A5, Ha; reflexivity | exact Ef].
  - unfold spawn. rewrite Ha. apply keepsLoop_same; reflexivity.
Qed.

Lemma keepsLoop_fireTimer (k : positive) (w : World) :
  keepsLoop w (fireTimer k w).
Proof.
  unfold fireTimer.
  destruct (find _ _) as [t|]; [|apply keepsLoop_same; reflexivity].
  destruct (due t <=? now (host w)); [|apply keepsLoop_same; reflexivity].
  set (w1 := match period t with Some _ => _ | None => _ end).
  assert (H1 : keepsLoop w w1)
    by (subst w1; destruct (period t); apply keepsLoop_same; reflexivity).
  clearbody w1. eapply keepsLoop_trans; [exact H1|].
  destruct (task t); cbn [runTask].
  - apply keepsLoop_countdownTick.
  - apply keepsLoop_spawn.
  - apply keepsLoop_same; reflexivity.
  - apply keepsLoop_same; reflexivity.
Qed.

Lemma Looping_keeps (w w' : World) : keepsLoop w w' -> Looping w -> Looping w'.
Proof.
  unfold keepsLoop, Looping. intros Hk H Ha. destruct (Hk Ha) as [Ha0 ->].
  apply H, Ha0.
Qed.

Lemma Looping_step (a : Action) (w : World) : Looping w -> Looping (step a w).
Proof.
  intros H. destruct a as [c|r|p|s b|k|k|dt]; cbn [step].
  - destruct (isGameActive (eng w)) eqn:Ha.
    + unfold start. rewrite Ha. exact H.
    + destruct (start_unfold c w Ha) as (w5 & -> & _). intros _.
      change (frames (host (startGameLoop (spawn w5))))
        with (frames (host (spawn w5)) ++ [nextFrame (host (spawn w5))]).
      intros E. apply app_eq_nil in E. destruct E as [_ E]. discriminate E.
  - revert H. apply Looping_keeps, keepsLoop_stop.
  - unfold onPoseDetected. destruct (isGameActive (eng w)); cbn [negb];
      [|exact H].
    destruct (Lane_of_string p); [|exact H].
    revert H. apply Looping_keeps, keepsLoop_same; reflexivity.
  - revert H. apply Looping_keeps, keepsLoop_same; reflexivity.
  - revert H. apply Looping_keeps, keepsLoop_fireTimer.
  - unfold fireFrame. destruct (existsb _ _); [|exact H].
    unfold loop.
    change (isGameActive (eng (cancelAnimationFrame (Some k) w)))
      with (isGameActive (eng w)).
    destruct (isGameActive (eng w)) eqn:Ha; cbn [negb].
    + intros _.
      set (w1 := updatePhysics (cancelAnimationFrame (Some k) w)).
      change (frames (host w1 ) ++ [nextFrame (host w1)] <> []).
      intros E. apply app_eq_nil in E. destruct E as [_ E]. discriminate E.
    + intros Ha'. change (isGameActive (eng w) = true) in Ha'. congruence.
  - revert H. apply Looping_keeps, keepsLoop_same; reflexivity.
Qed.

Lemma reachable_Looping (w : World) : reachable w -> Looping w.
Proof.
  induction 1 as [rnd t0 | a w _ IH]; [discriminate | apply Looping_step, IH].
Qed.

Lemma scheduled_pending (k : Task) (w : World) :
  scheduled k w -> pending k w <> [].
Proof.
  unfold scheduled, pending. rewrite Exists_exists. intros (t & Hin & Ht) E.
  assert (Hf : In t (filter (fun x => Task_eqb (task x) k) (timers (host w))))
    by (apply filter_In; split; [exact Hin | apply Task_eqb_eq, Ht]).
  rewrite E in Hf. exact Hf.
Qed.

(** A task that is scheduled has exactly one timer, the one its field
    remembers, with the period of its kind. *)
Lemma scheduled_once (k : Task) (w : World) :
  Inv0 w -> scheduled k w ->
  exists t, pending k w = [t] /\ owner k (eng w) = Some (handle t)
            /\ period t = match k with CountdownTick => Some 1000 | _ => None end.
Proof.
  intros H0 Hs. pose proof (scheduled_pending k w Hs) as Hne.
  pose proof (pending_at_most_one k w H0) as Hle.
  pose proof (pending_owner k w H0) as Ho.
  destruct (pending k w) as [|t [|u l]] eqn:Ep; [congruence | | cbn in Hle; lia].
  exists t. split; [reflexivity|]. inversion Ho as [|? ? Ht _]; subst.
  split; [exact Ht|].
  assert (Hin : In t (pending k w)) by (rewrite Ep; left; reflexivity).
  unfold pending in Hin. apply filter_In in Hin. destruct Hin as [Hin Hk].
  apply Task_eqb_eq in Hk. destruct H0 as [_ Hty].
  rewrite Forall_forall in Hty. destruct (Hty t Hin) as (_ & _ & Hp).
  rewrite Hk in Hp. exact Hp.
Qed.

Lemma synced_false (k : Task) (w : World) :
  synced k w -> flag k (eng w) = false -> pending k w = [].
Proof.
  intros [_ Hb] Hf. apply pending_nil, absent_not_scheduled. intros Hs.
  apply Hb in Hs. congruence.
Qed.

(** X12. A timed effect and its expiry go together.  In every state an
    engine can reach, the Magnet flag is on exactly when a Magnet expiry is
    pending, and then there is exactly one, a timeout whose handle is the
    one [magnetTimer] remembers; when the flag is off no Magnet expiry is
    pending.  The same holds of Time Slow and [timeSlowTimer].  So an effect
    that is on is always on its way to being switched off. *)
Theorem effect_on_iff_expiry_pending (w : World) :
  reachable w ->
  (if isMagnetActive (eng w)
   then exists t, pending MagnetExpiry w = [t]
                  /\ magnetTimer (eng w) = Some (handle t) /\ period t = None
   else pending MagnetExpiry w = [])
  /\ (if isTimeSlowActive (eng w)
      then exists t, pending TimeSlowExpiry w = [t]
                     /\ timeSlowTimer (eng w) = Some (handle t)
                     /\ period t = None
      else pending TimeSlowExpiry w = []).
Proof.
  intros H. pose proof (reachable_Sync w H) as Hs.
  destruct (reachable_Inv w H) as [H0 _]. split.
  - destruct (isMagnetActive (eng w)) eqn:E.
    + apply (scheduled_once MagnetExpiry w H0), (Hs MagnetExpiry), E.
    + apply (synced_false MagnetExpiry w (Hs _) E).
  - destruct (isTimeSlowActive (eng w)) eqn:E.
    + apply (scheduled_once TimeSlowExpiry w H0), (Hs TimeSlowExpiry), E.
    + apply (synced_false TimeSlowExpiry w (Hs _) E).
Qed.

Lemma effect_on_iff_expiry_pending_demo :
  reachable magnetSession
  /\ isMagnetActive (eng magnetSession) = true
  /\ isTimeSlowActive (eng magnetSession) = false
  /\ (exists t, pending MagnetExpiry magnetSession = [t]
                /\ magnetTimer (eng magnetSession) = Some (handle t)
                /\ period t = None)
  /\ pending TimeSlowExpiry magnetSession = [].
Proof.
  split; [exact magnetSession_reachable|].
  assert (Em : isMagnetActive (eng magnetSession) = true)
    by (vm_compute; reflexivity).
  assert (Et : isTimeSlowActive (eng magnetSession) = false)
    by (vm_compute; reflexivity).
  split; [exact Em|]. split; [exact Et|].
  pose proof (effect_on_iff_expiry_pending _ magnetSession_reachable) as H.
  rewrite Em, Et in H. exact H.
Defined.

(** X13. What keeps an active session going.  In every state an engine can
    reach in which the session is active, exactly one countdown interval
    (period 1000 ms, the handle in [gameTimer]) and exactly one spawn
    timeout (the handle in [spawnTimer]) are pending, and at least one
    animation frame is requested: the clock, the spawner and the physics
    loop of a running game cannot be lost. *)
Theorem active_session_is_driven (w : World) :
  reachable w -> isGameActive (eng w) = true ->
  (exists c, pending CountdownTick w = [c]
             /\ gameTimer (eng w) = Some (handle c) /\ period c = Some 1000)
  /\ (exists s, pending SpawnTick w = [s]
                /\ spawnTimer (eng w) = Some (handle s) /\ period s = None)
  /\ frames (host w) <> [].
Proof.
  intros H Ha. pose proof (reachable_Sync w H) as Hs.
  destruct (reachable_Inv w H) as [H0 _]. split; [|split].
  - apply (scheduled_once CountdownTick w H0), (Hs CountdownTick), Ha.
  - apply (scheduled_once SpawnTick w H0), (Hs SpawnTick), Ha.
  - apply (reachable_Looping w H), Ha.
Qed.

Lemma active_session_is_driven_demo :
  reachable crowdedSession
  /\ isGameActive (eng crowdedSession) = true
  /\ (exists c, pending CountdownTick crowdedSession = [c]
                /\ gameTimer (eng crowdedSession) = Some (handle c)
                /\ period c = Some 1000)
  /\ (exists s, pending SpawnTick crowdedSession = [s]
                /\ spawnTimer (eng crowdedSession) = Some (handle s)
                /\ period s = None)
  /\ frames (host crowdedSession) <> [].
Proof.
  split; [exact crowdedSession_reachable|].
  assert (Ea : isGameActive (eng crowdedSession) = true)
    by (vm_compute; reflexivity).
  split; [exact Ea|].
  exact (active_session_is_driven _ crowdedSession_reachable Ea).
Defined.

(** * The physics tick as a whole *)

Lemma updatePhysics_unfold (w : World) :
  let w0 := upd (fun g => set_items (map (moveItem g) (items g)) g) w in
  let r := filterItems (map (moveItem (eng w)) (items (eng w))) w0 in
  updatePhysics w =
  notify OnRender (Render (fst r)) (upd (set_items (fst r)) (snd r)).
Proof.
  cbv zeta. unfold updatePhysics. cbv zeta.
  change (items (eng (upd (fun g => set_items (map (moveItem g) (items g)) g)
                          w)))
    with (map (moveItem (eng w)) (items (eng w))).
  destruct (filterItems _ _) as [kept w2]. reflexivity.
Qed.

(** The filter at one item of the list: the items before it, the item
    itself, the items after it. *)
Lemma filterItems_split (pre post : list Item) (it : Item) (w0 : World) :
  let k := keepItem it (snd (filterItems pre w0)) in
  filterItems (pre ++ it :: post) w0 =
  (fst (filterItems pre w0)
   ++ (if fst k then [it] else []) ++ fst (filterItems post (snd k)),
   snd (filterItems post (snd k))).
Proof.
  cbv zeta. rewrite filterItems_app. cbn [filterItems].
  destruct (keepItem it (snd (filterItems pre w0))) as [keep w1].
  cbn [fst snd]. destruct (filterItems post w1) as [kept w2]. cbn [fst snd].
  destruct keep; reflexivity.
Qed.

Lemma updatePhysics_split (w : World) (pre post : list Item) (it : Item) :
  items (eng w) = pre ++ it :: post ->
  let mv := moveItem (eng w) in
  let w0 := upd (fun g => set_items (map (moveItem g) (items g)) g) w in
  let k := keepItem (mv it) (snd (filterItems (map mv pre) w0)) in
  let r := filterItems (map mv post) (snd k) in
  let kept :=
    fst (filterItems (map mv pre) w0)
    ++ (if fst k then [mv it] else []) ++ fst r in
  updatePhysics w = notify OnRender (Render kept) (upd (set_items kept) (snd r)).
Proof.
  intros H. cbv zeta. rewrite updatePhysics_unfold. cbv zeta.
  rewrite H, map_app. cbn [map]. rewrite filterItems_split. reflexivity.
Qed.

(** Callbacks are only ever added to the log. *)
Lemma log_handleCatch_grows (it : Item) (w : World) :
  exists l, log (handleCatch it w) = log w ++ l.
Proof.
  unfold handleCatch. destruct (type it); try (eexists; reflexivity).
  destruct (hasShield (eng w)); [eexists; reflexivity|].
  rewrite log_stop. eexists. reflexivity.
Qed.

Lemma log_keepItem_grows (it : Item) (w : World) :
  exists l, log (snd (keepItem it w)) = log w ++ l.
Proof.
  unfold keepItem.
  destruct (100 <? y it)%float; [eexists; reflexivity|].
  destruct ((80 <? y it)%float && (y it <? 95)%float);
    [|exists []; rewrite app_nil_r; reflexivity].
  cbv zeta. destruct (log_handleCatch_grows it w) as [l Hl].
  match goal with |- context [if (if ?c then true else ?d) then _ else _] =>
    destruct (if c then true else d) end.
  - cbn [snd log notify]. rewrite Hl, <- app_assoc. eexists. reflexivity.
  - exists []. rewrite app_nil_r. reflexivity.
Qed.

Lemma log_filterItems_grows (its : list Item) (w : World) :
  exists l, log (snd (filterItems its w)) = log w ++ l.
Proof.
  revert w. induction its as [|it its IH]; intros w; cbn [filterItems].
  - exists []. rewrite app_nil_r. reflexivity.
  - destruct (log_keepItem_grows it w) as [l1 H1].
    destruct (keepItem it w) as [keep w1]. cbn [snd] in H1.
    destruct (IH w1) as [l2 H2]. destruct (filterItems its w1) as [kept w2].
    cbn [snd] in *. exists (l1 ++ l2). rewrite H2, H1, app_assoc. reflexivity.
Qed.

(** Nothing in a tick turns the active flag on. *)
Lemma active_handleCatch (it : Item) (w : World) :
  isGameActive (eng (handleCatch it w)) = true -> isGameActive (eng w) = true.
Proof.
  unfold handleCatch. destruct (type it); try (intros H; exact H).
  destruct (hasShield (eng w)); [intros H; exact H|].
  rewrite eng_stop. discriminate.
Qed.

Lemma active_keepItem (it : Item) (w : World) :
  isGameActive (eng (snd (keepItem it w))) = true ->
  isGameActive (eng w) = true.
Proof.
  unfold keepItem.
  destruct (100 <? y it)%float; [intros H; exact H|].
  destruct ((80 <? y it)%float && (y it <? 95)%float); [|intros H; exact H].
  cbv zeta.
  match goal with |- context [if (if ?c then true else ?d) then _ else _] =>
    destruct (if c then true else d) end; [|intros H; exact H].
  cbn [snd eng notify]. apply active_handleCatch.
Qed.

Lemma active_filterItems (its : list Item) (w : World) :
  isGameActive (eng (snd (filterItems its w))) = true ->
  isGameActive (eng w) = true.
Proof.
  revert w. induction its as [|it its IH]; intros w; cbn [filterItems];
    [intros H; exact H|].
  pose proof (active_keepItem it w) as H1.
  destruct (keepItem it w) as [keep w1]. cbn [snd] in H1.
  specialize (IH w1). destruct (filterItems its w1) as [kept w2].
  cbn [snd] in *. intros H. apply H1, IH, H.
Qed.

Lemma ids_filterItems_incl (its : list Item) (w : World) (i : nat) :
  In i (map id (fst (filterItems its w))) -> In i (map id its).
Proof.
  rewrite !in_map_iff. intros (x & E & Hin). exists x.
  split; [exact E | eapply filterItems_incl, Hin].
Qed.

(** An item dropped without having fallen past 100 was in the catch band. *)
Lemma keepItem_false_band (it : Item) (w : World) :
  fst (keepItem it w) = false -> (100 <? y it)%float = false ->
  (80 <? y it)%float = true /\ (y it <? 95)%float = true.
Proof.
  unfold keepItem. intros H H100. rewrite H100 in H.
  destruct (80 <? y it)%float; destruct (y it <? 95)%float;
    cbn [andb] in H; try discriminate H. split; reflexivity.
Qed.

(** What one visit of the filter does to the score. *)
Lemma score_keepItem_exact (it : Item) (w : World) :
  score (eng (snd (keepItem it w))) =
  score (eng w)
  + (if negb (100 <? y it)%float && negb (fst (keepItem it w))
     then worth (type it) else 0).
Proof.
  unfold keepItem.
  destruct (100 <? y it)%float; [cbn; lia|].
  destruct ((80 <? y it)%float && (y it <? 95)%float); [|cbn; lia].
  cbv zeta.
  match goal with |- context [if (if ?c then true else ?d) then _ else _] =>
    destruct (if c then true else d) end; [|cbn; lia].
  cbn [fst snd eng notify negb andb]. rewrite score_handleCatch.
  unfold worth. reflexivity.
Qed.

Lemma existsb_id_head (it : Item) (kept : list Item) :
  existsb (Nat.eqb (id it)) (map id (it :: kept)) = true.
Proof. cbn. rewrite Nat.eqb_refl. reflexivity. Qed.

Lemma existsb_id_absent (i : nat) (l : list nat) :
  ~ In i l -> existsb (Nat.eqb i) l = false.
Proof.
  intros H. destruct (existsb (Nat.eqb i) l) eqn:E; [|reflexivity].
  apply existsb_exists in E. destruct E as (x & Hin & Hx).
  apply Nat.eqb_eq in Hx. subst x. contradiction.
Qed.

Lemma existsb_id_absent_conv (i : nat) (l : list nat) :
  existsb (Nat.eqb i) l = false -> ~ In i l.
Proof.
  intros E Hin. assert (H : existsb (Nat.eqb i) l = true)
    by (apply existsb_exists; exists i; split; [exact Hin | apply Nat.eqb_refl]).
  congruence.
Qed.

(** The score a filter adds is the worth of what it caught. *)
Lemma score_filterItems_exact (its : list Item) (w : World) :
  NoDup (map id its) ->
  score (eng (snd (filterItems its w))) =
  score (eng w)
  + total (map (fun it => worth (type it))
             (filter (fun it =>
                        negb (100 <? y it)%float
                        && negb (existsb (Nat.eqb (id it))
                                   (map id (fst (filterItems its w)))))
                     its)).
Proof.
  revert w. induction its as [|it its IH]; intros w Hnd;
    [cbn; lia|].
  cbn [map] in Hnd. inversion Hnd as [|? ? Hnot Hnd']; subst.
  pose proof (score_keepItem_exact it w) as Hk.
  pose proof (ids_filterItems_incl its (snd (keepItem it w))) as Hincl.
  specialize (IH (snd (keepItem it w)) Hnd').
  cbn [filterItems]. destruct (keepItem it w) as [keep w1].
  cbn [fst snd] in *. destruct (filterItems its w1) as [kept w2].
  cbn [fst snd] in *.
  assert (Hhead : existsb (Nat.eqb (id it))
                    (map id (if keep then it :: kept else kept)) = keep).
  { destruct keep; [apply existsb_id_head|].
    apply existsb_id_absent. intros Hin. apply Hnot, Hincl, Hin. }
  assert (Htail : filter (fun x =>
                            negb (100 <? y x)%float
                            && negb (existsb (Nat.eqb (id x))
                                       (map id (if keep then it :: kept
                                                else kept)))) its
                  = filter (fun x =>
                              negb (100 <? y x)%float
                              && negb (existsb (Nat.eqb (id x)) (map id kept)))
                           its).
  { apply filter_ext_in. intros x Hx. destruct keep; [|reflexivity].
    cbn [map existsb].
    destruct (Nat.eqb_spec (id x) (id it)) as [E|E]; [|reflexivity].
    exfalso. apply Hnot. rewrite <- E. apply in_map, Hx. }
  cbn [filter]. rewrite Hhead, Htail, IH, Hk.
  destruct (negb (100 <? y it)%float && negb keep); cbn [map total fold_right];
    fold (total (map (fun it0 => worth (type it0))
       (filter (fun x => negb (100 <? y x)%float
                         && negb (existsb (Nat.eqb (id x)) (map id kept)))
               its))); lia.
Qed.

Lemma band_filterItems (its : list Item) (w : World) (it : Item) :
  In it its -> (100 <? y it)%float = false ->
  existsb (Nat.eqb (id it)) (map id (fst (filterItems its w))) = false ->
  (80 <? y it)%float = true /\ (y it <? 95)%float = true.
Proof.
  revert w. induction its as [|x its IH]; intros w Hin H100 Hgone;
    [destruct Hin|].
  cbn [filterItems] in Hgone.
  pose proof (keepItem_false_band x w) as Hb.
  destruct (keepItem x w) as [keep w1]. cbn [fst] in Hb.
  specialize (IH w1). destruct (filterItems its w1) as [kept w2].
  cbn [fst] in *. destruct Hin as [-> | Hin].
  - destruct keep; [rewrite existsb_id_head in Hgone; discriminate Hgone|].
    apply Hb; [reflexivity | exact H100].
  - apply IH; [exact Hin | exact H100|].
    destruct keep; [|exact Hgone].
    cbn [map existsb] in Hgone. apply orb_false_iff in Hgone. apply Hgone.
Qed.

Lemma caughtIn_unfold (w : World) :
  let w0 := upd (fun g => set_items (map (moveItem g) (items g)) g) w in
  let moved := map (moveItem (eng w)) (items (eng w)) in
  items (eng (updatePhysics w)) = fst (filterItems moved w0)
  /\ score (eng (updatePhysics w)) = score (eng (snd (filterItems moved w0)))
  /\ caughtIn w =
     filter (fun it =>
               negb (100 <? y it)%float
               && negb (existsb (Nat.eqb (id it))
                          (map id (fst (filterItems moved w0)))))
            moved.
Proof.
  cbv zeta. unfold caughtIn, onTrack. rewrite updatePhysics_unfold. cbv zeta.
  split; [reflexivity|]. split; reflexivity.
Qed.

Lemma score_updatePhysics_exact (w : World) :
  NoDup (map id (items (eng w))) ->
  score (eng (updatePhysics w)) =
  score (eng w) + total (map (fun it => worth (type it)) (caughtIn w)).
Proof.
  intros Hnd. destruct (caughtIn_unfold w) as (_ & Es & Ec). cbv zeta in *.
  rewrite Es, Ec. rewrite score_filterItems_exact.
  - reflexivity.
  - rewrite map_id_moveItem. exact Hnd.
Qed.

Lemma caughtIn_band (w : World) (it : Item) :
  In it (caughtIn w) ->
  (80 <? y it)%float = true /\ (y it <? 95)%float = true.
Proof.
  destruct (caughtIn_unfold w) as (_ & _ & Ec). cbv zeta in Ec. rewrite Ec.
  intros Hin. apply filter_In in Hin. destruct Hin as [Hin Hc].
  apply andb_true_iff in Hc. destruct Hc as [H1 H2].
  apply negb_true_iff in H1, H2.
  eapply band_filterItems; eassumption.
Qed.

(** ** Catch, miss or stay *)

(** C3. A physics tick, item by item.  Take any item of a track whose ids
    are distinct (as they are in every reachable state); the tick advances
    it and then the filter visits it, after the items spawned
    before it, with the engine as their visits left it ([wi] below; the
    basket has not moved meanwhile).  The item is caught exactly when its
    position is strictly between 80 and 95 and either its lane is the
    basket lane or Magnet is active at that moment and the kind is not
    Bomb: then catch handling runs, the item-removed callback is called,
    and the item is not on the track after the tick.  Otherwise, a position
    above 100 removes it with the item-removed callback only, the engine
    untouched, and it is not on the track after the tick.  Otherwise nothing
    happens and the item is on the track after the tick.  Whatever the visit
    reported stays in the log of the tick, and the tick ends with the items
    after this one filtered from the state the visit left, the survivors
    stored in order and rendered. *)
Theorem updatePhysics_outcomes (w : World) (pre post : list Item) (it : Item) :
  items (eng w) = pre ++ it :: post ->
  NoDup (map id (items (eng w))) ->
  let mv := moveItem (eng w) in
  let w0 := upd (fun g => set_items (map (moveItem g) (items g)) g) w in
  let wi := snd (filterItems (map mv pre) w0) in
  let it' := mv it in
  let wo := snd (keepItem it' wi) in
  let w' := updatePhysics w in
  let caught :=
    (80 <? y it')%float = true /\ (y it' <? 95)%float = true /\
    (lane it' = Some (basketPosition (eng w)) \/
     (isMagnetActive (eng wi) = true /\ type it <> Bomb)) in
  basketPosition (eng wi) = basketPosition (eng w)
  /\ (caught ->
      wo = notify OnItemRemove (ItemRemove (id it)) (handleCatch it' wi)
      /\ fst (keepItem it' wi) = false
      /\ ~ In (id it) (map id (items (eng w'))))
  /\ (~ caught -> (100 <? y it')%float = true ->
      wo = notify OnItemRemove (ItemRemove (id it)) wi
      /\ fst (keepItem it' wi) = false
      /\ ~ In (id it) (map id (items (eng w'))))
  /\ (~ caught -> (100 <? y it')%float = false ->
      wo = wi /\ fst (keepItem it' wi) = true /\ In it' (items (eng w')))
  /\ (exists later, log w' = log wo ++ later)
  /\ w' =
     (let r := filterItems (map mv post) wo in
      let kept :=
        fst (filterItems (map mv pre) w0)
        ++ (if fst (keepItem it' wi) then [it'] else []) ++ fst r in
      notify OnRender (Render kept) (upd (set_items kept) (snd r))).
Proof.
  intros Hits Hnd. cbv zeta.
  pose proof (updatePhysics_split w pre post it Hits) as Hup. cbv zeta in Hup.
  pose proof (sameSession_filterItems
                (map (moveItem (eng w)) pre)
                (upd (fun g => set_items (map (moveItem g) (items g)) g) w))
    as (_ & _ & _ & Hb & _ & _).
  change (basketPosition (eng (upd (fun g => set_items (map (moveItem g) (items g)) g) w)))
    with (basketPosition (eng w)) in Hb.
  destruct (moveItem_keeps (eng w) it) as (Eid & Ety & _).
  pose proof (keepItem_outcomes (moveItem (eng w) it)
                (snd (filterItems (map (moveItem (eng w)) pre)
                        (upd (fun g => set_items (map (moveItem g) (items g)) g)
                             w))))
    as (K1 & K2 & K3).
  rewrite Hb, Ety in K1, K2, K3. rewrite Eid in K1, K2.
  assert (Hgone : fst (keepItem (moveItem (eng w) it)
                         (snd (filterItems (map (moveItem (eng w)) pre)
                                 (upd (fun g => set_items
                                         (map (moveItem g) (items g)) g) w))))
                  = false ->
                  ~ In (id it) (map id (items (eng (updatePhysics w))))).
  { intros Hk. rewrite Hup, Hk. cbn [items eng notify upd set_items app].
    rewrite map_app. intros Hin. apply in_app_or in Hin.
    rewrite Hits, map_app in Hnd. cbn [map] in Hnd.
    apply NoDup_remove_2 in Hnd. apply Hnd. apply in_or_app.
    destruct Hin as [Hin | Hin]; apply ids_filterItems_incl in Hin;
      rewrite map_id_moveItem in Hin; auto. }
  split; [exact Hb|]. split; [|split; [|split; [|split]]].
  - intros Hc. specialize (K1 Hc). rewrite K1. cbn [fst snd].
    split; [reflexivity|]. split; [reflexivity|].
    apply Hgone. rewrite K1. reflexivity.
  - intros Hn H100. destruct (K2 Hn H100) as [K _]. rewrite K. cbn [fst snd].
    split; [reflexivity|]. split; [reflexivity|].
    apply Hgone. rewrite K. reflexivity.
  - intros Hn H100. specialize (K3 Hn H100). rewrite K3. cbn [fst snd].
    split; [reflexivity|]. split; [reflexivity|].
    rewrite Hup, K3. cbn [items eng notify upd set_items fst].
    apply in_or_app. right. left. reflexivity.
  - rewrite Hup. cbn [log notify upd].
    destruct (log_filterItems_grows (map (moveItem (eng w)) post)
                (snd (keepItem (moveItem (eng w) it)
                        (snd (filterItems (map (moveItem (eng w)) pre)
                                (upd (fun g => set_items
                                        (map (moveItem g) (items g)) g) w))))))
      as [l Hl].
    rewrite Hl, <- app_assoc. eexists. reflexivity.
  - exact Hup.
Qed.

(** C3 at work: the tick of the crowded session.  The Apple is second on the
    track, behind the Bomb; it is in the band and in the basket's lane, so
    it is caught and gone after the tick. *)
Lemma updatePhysics_outcomes_demo :
  let its := items (eng crowdedSession) in
  let apple := nth 1 its appleItem in
  (its = firstn 1 its ++ apple :: skipn 2 its
   /\ type apple = Apple /\ id apple = 1%nat
   /\ (80 <? y (moveItem (eng crowdedSession) apple))%float = true
   /\ (y (moveItem (eng crowdedSession) apple) <? 95)%float = true
   /\ lane (moveItem (eng crowdedSession) apple) =
        Some (basketPosition (eng crowdedSession)))
  /\ ~ In 1%nat (map id (items (eng (updatePhysics crowdedSession)))).
Proof.
  cbv zeta.
  assert (E : items (eng crowdedSession) =
              firstn 1 (items (eng crowdedSession))
              ++ nth 1 (items (eng crowdedSession)) appleItem
                 :: skipn 2 (items (eng crowdedSession)))
    by (vm_compute; reflexivity).
  assert (Ht : type (nth 1 (items (eng crowdedSession)) appleItem) = Apple)
    by (vm_compute; reflexivity).
  assert (Ei : id (nth 1 (items (eng crowdedSession)) appleItem) = 1%nat)
    by (vm_compute; reflexivity).
  assert (H80 : (80 <? y (moveItem (eng crowdedSession)
                            (nth 1 (items (eng crowdedSession)) appleItem)))%float
                = true) by (vm_compute; reflexivity).
  assert (H95 : (y (moveItem (eng crowdedSession)
                      (nth 1 (items (eng crowdedSession)) appleItem)) <? 95)%float
                = true) by (vm_compute; reflexivity).
  assert (Hl : lane (moveItem (eng crowdedSession)
                       (nth 1 (items (eng crowdedSession)) appleItem)) =
               Some (basketPosition (eng crowdedSession)))
    by (vm_compute; reflexivity).
  destruct (reachable_ItemsInv _ crowdedSession_reachable) as [Hnd _].
  destruct (updatePhysics_outcomes crowdedSession _ _ _ E Hnd)
    as (_ & H & _).
  cbv zeta in H.
  destruct (H (conj H80 (conj H95 (or_introl Hl)))) as (_ & _ & Hgone).
  rewrite Ei in Hgone.
  split; [|exact Hgone].
  split; [exact E|]. split; [exact Ht|]. split; [exact Ei|].
  split; [exact H80|]. split; [exact H95 | exact Hl].
Defined.

(** ** Score and level *)

(** C6. Catch resolution adds exactly 100 for an Apple, exactly 200 for a
    Banana and nothing for the other kinds; in the filter of a tick the score
    changes only when an Apple or a Banana is caught (and dropped).  From an
    active engine, no action lowers the score or the level, and only an
    animation frame can change the score.  A physics tick adds to the score
    exactly the worth of the items it caught, 100 for each Apple and 200 for
    each Banana among the items that were in the catch band and are gone
    from the track without having fallen past 100; so the frame of an active
    session in which no Apple and no Banana is caught leaves the score as it
    was. *)
Theorem score_and_level_never_decrease :
  (forall (it : Item) (w : World),
     score (eng (handleCatch it w)) =
     score (eng w)
     + match type it with Apple => 100 | Banana => 200 | _ => 0 end)
  /\ (forall (it : Item) (w : World),
        let w' := snd (keepItem it w) in
        score (eng w') = score (eng w)
        \/ (type it = Apple /\ fst (keepItem it w) = false
            /\ score (eng w') = score (eng w) + 100)
        \/ (type it = Banana /\ fst (keepItem it w) = false
            /\ score (eng w') = score (eng w) + 200))
  /\ (forall (a : Action) (w : World),
        isGameActive (eng w) = true ->
        score (eng w) <= score (eng (step a w))
        /\ level (eng w) <= level (eng (step a w))
        /\ ((forall k, a <> FrameFires k) ->
            score (eng (step a w)) = score (eng w)))
  /\ (forall w : World,
        NoDup (map id (items (eng w))) ->
        score (eng (updatePhysics w)) =
        score (eng w) + total (map (fun it => worth (type it)) (caughtIn w))
        /\ (forall it, In it (caughtIn w) ->
              (80 <? y it)%float = true /\ (y it <? 95)%float = true
              /\ ~ In (id it) (map id (items (eng (updatePhysics w))))
              /\ exists it0, In it0 (items (eng w))
                             /\ it = moveItem (eng w) it0))
  /\ (forall (k : positive) (w : World),
        reachable w -> isGameActive (eng w) = true ->
        score (eng (step (FrameFires k) w)) =
        score (eng w)
        + (if existsb (Pos.eqb k) (frames (host w))
           then total (map (fun it => worth (type it))
                         (caughtIn (cancelAnimationFrame (Some k) w)))
           else 0)).
Proof.
  split; [apply score_handleCatch|]. split; [apply score_keepItem|].
  split; [|split].
  - intros a w Hact. destruct a as [c|r|p|s b|k|k|dt]; cbn [step].
    + unfold start. rewrite Hact. repeat split; lia.
    + repeat split; cbn; lia.
    + unfold onPoseDetected. rewrite Hact. cbn [negb].
      destruct (Lane_of_string p); repeat split; cbn; lia.
    + repeat split; cbn; lia.
    + destruct (score_fireTimer k w) as [Hs Hl]. repeat split; lia.
    + assert (H : score (eng w) <= score (eng (fireFrame k w))
                  /\ level (eng w) <= level (eng (fireFrame k w))).
      { unfold fireFrame. destruct (existsb _ _); [|split; lia].
        unfold loop. cbn [eng cancelAnimationFrame updHost]. rewrite Hact.
        cbn [negb].
        destruct (score_updatePhysics (cancelAnimationFrame (Some k) w))
          as [Hs Hl].
        cbn in Hs, Hl |- *. split; lia. }
      destruct H as [Hs Hl]. repeat split; try lia.
      intros Hk. exfalso. apply (Hk k). reflexivity.
    + repeat split; cbn; lia.
  - intros w Hnd. split; [apply score_updatePhysics_exact, Hnd|].
    intros it Hin. destruct (caughtIn_band w it Hin) as [H80 H95].
    split; [exact H80|]. split; [exact H95|].
    unfold caughtIn in Hin. apply filter_In in Hin. destruct Hin as [Hin Hc].
    apply andb_true_iff in Hc. destruct Hc as [_ Hc].
    apply negb_true_iff in Hc. unfold onTrack in Hc. split.
    + intros Hx. apply (existsb_id_absent_conv _ _ Hc), Hx.
    + apply in_map_iff in Hin. destruct Hin as (it0 & E & Hin0).
      exists it0. split; [exact Hin0 | symmetry; exact E].
  - intros k w Hr Hact. cbn [step]. unfold fireFrame.
    destruct (existsb (Pos.eqb k) (frames (host w))); [|lia].
    unfold loop.
    change (isGameActive (eng (cancelAnimationFrame (Some k) w)))
      with (isGameActive (eng w)).
    rewrite Hact. cbn [negb].
    destruct (reachable_ItemsInv w Hr) as [Hnd _].
    change (score (eng (updatePhysics (cancelAnimationFrame (Some k) w))) =
            score (eng (cancelAnimationFrame (Some k) w))
            + total (map (fun it => worth (type it))
                       (caughtIn (cancelAnimationFrame (Some k) w)))).
    apply score_updatePhysics_exact. exact Hnd.
Qed.

(** C6 at work: the frame of the crowded session catches the Bomb, the Apple
    and the Shield; the score goes up by the Apple's 100. *)
Lemma score_and_level_demo :
  reachable crowdedSession /\ isGameActive (eng crowdedSession) = true
  /\ map type (caughtIn (cancelAnimationFrame (Some 267%positive) crowdedSession))
     = [Bomb; Apple; Shield]
  /\ score (eng (step (FrameFires 267) crowdedSession)) =
     score (eng crowdedSession) + 100
  /\ level (eng crowdedSession)
     <= level (eng (step (FrameFires 267) crowdedSession)).
Proof.
  assert (Ha : isGameActive (eng crowdedSession) = true)
    by (vm_compute; reflexivity).
  assert (Ec : map type (caughtIn (cancelAnimationFrame (Some 267%positive)
                                     crowdedSession))
               = [Bomb; Apple; Shield]) by (vm_compute; reflexivity).
  assert (Et : total (map (fun it => worth (type it))
                        (caughtIn (cancelAnimationFrame (Some 267%positive)
                                     crowdedSession))) = 100)
    by (vm_compute; reflexivity).
  assert (Ef : existsb (Pos.eqb 267) (frames (host crowdedSession)) = true)
    by (vm_compute; reflexivity).
  destruct score_and_level_never_decrease as (_ & _ & H3 & _ & H5).
  destruct (H3 (FrameFires 267) crowdedSession Ha) as (_ & H2 & _).
  pose proof (H5 267%positive crowdedSession crowdedSession_reachable Ha) as H.
  rewrite Ef, Et in H.
  split; [exact crowdedSession_reachable|]. split; [exact Ha|].
  split; [exact Ec|]. split; [exact H | exact H2].
Defined.

(** ** A Bomb in the middle of a tick *)

Lemma keepItem_Bomb_bare (bomb : Item) (w : World) :
  type bomb = Bomb ->
  (80 <? y bomb)%float = true -> (y bomb <? 95)%float = true ->
  lane bomb = Some (basketPosition (eng w)) ->
  hasShield (eng w) = false ->
  keepItem bomb w =
  (false, notify OnItemRemove (ItemRemove (id bomb)) (stop "Bomb" w)).
Proof.
  intros Ht H80 H95 Hl Hs. unfold keepItem.
  rewrite (below_95_not_above_100 _ H95), H80, H95. cbn [andb].
  apply inBasketLane_spec in Hl. rewrite Hl.
  unfold handleCatch. rewrite Ht, Hs.
  destruct (isMagnetActive (eng w) && collectible Bomb); reflexivity.
Qed.

Lemma emit_callbacks (g g' : GameEngine) (s : Slot) (n : Notification) :
  callbacks g' = callbacks g -> emit g' s n = emit g s n.
Proof. unfold emit. intros ->. reflexivity. Qed.

(** The closure [loop] on an active engine: the tick, then the next frame,
    whatever the tick did to the active flag. *)
Lemma loop_active (w : World) :
  isGameActive (eng w) = true ->
  loop w =
  upd (set_gameLoopId (Some (nextFrame (host (updatePhysics w)))))
      (snd (requestAnimationFrame (updatePhysics w)))
  /\ isGameActive (eng (loop w)) = isGameActive (eng (updatePhysics w))
  /\ frames (host (loop w)) =
     frames (host (updatePhysics w)) ++ [nextFrame (host (updatePhysics w))].
Proof.
  intros Hact. unfold loop. rewrite Hact. cbn [negb].
  generalize (updatePhysics w). intros u. repeat split.
Qed.

Lemma bomb_tick_state (w : World) (pre post : list Item) (bomb : Item) :
  let mv := moveItem (eng w) in
  let w0 := upd (fun g => set_items (map (moveItem g) (items g)) g) w in
  let wi := snd (filterItems (map mv pre) w0) in
  let stopped :=
    notify OnItemRemove (ItemRemove (id bomb)) (stop "Bomb" wi) in
  let r := filterItems (map mv post) stopped in
  let kept := fst (filterItems (map mv pre) w0) ++ fst r in
  items (eng w) = pre ++ bomb :: post ->
  type bomb = Bomb ->
  (80 <? y (mv bomb))%float = true -> (y (mv bomb) <? 95)%float = true ->
  lane (mv bomb) = Some (basketPosition (eng w)) ->
  hasShield (eng wi) = false ->
  updatePhysics w = notify OnRender (Render kept) (upd (set_items kept) (snd r)).
Proof.
  cbv zeta. intros Hits Ht H80 H95 Hl Hs.
  pose proof (updatePhysics_split w pre post bomb Hits) as Hup.
  cbv zeta in Hup.
  pose proof (sameSession_filterItems
                (map (moveItem (eng w)) pre)
                (upd (fun g => set_items (map (moveItem g) (items g)) g) w))
    as (_ & _ & _ & Hb & _ & _).
  change (basketPosition (eng (upd (fun g => set_items (map (moveItem g) (items g)) g) w)))
    with (basketPosition (eng w)) in Hb.
  destruct (moveItem_keeps (eng w) bomb) as (Eid & Ety & _).
  rewrite <- Hb in Hl. rewrite <- Ety in Ht.
  pose proof (keepItem_Bomb_bare _ _ Ht H80 H95 Hl Hs) as Hk.
  rewrite Eid in Hk. rewrite Hk in Hup. exact Hup.
Qed.

Lemma inactive_after (its : list Item) (w : World) :
  isGameActive (eng w) = false ->
  isGameActive (eng (snd (filterItems its w))) = false.
Proof.
  intros H. pose proof (active_filterItems its w) as Hact.
  destruct (isGameActive (eng (snd (filterItems its w)))); [|reflexivity].
  specialize (Hact eq_refl). congruence.
Qed.

Lemma log_bomb_stop (i : nat) (w : World) (g : GameEngine) :
  callbacks (eng w) = callbacks g -> hasShield (eng w) = false ->
  log (notify OnItemRemove (ItemRemove i) (stop "Bomb" w)) =
  log w
  ++ emit g OnEffectChange (EffectChange false false (isTimeSlowActive (eng w)))
  ++ emit g OnEffectChange (EffectChange false false false)
  ++ emit g OnGameEnd (GameEnd (score (eng w)) (level (eng w)) "Bomb")
  ++ emit g OnItemRemove (ItemRemove i).
Proof.
  intros Hcb Hs. cbn [log notify]. rewrite log_stop, Hs.
  rewrite !(emit_callbacks g (eng w)) by exact Hcb.
  rewrite (emit_callbacks g (eng (stop "Bomb" w)))
    by (rewrite eng_stop; exact Hcb).
  rewrite <- !app_assoc. reflexivity.
Qed.

Lemma log_render (kept : list Item) (u : World) (g : GameEngine) :
  callbacks (eng u) = callbacks g ->
  log (notify OnRender (Render kept) (upd (set_items kept) u)) =
  log u ++ emit g OnRender (Render kept)
  /\ items (eng (notify OnRender (Render kept) (upd (set_items kept) u))) = kept
  /\ isGameActive (eng (notify OnRender (Render kept) (upd (set_items kept) u)))
     = isGameActive (eng u).
Proof.
  intros Hcb. split; [|split; reflexivity].
  cbn [log notify upd eng]. unfold emit. cbn [callbacks set_items].
  rewrite Hcb. reflexivity.
Qed.

Lemma bomb_tick (w : World) (pre post : list Item) (bomb : Item) :
  let mv := moveItem (eng w) in
  let w0 := upd (fun g => set_items (map (moveItem g) (items g)) g) w in
  let wi := snd (filterItems (map mv pre) w0) in
  let w' := updatePhysics w in
  items (eng w) = pre ++ bomb :: post ->
  type bomb = Bomb ->
  (80 <? y (mv bomb))%float = true -> (y (mv bomb) <? 95)%float = true ->
  lane (mv bomb) = Some (basketPosition (eng w)) ->
  hasShield (eng wi) = false ->
  isGameActive (eng w') = false
  /\ (exists later,
        log w' =
        log wi
        ++ emit (eng w) OnEffectChange
             (EffectChange false false (isTimeSlowActive (eng wi)))
        ++ emit (eng w) OnEffectChange (EffectChange false false false)
        ++ emit (eng w) OnGameEnd
             (GameEnd (score (eng wi)) (level (eng w)) "Bomb")
        ++ emit (eng w) OnItemRemove (ItemRemove (id bomb))
        ++ later
        ++ emit (eng w) OnRender (Render (items (eng w')))).
Proof.
  cbv zeta. intros Hits Ht H80 H95 Hl Hs.
  rewrite (bomb_tick_state w pre post bomb Hits Ht H80 H95 Hl Hs).
  pose proof (sameSession_filterItems
                (map (moveItem (eng w)) pre)
                (upd (fun g => set_items (map (moveItem g) (items g)) g) w))
    as (Hlv & _ & _ & _ & _ & Hcb).
  change (callbacks (eng (upd (fun g => set_items (map (moveItem g) (items g)) g) w)))
    with (callbacks (eng w)) in Hcb.
  change (level (eng (upd (fun g => set_items (map (moveItem g) (items g)) g) w)))
    with (level (eng w)) in Hlv.
  revert Hs Hlv Hcb.
  generalize (snd (filterItems (map (moveItem (eng w)) pre)
                     (upd (fun g => set_items (map (moveItem g) (items g)) g)
                          w))).
  generalize (fst (filterItems (map (moveItem (eng w)) pre)
                     (upd (fun g => set_items (map (moveItem g) (items g)) g)
                          w))).
  intros kpre wi Hs Hlv Hcb.
  pose proof (log_bomb_stop (id bomb) wi (eng w) Hcb Hs) as Hls.
  rewrite Hlv in Hls.
  assert (Hst : isGameActive
                  (eng (notify OnItemRemove (ItemRemove (id bomb))
                          (stop "Bomb" wi))) = false) by reflexivity.
  assert (Hcs : callbacks
                  (eng (notify OnItemRemove (ItemRemove (id bomb))
                          (stop "Bomb" wi))) = callbacks (eng w))
    by (cbn [eng notify]; rewrite eng_stop; exact Hcb).
  revert Hls Hst Hcs.
  generalize (notify OnItemRemove (ItemRemove (id bomb)) (stop "Bomb" wi)).
  intros stopped Hls Hst Hcs.
  destruct (log_filterItems_grows (map (moveItem (eng w)) post) stopped)
    as [later Hlog].
  pose proof (sameSession_filterItems (map (moveItem (eng w)) post) stopped)
    as (_ & _ & _ & _ & _ & Hcb').
  rewrite Hcs in Hcb'.
  pose proof (inactive_after (map (moveItem (eng w)) post) stopped Hst) as Hin.
  revert Hlog Hcb' Hin.
  generalize (filterItems (map (moveItem (eng w)) post) stopped).
  intros [kpost wEnd]. cbn [fst snd]. intros Hlog Hcb' Hin.
  destruct (log_render (kpre ++ kpost) wEnd (eng w) Hcb') as (E1 & E2 & E3).
  rewrite E1, E2, E3. split; [exact Hin|].
  exists later. rewrite Hlog, Hls, <- !app_assoc. reflexivity.
Qed.

(** C10. A Bomb caught without Shield stops the session in the middle of
    the filter of a tick, and the tick goes on.  Whenever the filter of a
    tick reaches a Bomb in the band and in the basket's lane with no Shield
    up, the rest of the tick is the filter of the items spawned after the
    Bomb, run against the stopped engine, followed by the storing and the
    rendering of the survivors as in any tick: the log of the tick has the
    game-end notification, then the Bomb's item-removed notification, then
    whatever the later items give rise to, and the render notification
    last; the engine is inactive when the tick is over and, when the tick
    was run by the animation loop, one more frame is requested all the
    same.  In the crowded session the tick that catches the Bomb then
    catches the Apple and the Shield behind it: after the game-end
    notification come item-removed, score-change (the score goes from 0 to
    100) and effect-change notifications and the render notification. *)
Theorem tick_goes_on_after_bomb :
  (forall (w : World) (pre post : list Item) (bomb : Item),
     let w1 := snd (filterItems pre w) in
     let stopped :=
       notify OnItemRemove (ItemRemove (id bomb)) (stop "Bomb" w1) in
     type bomb = Bomb ->
     (80 <? y bomb)%float = true -> (y bomb <? 95)%float = true ->
     lane bomb = Some (basketPosition (eng w1)) ->
     hasShield (eng w1) = false ->
     isGameActive (eng stopped) = false
     /\ filterItems (pre ++ bomb :: post) w =
        (fst (filterItems pre w) ++ fst (filterItems post stopped),
         snd (filterItems post stopped)))
  /\ (forall (w : World) (pre post : list Item) (bomb : Item),
        let mv := moveItem (eng w) in
        let w0 := upd (fun g => set_items (map (moveItem g) (items g)) g) w in
        let wi := snd (filterItems (map mv pre) w0) in
        let stopped :=
          notify OnItemRemove (ItemRemove (id bomb)) (stop "Bomb" wi) in
        let r := filterItems (map mv post) stopped in
        let kept := fst (filterItems (map mv pre) w0) ++ fst r in
        let w' := updatePhysics w in
        items (eng w) = pre ++ bomb :: post ->
        type bomb = Bomb ->
        (80 <? y (mv bomb))%float = true -> (y (mv bomb) <? 95)%float = true ->
        lane (mv bomb) = Some (basketPosition (eng w)) ->
        hasShield (eng wi) = false ->
        w' = notify OnRender (Render kept) (upd (set_items kept) (snd r))
        /\ isGameActive (eng w') = false
        /\ (exists later,
              log w' =
              log wi
              ++ emit (eng w) OnEffectChange
                   (EffectChange false false (isTimeSlowActive (eng wi)))
              ++ emit (eng w) OnEffectChange (EffectChange false false false)
              ++ emit (eng w) OnGameEnd
                   (GameEnd (score (eng wi)) (level (eng w)) "Bomb")
              ++ emit (eng w) OnItemRemove (ItemRemove (id bomb))
              ++ later
              ++ emit (eng w) OnRender (Render (items (eng w'))))
        /\ (isGameActive (eng w) = true ->
            loop w =
            upd (set_gameLoopId (Some (nextFrame (host w'))))
                (snd (requestAnimationFrame w'))
            /\ isGameActive (eng (loop w)) = false
            /\ frames (host (loop w)) =
               frames (host w') ++ [nextFrame (host w')]))
  /\ (reachable crowdedSession
      /\ isGameActive (eng crowdedSession) = true
      /\ score (eng crowdedSession) = 0
      /\ log (updatePhysics crowdedSession) =
           log crowdedSession
           ++ [EffectChange false false false; EffectChange false false false;
               GameEnd 0 1 "Bomb"; ItemRemove 0%nat; ScoreChange 100 1;
               ItemRemove 1%nat; EffectChange true false false;
               ItemRemove 2%nat; Render []]
      /\ score (eng (updatePhysics crowdedSession)) = 100
      /\ isGameActive (eng (updatePhysics crowdedSession)) = false
      /\ fireFrame 267 crowdedSession =
           upd (set_gameLoopId (Some 268%positive))
             (snd (requestAnimationFrame
                     (updatePhysics
                        (cancelAnimationFrame (Some 267%positive)
                                              crowdedSession))))
      /\ frames (host (fireFrame 267 crowdedSession)) = [268%positive]).
Proof.
  split; [|split].
  - intros w pre post bomb w1 stopped Ht H80 H95 Hl Hs.
    split; [reflexivity|].
    rewrite filterItems_app. cbn [filterItems].
    fold w1. rewrite (keepItem_Bomb_bare bomb w1 Ht H80 H95 Hl Hs).
    fold stopped. destruct (filterItems post stopped) as [kept w2].
    reflexivity.
  - intros w pre post bomb. cbv zeta. intros Hits Ht H80 H95 Hl Hs.
    destruct (bomb_tick w pre post bomb Hits Ht H80 H95 Hl Hs) as [Hend Hlog].
    split; [exact (bomb_tick_state w pre post bomb Hits Ht H80 H95 Hl Hs)|].
    split; [exact Hend|]. split; [exact Hlog|].
    intros Hact. destruct (loop_active w Hact) as (L1 & L2 & L3).
    split; [exact L1|]. split; [rewrite L2; exact Hend | exact L3].
  - split; [apply crowdedSession_reachable|].
    do 6 (split; [vm_compute; reflexivity|]). vm_compute. reflexivity.
Qed.

(** C10 at work: the tick of the crowded session, Bomb first. *)
Lemma tick_goes_on_after_bomb_demo :
  let its := items (eng crowdedSession) in
  let bomb := hd bombItem its in
  (its = [] ++ bomb :: tl its
   /\ type bomb = Bomb /\ List.length (tl its) = 2%nat
   /\ isGameActive (eng crowdedSession) = true)
  /\ isGameActive (eng (updatePhysics crowdedSession)) = false
  /\ frames (host (loop crowdedSession)) =
     frames (host (updatePhysics crowdedSession))
     ++ [nextFrame (host (updatePhysics crowdedSession))].
Proof.
  cbv zeta.
  destruct tick_goes_on_after_bomb as (_ & H & _).
  specialize (H crowdedSession [] (tl (items (eng crowdedSession)))
                (hd bombItem (items (eng crowdedSession)))).
  cbv zeta in H.
  assert (E : items (eng crowdedSession) =
              [] ++ hd bombItem (items (eng crowdedSession))
                    :: tl (items (eng crowdedSession)))
    by (vm_compute; reflexivity).
  assert (Ht : type (hd bombItem (items (eng crowdedSession))) = Bomb)
    by (vm_compute; reflexivity).
  assert (Hn : List.length (tl (items (eng crowdedSession))) = 2%nat)
    by (vm_compute; reflexivity).
  assert (Ha : isGameActive (eng crowdedSession) = true)
    by (vm_compute; reflexivity).
  specialize (H E Ht).
  do 4 (lazymatch type of H with
        | ?A -> _ =>
            let X := fresh in
            assert (X : A) by (vm_compute; reflexivity); specialize (H X)
        end).
  destruct H as (_ & A & _ & B).
  destruct (B Ha) as (_ & _ & C).
  split; [|split; [exact A | exact C]].
  split; [exact E|]. split; [exact Ht|]. split; [exact Hn | exact Ha].
Defined.
